(** * vkmemfd: heap layout negotiation, control protocol and coherency emulation

    A shallow embedding of the controller ([main.c]) and of the layout and
    protocol parts of the renderer ([renderer.c]).

    Conventions.
    - The target is LP64 x86-64 (the controller uses the [__builtin_ia32_*]
      intrinsics and an 8 GiB [size_t] heap size): [int] is 32 bits,
      [size_t], [uintptr_t] and [VkDeviceSize] are 64 bits, a [uint32_t] is
      laid out little-endian.
    - Machine integers are values of [Z]; every place where C wraps or
      converts is written out with [u32], [u64] or [s32].
    - Code that may call [abort()] is a computation in the monad [M]: a
      state transformer on the process's view of the world that ends in
      [Done], in [Fatal msg] (the message printed before [abort()]), in
      [Undefined] (C undefined behaviour: division by zero, signed overflow,
      an array index out of bounds), or in [Killed signal] (a signal whose
      default action ends the process: [SIGPIPE] on a write to a pipe
      without reader; the program installs no handler and the default
      dispositions are assumed).
    - What the Vulkan driver, libc and the kernel answer is an input of the
      model. *)

From Stdlib Require Import ZArith List String Ascii Bool Lia.
Import ListNotations.
Local Open Scope Z_scope.

(** ** Machine integers *)

Definition u32 (z : Z) : Z := z mod 2 ^ 32.
Definition u64 (z : Z) : Z := z mod 2 ^ 64.

(** Conversion to [int] (two's complement). *)
Definition s32 (z : Z) : Z :=
  let r := z mod 2 ^ 32 in
  if r <? 2 ^ 31 then r else r - 2 ^ 32.

Definition INT_MIN : Z := - 2 ^ 31.
Definition INT_MAX : Z := 2 ^ 31 - 1.
Definition in_int (z : Z) : bool := (INT_MIN <=? z) && (z <=? INT_MAX).

(** ** Outcomes and the process monad *)

Inductive result (A : Type) : Type :=
| Done (a : A)
| Fatal (msg : string)
| Undefined
| Killed (signal : Z).
Arguments Done {A} a.
Arguments Fatal {A} msg.
Arguments Undefined {A}.
Arguments Killed {A} signal.

Definition M (W A : Type) : Type := W -> result A * W.

Definition ret {W A} (a : A) : M W A := fun w => (Done a, w).

Definition bind {W A B} (c : M W A) (k : A -> M W B) : M W B :=
  fun w =>
    match c w with
    | (Done a, w') => k a w'
    | (Fatal msg, w') => (Fatal msg, w')
    | (Undefined, w') => (Undefined, w')
    | (Killed signal, w') => (Killed signal, w')
    end.

Definition fatal {W A} (msg : string) : M W A := fun w => (Fatal msg, w).
Definition undefined {W A} : M W A := fun w => (Undefined, w).
Definition get {W} : M W W := fun w => (Done w, w).
Definition modify {W} (f : W -> W) : M W unit := fun w => (Done tt, f w).

Notation "x <- c ;; k" := (bind c (fun x => k))
  (at level 61, c at next level, right associativity).
Notation "c ;;; k" := (bind c (fun _ => k))
  (at level 61, right associativity).

Definition when {W} (b : bool) (c : M W unit) : M W unit :=
  if b then c else ret tt.

(** The same outcomes for code that touches no state. *)
Definition rbind {A B} (r : result A) (k : A -> result B) : result B :=
  match r with
  | Done a => k a
  | Fatal msg => Fatal msg
  | Undefined => Undefined
  | Killed signal => Killed signal
  end.

Notation "x <~ r ;; k" := (rbind r (fun x => k))
  (at level 61, r at next level, right associativity).

(** ** The wire format of the control channels

    [write(fd, &val, sizeof(val))] and [read(fd, &val, sizeof(val))] on a
    [uint32_t]: four bytes, least significant first. *)

(** A byte is a number in [[0, 256)]. *)
Definition byte := Z.

Definition encode_u32 (v : Z) : list byte :=
  [v mod 256; (v / 256) mod 256; (v / 65536) mod 256; (v / 16777216) mod 256].

Definition decode_u32 (bs : list byte) : Z :=
  match bs with
  | [b0; b1; b2; b3] => b0 + 256 * b1 + 65536 * b2 + 16777216 * b3
  | _ => 0
  end.

(** ** Vulkan and libc constants (from [vulkan_core.h]) *)

Definition VK_SUCCESS : Z := 0.
Definition VK_EXTERNAL_MEMORY_FEATURE_DEDICATED_ONLY_BIT : Z := 1.
Definition VK_EXTERNAL_MEMORY_FEATURE_EXPORTABLE_BIT : Z := 2.
Definition VK_EXTERNAL_MEMORY_FEATURE_IMPORTABLE_BIT : Z := 4.
Definition VK_EXTERNAL_MEMORY_HANDLE_TYPE_HOST_ALLOCATION_BIT_EXT : Z := 128.
Definition VK_EXTERNAL_MEMORY_HANDLE_TYPE_DMA_BUF_BIT_EXT : Z := 512.
Definition VK_BUFFER_USAGE_UNIFORM_BUFFER_BIT : Z := 16.
Definition VK_BUFFER_USAGE_TRANSFER_DST_BIT : Z := 2.

(** ** A process's two control pipes

    [rx] holds all the bytes the peer writes to the pipe this process reads
    before it closes its end (a read past them returns short), [tx] the
    bytes this process has written so far; [tx_open] is false when the peer
    has closed its end, so that a [write] raises [SIGPIPE]. *)

Record chan : Type := {
  rx : list byte;
  tx : list byte;
  tx_open : bool
}.

(** [read(fd, &val, 4)]: the four bytes when they are there, otherwise a
    short read. *)
Definition chan_read4 (c : chan) : option (list byte) * chan :=
  match rx c with
  | b0 :: b1 :: b2 :: b3 :: rest =>
      (Some [b0; b1; b2; b3],
       {| rx := rest; tx := tx c; tx_open := tx_open c |})
  | _ => (None, {| rx := []; tx := tx c; tx_open := tx_open c |})
  end.

(** From [signal.h]. *)
Definition SIGPIPE : Z := 13.

(** How a [write] ends: it returns a count, or a signal ends the process
    inside the call. *)
Inductive written : Type :=
| Returned (n : Z)
| Raised (signal : Z).

(** [write(fd, &val, 4)] on the pipe. When the reader has closed its end
    the kernel raises [SIGPIPE]; the program never changes the disposition
    of that signal, and under the default one the process ends there:
    [write] does not return and nothing is printed. *)
Definition chan_write4 (bs : list byte) (c : chan) : written * chan :=
  if tx_open c
  then (Returned 4, {| rx := rx c; tx := tx c ++ bs; tx_open := true |})
  else (Raised SIGPIPE, c).

(** ** The renderer ([renderer.c]) *)

Module Renderer.

(** *** Heap layout negotiation *)

(** What the driver answers for one temporary buffer:
    [externalMemoryFeatures] of [vkGetPhysicalDeviceExternalBufferProperties],
    the [VkResult] of [vkCreateBuffer], and [memoryRequirements.size] of
    [vkGetBufferMemoryRequirements2]. *)
Record buffer_answer : Type := {
  externalMemoryFeatures : Z;
  create_result : Z;
  reqs_size : Z
}.

(** The driver, as far as layout negotiation asks it: the answers for a
    buffer of a given size, usage and handle type, and
    [minImportedHostPointerAlignment]. *)
Record vk_device : Type := {
  buffer_query : Z -> Z -> Z -> buffer_answer;
  minImportedHostPointerAlignment : Z
}.

Record renderer_config : Type := {
  width : Z;
  height : Z;
  output_count : Z;
  use_udmabuf : bool
}.

(** [renderer->heap]: the size found by [lseek] and the address [mmap]
    returned (only meaningful on the host-pointer path). *)
Record renderer_heap : Type := {
  heap_size : Z;
  heap_base : Z
}.

Record heap_layout : Type := {
  base_skip : Z;
  ubo_size : Z;
  output_size : Z;
  handle_type : Z;
  ubo_used_size : Z;
  ubo_props : Z;
  output_used_size : Z;
  output_props : Z
}.

Definition has_bit (flags bit : Z) : bool := negb (Z.land flags bit =? 0).

Definition renderer_vk (res : Z) (msg : string) : result unit :=
  if res =? VK_SUCCESS then Done tt else Fatal msg.

(** [renderer_get_heap_buffer_props]; returns [( *props, *alloc )]. *)
Definition renderer_get_heap_buffer_props (dev : vk_device) (htype : Z)
    (size usage mem_align : Z) : result (Z * Z) :=
  let ans := buffer_query dev size usage htype in
  let props := externalMemoryFeatures ans in
  if negb (has_bit props VK_EXTERNAL_MEMORY_FEATURE_IMPORTABLE_BIT) then
    Fatal "external memory not importable"
  else
    _ <~ renderer_vk (create_result ans) "failed to create tmp buffer" ;;
    if mem_align =? 0 then Undefined
    else
      let rem := reqs_size ans mod mem_align in
      if negb (rem =? 0) then
        if has_bit props VK_EXTERNAL_MEMORY_FEATURE_DEDICATED_ONLY_BIT then
          Fatal "conflicting size requirement from dedicated allocation"
        else Done (props, u64 (reqs_size ans - rem + mem_align))
      else Done (props, size).

(** [width * height * 4] in [int] arithmetic, then converted to
    [VkDeviceSize]. *)
Definition image_bytes (w h : Z) : result Z :=
  if in_int (w * h) && in_int (w * h * 4) then Done (u64 (w * h * 4))
  else Undefined.

(** [renderer_init_heap_layout]. [pagesize] is what [getpagesize()]
    returns. *)
Definition renderer_init_heap_layout (cfg : renderer_config)
    (heap : renderer_heap) (dev : vk_device) (pagesize : Z)
    : result heap_layout :=
  pre <~ (if use_udmabuf cfg then
            Done (u64 pagesize, 0,
                  VK_EXTERNAL_MEMORY_HANDLE_TYPE_DMA_BUF_BIT_EXT)
          else
            let mem_align := minImportedHostPointerAlignment dev in
            if mem_align =? 0 then Undefined
            else
              let rem := heap_base heap mod mem_align in
              Done (mem_align,
                    (if negb (rem =? 0) then mem_align - rem else 0),
                    VK_EXTERNAL_MEMORY_HANDLE_TYPE_HOST_ALLOCATION_BIT_EXT)) ;;
  let '(mem_align, skip, htype) := pre in
  let ubo_used := 16 in
  ubo <~ renderer_get_heap_buffer_props dev htype ubo_used
           VK_BUFFER_USAGE_UNIFORM_BUFFER_BIT mem_align ;;
  out_used <~ image_bytes (width cfg) (height cfg) ;;
  out <~ renderer_get_heap_buffer_props dev htype out_used
           VK_BUFFER_USAGE_TRANSFER_DST_BIT mem_align ;;
  if heap_size heap <?
     u64 (snd ubo + u64 (snd out * u64 (output_count cfg)))
  then Fatal "heap size too small"
  else Done {| base_skip := skip;
               ubo_size := snd ubo;
               output_size := snd out;
               handle_type := htype;
               ubo_used_size := ubo_used;
               ubo_props := fst ubo;
               output_used_size := out_used;
               output_props := fst out |}.

(** The rounding rule as the specification words it. *)
Definition aligned_size (nominal align : Z) : Z :=
  if negb (nominal mod align =? 0) then nominal + (align - nominal mod align)
  else nominal.

(** *** The control protocol on the renderer's side *)

(** The renderer's world: its pipes, the [VkResult]s that the coming
    [vkQueueSubmit] and [vkQueueWaitIdle] calls return (success once the
    list is used up), and the command buffers submitted so far. *)
Record world : Type := {
  ctrl : chan;
  vk_answers : list (Z * Z);
  submitted : list Z
}.

Definition lift {A} (r : result A) : M world A := fun w => (r, w).

Definition renderer_recv : M world Z :=
  fun w =>
    match chan_read4 (ctrl w) with
    | (Some bs, c) =>
        (Done (decode_u32 bs),
         {| ctrl := c; vk_answers := vk_answers w; submitted := submitted w |})
    | (None, c) =>
        (Fatal "failed to receive a value",
         {| ctrl := c; vk_answers := vk_answers w; submitted := submitted w |})
    end.

(** The parameter is a [uint32_t]: the argument is converted on the call. *)
Definition renderer_send (val : Z) : M world unit :=
  fun w =>
    match chan_write4 (encode_u32 (u32 val)) (ctrl w) with
    | (Returned n, c) =>
        (if n =? 4 then Done tt else Fatal "failed to send a value",
         {| ctrl := c; vk_answers := vk_answers w; submitted := submitted w |})
    | (Raised signal, c) =>
        (Killed signal,
         {| ctrl := c; vk_answers := vk_answers w; submitted := submitted w |})
    end.

(** [renderer_render]: [cmd.bufs] has [output_count] elements. *)
Definition renderer_render (cfg : renderer_config) (output : Z)
    : M world unit :=
  fun w =>
    if (0 <=? output) && (output <? output_count cfg) then
      let '(submit_res, wait_res, rest) :=
        match vk_answers w with
        | (s, q) :: rest => (s, q, rest)
        | [] => (VK_SUCCESS, VK_SUCCESS, [])
        end in
      match renderer_vk submit_res "failed to submit command buffer" with
      | Done _ =>
          (renderer_vk wait_res "failed to wait queue",
           {| ctrl := ctrl w; vk_answers := rest;
              submitted := submitted w ++ [output] |})
      | r =>
          (r, {| ctrl := ctrl w; vk_answers := rest;
                 submitted := submitted w |})
      end
    else (Undefined, w).

(** One turn of the [while (true)] of [renderer_mainloop]. *)
Definition renderer_mainloop_body (cfg : renderer_config) : M world unit :=
  v <- renderer_recv ;;
  let output := s32 v in
  renderer_render cfg output ;;;
  renderer_send output.

(** The first [n] turns of [renderer_mainloop]. *)
Fixpoint renderer_mainloop (cfg : renderer_config) (n : nat) : M world unit :=
  match n with
  | O => ret tt
  | S k => renderer_mainloop_body cfg ;;; renderer_mainloop cfg k
  end.

(** The part of [renderer] from the layout to the steady state: the layout
    is computed and sent. *)
Definition renderer_handshake (cfg : renderer_config) (heap : renderer_heap)
    (dev : vk_device) (pagesize : Z) : M world heap_layout :=
  l <- lift (renderer_init_heap_layout cfg heap dev pagesize) ;;
  renderer_send (base_skip l) ;;;
  renderer_send (ubo_size l) ;;;
  renderer_send (output_size l) ;;;
  ret l.

(** [renderer], after the device has been opened. [later_init] is how the
    Vulkan set-up between the handshake and the main loop ends (heap
    buffers, vertex buffer, descriptor set, framebuffer, pipeline, command
    buffers); none of it touches the pipes. *)
Definition renderer (cfg : renderer_config) (heap : renderer_heap)
    (dev : vk_device) (pagesize : Z) (later_init : result unit) (n : nat)
    : M world unit :=
  renderer_handshake cfg heap dev pagesize ;;;
  lift later_init ;;;
  renderer_mainloop cfg n.

End Renderer.

(** ** The controller ([main.c]) *)

Module App.

(** *** Strings: [snprintf] and [sscanf] with [%d] *)

Definition cstr (s : string) : list ascii := list_ascii_of_string s.

Fixpoint str_eqb (a b : list ascii) : bool :=
  match a, b with
  | [], [] => true
  | x :: a', y :: b' => Ascii.eqb x y && str_eqb a' b'
  | _, _ => false
  end.

Definition code (c : ascii) : Z := Z.of_nat (nat_of_ascii c).
Definition digit_char (d : Z) : ascii := ascii_of_nat (Z.to_nat (48 + d)).
Definition isdigit (c : ascii) : bool := (48 <=? code c) && (code c <=? 57).
Definition isspace (c : ascii) : bool :=
  (code c =? 32) || ((9 <=? code c) && (code c <=? 13)).

(** The decimal digits of a non-negative number, most significant first,
    in front of [acc]. An [int] has at most ten of them. *)
Fixpoint digits_aux (fuel : nat) (n : Z) (acc : list ascii) : list ascii :=
  match fuel with
  | O => acc
  | S f =>
      let acc' := digit_char (n mod 10) :: acc in
      if n / 10 =? 0 then acc' else digits_aux f (n / 10) acc'
  end.

(** The conversion [%d] of [printf]. *)
Definition fmt_d (n : Z) : list ascii :=
  if n <? 0 then "-"%char :: digits_aux 10 (- n) []
  else digits_aux 10 n [].

(** The complete output of ["renderer-%d-%d-%d"]. *)
Definition renderer_string (a b c : Z) : list ascii :=
  cstr "renderer-" ++ fmt_d a ++ cstr "-" ++ fmt_d b ++ cstr "-" ++ fmt_d c.

Fixpoint skip_space (s : list ascii) : list ascii :=
  match s with
  | c :: t => if isspace c then skip_space t else s
  | [] => []
  end.

Fixpoint scan_digits (acc : Z) (s : list ascii) : Z * list ascii :=
  match s with
  | c :: t =>
      if isdigit c then scan_digits (acc * 10 + (code c - 48)) t
      else (acc, s)
  | [] => (acc, [])
  end.

Inductive scan : Type :=
| Conv (v : Z) (rest : list ascii)   (* a value was converted *)
| InputFailure                       (* the input ended *)
| MatchFailure                       (* the input does not fit *)
| Overflow.                          (* the value is not an [int] *)

(** The conversion [%d] of [scanf]: white space, an optional sign, digits.
    The input fails only when it ends before any character of the number;
    a sign that no digit follows, at the end of the input too, does not
    match. *)
Definition scan_d (s : list ascii) : scan :=
  match skip_space s with
  | [] => InputFailure
  | c :: t =>
      let neg := Ascii.eqb c "-" in
      let body := if neg || Ascii.eqb c "+" then t else c :: t in
      match body with
      | [] => MatchFailure
      | d :: _ =>
          if isdigit d then
            let '(v, rest) := scan_digits 0 body in
            let v' := if neg then - v else v in
            if in_int v' then Conv v' rest else Overflow
          else MatchFailure
      end
  end.

(** A literal character of the format. *)
Definition scan_lit (c : ascii) (s : list ascii) : option (list ascii) :=
  match s with
  | x :: t => if Ascii.eqb x c then Some t else None
  | [] => None
  end.

(** [sscanf(s, "%d-%d-%d", &a, &b, &c)] with [a0], [b0], [c0] in the three
    objects before the call: the return value and the three objects
    after it. *)
Definition sscanf_d_d_d (s : list ascii) (a0 b0 c0 : Z)
    : result (Z * (Z * Z * Z)) :=
  match scan_d s with
  | Overflow => Undefined
  | InputFailure => Done (-1, (a0, b0, c0))
  | MatchFailure => Done (0, (a0, b0, c0))
  | Conv a s1 =>
      match scan_lit "-" s1 with
      | None => Done (1, (a, b0, c0))
      | Some s2 =>
          match scan_d s2 with
          | Overflow => Undefined
          | InputFailure | MatchFailure => Done (1, (a, b0, c0))
          | Conv b s3 =>
              match scan_lit "-" s3 with
              | None => Done (2, (a, b, c0))
              | Some s4 =>
                  match scan_d s4 with
                  | Overflow => Undefined
                  | InputFailure | MatchFailure => Done (2, (a, b, c0))
                  | Conv c _ => Done (3, (a, b, c))
                  end
              end
          end
      end
  end.

(** *** Configuration and the command line *)

Record app_config : Type := {
  width : Z;
  height : Z;
  output_count : Z;
  heap_size : Z;
  is_coherent : bool;
  use_udmabuf : bool
}.

Definition default_config : app_config :=
  {| width := 600; height := 600; output_count := 64;
     heap_size := 8 * 1024 * 1024 * 1024;
     is_coherent := true; use_udmabuf := false |}.

Record renderer_args : Type := {
  valid : bool;
  ra_width : Z;
  ra_height : Z;
  ra_output_count : Z;
  ctrl_in : Z;
  ctrl_out : Z;
  memfd : Z;
  ra_use_udmabuf : bool
}.

Definition default_renderer_args : renderer_args :=
  {| valid := false;
     ra_width := width default_config;
     ra_height := height default_config;
     ra_output_count := output_count default_config;
     ctrl_in := 0; ctrl_out := 0; memfd := 0;
     ra_use_udmabuf := use_udmabuf default_config |}.

Definition set_udmabuf (b : bool) (c : app_config) : app_config :=
  {| width := width c; height := height c; output_count := output_count c;
     heap_size := heap_size c; is_coherent := is_coherent c;
     use_udmabuf := b |}.

Definition set_coherent (b : bool) (c : app_config) : app_config :=
  {| width := width c; height := height c; output_count := output_count c;
     heap_size := heap_size c; is_coherent := b;
     use_udmabuf := use_udmabuf c |}.

Definition set_ra_udmabuf (b : bool) (r : renderer_args) : renderer_args :=
  {| valid := valid r; ra_width := ra_width r; ra_height := ra_height r;
     ra_output_count := ra_output_count r; ctrl_in := ctrl_in r;
     ctrl_out := ctrl_out r; memfd := memfd r; ra_use_udmabuf := b |}.

Definition set_ra_fds (abc : Z * Z * Z) (r : renderer_args) : renderer_args :=
  let '(a, b, c) := abc in
  {| valid := true; ra_width := ra_width r; ra_height := ra_height r;
     ra_output_count := ra_output_count r; ctrl_in := a;
     ctrl_out := b; memfd := c; ra_use_udmabuf := ra_use_udmabuf r |}.

(** How [main] leaves its argument loop. *)
Inductive parsed : Type :=
| Parsed (c : app_config) (r : renderer_args)
| Usage                         (* [app_usage]: [exit(1)] *)
| ParseFatal (msg : string)
| ParseUndefined.

(** The [for] loop of [main] over [argv[1..]]. *)
Fixpoint parse_args (args : list (list ascii)) (c : app_config)
    (r : renderer_args) : parsed :=
  match args with
  | [] => Parsed c r
  | arg :: rest =>
      if str_eqb (firstn 9 arg) (cstr "renderer-") then
        match sscanf_d_d_d (skipn 9 arg) (ctrl_in r) (ctrl_out r) (memfd r) with
        | Undefined | Killed _ => ParseUndefined   (* no signal arises here *)
        | Fatal msg => ParseFatal msg
        | Done (n, abc) =>
            if negb (n =? 3) then ParseFatal "invalid renderer args"
            else parse_args rest c (set_ra_fds abc r)
        end
      else if str_eqb arg (cstr "udmabuf") then
        parse_args rest (set_udmabuf true c) (set_ra_udmabuf true r)
      else if str_eqb arg (cstr "memfd") then
        parse_args rest (set_udmabuf false c) (set_ra_udmabuf false r)
      else if str_eqb arg (cstr "coherent") then
        parse_args rest (set_coherent true c) r
      else if str_eqb arg (cstr "incoherent") then
        parse_args rest (set_coherent false c) r
      else Usage
  end.

(** Which of the two roles [main] takes. *)
Inductive role : Type :=
| AsRenderer (w h n cin cout fd : Z) (udmabuf : bool)
| AsController (c : app_config)
| ExitUsage
| Abort (msg : string)
| RoleUndefined.

Definition main_role (argv : list (list ascii)) : role :=
  match parse_args (tl argv) default_config default_renderer_args with
  | Usage => ExitUsage
  | ParseFatal msg => Abort msg
  | ParseUndefined => RoleUndefined
  | Parsed c r =>
      if valid r then
        AsRenderer (ra_width r) (ra_height r) (ra_output_count r)
                   (ctrl_in r) (ctrl_out r) (memfd r) (ra_use_udmabuf r)
      else AsController c
  end.

(** The argument vector [app_init_renderer] builds for [execv] in the
    child: [snprintf] into 32 bytes must not truncate. *)
Definition child_argv (c : app_config) (argv0 : list ascii)
    (child_in child_out child_memfd : Z) : result (list (list ascii)) :=
  let child_renderer := renderer_string child_in child_out child_memfd in
  if 32 <=? Z.of_nat (List.length child_renderer) then
    Fatal "failed to format the renderer string"
  else
    Done [argv0; child_renderer;
          if use_udmabuf c then cstr "udmabuf" else cstr "memfd"].

(** *** The controller at run time *)

(** The float written to one channel of the uniform colour: [rgba] is
    [{0, 0, 0, 1}] with [rgba[channel] = (float) num / den]. *)
Record rgba : Type := {
  rgba_channel : Z;
  rgba_num : Z;
  rgba_den : Z
}.

(** What the controller does to the outside, in program order. *)
Inductive event : Type :=
| EvMapWindow
| EvPoll                               (* [xcb_poll_for_event] *)
| EvMemcpyUbo (dst : Z) (colour : rgba) (* [memcpy(app->mems.ubo, ...)] *)
| EvMfence                             (* [__builtin_ia32_mfence] *)
| EvClflush (addr : Z)                 (* [__builtin_ia32_clflush] *)
| EvSend (v : Z)                       (* a completed [write] *)
| EvRecv (v : Z)                       (* a completed [read] *)
| EvPutImage (src len : Z)             (* [xcb_put_image], reads the heap *)
| EvXcbFlush
| EvUsleep (us : Z).

(** The controller's world: its pipes, what the coming calls of
    [xcb_poll_for_event] return (true: an event; none once the list is used
    up), whether [malloc] succeeds, and the events so far. *)
Record world : Type := {
  ctrl : chan;
  xcb_pending : list bool;
  malloc_ok : bool;
  trace : list event
}.

Definition log (e : event) (w : world) : world :=
  {| ctrl := ctrl w; xcb_pending := xcb_pending w; malloc_ok := malloc_ok w;
     trace := trace w ++ [e] |}.

Definition set_ctrl (c : chan) (w : world) : world :=
  {| ctrl := c; xcb_pending := xcb_pending w; malloc_ok := malloc_ok w;
     trace := trace w |}.

Definition emit (e : event) : M world unit := modify (log e).

(** [struct app], as far as the main loop reads it. *)
Record app : Type := {
  config : app_config;
  heap_base : Z;
  img_size : Z;
  mems_ubo : Z;
  mems_outputs : list Z
}.

Definition app_recv : M world Z :=
  fun w =>
    match chan_read4 (ctrl w) with
    | (Some bs, c) =>
        (Done (decode_u32 bs), log (EvRecv (decode_u32 bs)) (set_ctrl c w))
    | (None, c) => (Fatal "failed to receive a value", set_ctrl c w)
    end.

(** The parameter is a [uint32_t]: the argument is converted on the call. *)
Definition app_send (val : Z) : M world unit :=
  fun w =>
    match chan_write4 (encode_u32 (u32 val)) (ctrl w) with
    | (Returned n, c) =>
        if n =? 4 then (Done tt, log (EvSend (u32 val)) (set_ctrl c w))
        else (Fatal "failed to send a value", set_ctrl c w)
    | (Raised signal, c) => (Killed signal, set_ctrl c w)
    end.

(** The [for] loop of [app_init_memories]: [n] output pointers from [ptr]
    on; also the final [ptr]. *)
Fixpoint place_outputs (n : nat) (ptr output_size : Z) : list Z * Z :=
  match n with
  | O => ([], ptr)
  | S k =>
      let '(l, p) := place_outputs k (ptr + output_size) output_size in
      (ptr :: l, p)
  end.

(** [app_init_memories]; the three sizes are [size_t]. Pointers are
    addresses in [Z]. *)
Definition app_init_memories (a : app) (heap_skip ubo_size output_size : Z)
    : M world app :=
  let ptr := heap_base a + heap_skip in
  let ubo := ptr in
  let ptr := ptr + ubo_size in
  w <- get ;;
  if negb (malloc_ok w) then fatal "failed to allocate output pointers"
  else
    let '(outputs, ptr) :=
      place_outputs (Z.to_nat (output_count (config a))) ptr output_size in
    if ubo_size <? 16 then fatal "invalid ubo size"
    else if output_size <? img_size a then fatal "invalid output size"
    else if heap_size (config a) <? ptr - heap_base a then
      fatal "heap size too small"
    else ret {| config := config a; heap_base := heap_base a;
                img_size := img_size a; mems_ubo := ubo;
                mems_outputs := outputs |}.

(** [app_render_frame]; [output] is an [int]. *)
Definition app_render_frame (a : app) (output : Z) (colour : rgba)
    : M world unit :=
  emit (EvMemcpyUbo (mems_ubo a) colour) ;;;
  when (negb (is_coherent (config a)))
    (emit EvMfence ;;; emit (EvClflush (mems_ubo a))) ;;;
  app_send output ;;;
  v <- app_recv ;;
  if negb (v =? u32 output) then fatal "unexpected renderer output"
  else ret tt.

(** The addresses flushed by
    [while (ptr < end) { clflush(ptr); ptr += 64; }], after at most [fuel]
    turns of the loop. *)
Fixpoint sweep_from (fuel : nat) (ptr end_ : Z) : list Z :=
  match fuel with
  | O => []
  | S f =>
      if ptr <? end_ then ptr :: sweep_from f (ptr + 64) end_ else []
  end.

(** The whole loop: it cannot take more turns than there are bytes
    between [ptr] and [end] (see [sweep_unfold]). *)
Definition sweep (ptr end_ : Z) : list Z :=
  sweep_from (Z.to_nat (end_ - ptr)) ptr end_.

Fixpoint emit_all (es : list event) : M world unit :=
  match es with
  | [] => ret tt
  | e :: rest => emit e ;;; emit_all rest
  end.

(** [app_present_frame]. *)
Definition app_present_frame (a : app) (output : Z) : M world unit :=
  if output <? 0 then undefined
  else
    match nth_error (mems_outputs a) (Z.to_nat output) with
    | None => undefined
    | Some ptr =>
        when (negb (is_coherent (config a)))
          (emit_all (map EvClflush (sweep ptr (ptr + img_size a))) ;;;
           emit EvMfence) ;;;
        emit (EvPutImage ptr (img_size a)) ;;;
        emit EvXcbFlush ;;;
        emit (EvUsleep (1000 * 1000 / 60))
    end.

(** [xcb_poll_for_event(...) != NULL]. *)
Definition xcb_poll_for_event : M world bool :=
  fun w =>
    let '(ev, rest) :=
      match xcb_pending w with
      | [] => (false, [])
      | b :: rest => (b, rest)
      end in
    (Done ev, log EvPoll {| ctrl := ctrl w; xcb_pending := rest;
                            malloc_ok := malloc_ok w; trace := trace w |}).

(** The locals of [app_mainloop]. *)
Record loop_state : Type := {
  output : Z;
  output_inc : Z;
  channel : Z
}.

Definition loop_init : loop_state :=
  {| output := 0; output_inc := 1; channel := 0 |}.

(** "next value/channel" at the end of the loop body. *)
Definition loop_next (n : Z) (s : loop_state) : loop_state :=
  let o := output s + output_inc s in
  if n <=? o then
    {| output := n - 1; output_inc := -1; channel := channel s |}
  else if o <? 0 then
    {| output := 1; output_inc := 1; channel := (channel s + 1) mod 3 |}
  else {| output := o; output_inc := output_inc s; channel := channel s |}.

(** One turn of the [while (true)] of [app_mainloop]. *)
Definition app_mainloop_body (a : app) (s : loop_state) : M world loop_state :=
  ev <- xcb_poll_for_event ;;
  if ev then fatal "unexpected XCB event"
  else
    let colour := {| rgba_channel := channel s; rgba_num := output s;
                     rgba_den := output_count (config a) - 1 |} in
    app_render_frame a (output s) colour ;;;
    app_present_frame a (output s) ;;;
    ret (loop_next (output_count (config a)) s).

Fixpoint app_mainloop_from (a : app) (s : loop_state) (n : nat)
    : M world loop_state :=
  match n with
  | O => ret s
  | S k => s' <- app_mainloop_body a s ;; app_mainloop_from a s' k
  end.

(** The first [n] turns of [app_mainloop]. *)
Definition app_mainloop (a : app) (n : nat) : M world loop_state :=
  emit EvMapWindow ;;;
  app_mainloop_from a loop_init n.

(** "get the heap layout from the renderer" in [main]. *)
Definition app_handshake : M world (Z * Z * Z) :=
  heap_skip <- app_recv ;;
  ubo_size <- app_recv ;;
  output_size <- app_recv ;;
  ret (heap_skip, ubo_size, output_size).

(** [main] as controller, from the handshake on; [a] is the [struct app]
    after [app_init_heap], [app_init_renderer] and [app_init_xcb]. *)
Definition main_controller (a : app) (n : nat) : M world loop_state :=
  hs <- app_handshake ;;
  let '(heap_skip, ubo_size, output_size) := hs in
  a' <- app_init_memories a heap_skip ubo_size output_size ;;
  app_mainloop a' n.

End App.

(** ** The renderer's set-up and imports ([renderer.c], [udmabuf.c]) *)

Module RendererSetup.

(** From [vulkan_core.h]. *)
Definition VK_INCOMPLETE : Z := 5.
Definition VK_QUEUE_GRAPHICS_BIT : Z := 1.

Definition VK_MAKE_VERSION (major minor patch : Z) : Z :=
  Z.lor (Z.lor (Z.shiftl major 22) (Z.shiftl minor 12)) patch.

Definition VK_VERSION_MAJOR (version : Z) : Z := Z.shiftr version 22.
Definition VK_VERSION_MINOR (version : Z) : Z :=
  Z.land (Z.shiftr version 12) 1023.

(** [renderer_init_vk_instance]: [version] is what
    [vkEnumerateInstanceVersion] wrote, [create_res] what [vkCreateInstance]
    returns. *)
Definition renderer_init_vk_instance (version create_res : Z) : result unit :=
  if version <? VK_MAKE_VERSION 1 1 0 then
    Fatal "no Vulkan 1.1 instance support"
  else Renderer.renderer_vk create_res "failed to create instance".

(** [renderer_init_vk_physical_device]: [res] and [written] are the result
    of [vkEnumeratePhysicalDevices] and the number of handles it wrote (at
    most one is asked for); [physical_dev] stays [VK_NULL_HANDLE] when none
    was written. *)
Definition renderer_init_vk_physical_device (res written apiVersion : Z)
    : result unit :=
  _ <~ (if negb (res =? VK_INCOMPLETE) then
          Renderer.renderer_vk res "failed to enumerate physical devices"
        else Done tt) ;;
  if written =? 0 then Undefined
  else if apiVersion <? VK_MAKE_VERSION 1 1 0 then
    Fatal "no Vulkan 1.1 device support"
  else Done tt.

(** [ext_table] of [renderer_init_vk_device]. *)
Definition ext_table (use_udmabuf : bool) : list (string * bool) :=
  [ ("VK_KHR_external_memory_fd"%string, use_udmabuf);
    ("VK_EXT_external_memory_dma_buf"%string, use_udmabuf);
    ("VK_EXT_external_memory_host"%string, negb use_udmabuf) ].

(** The inner loop: is [name] among the [extensionName]s? *)
Fixpoint ext_found (name : string) (ext_props : list string) : bool :=
  match ext_props with
  | [] => false
  | e :: rest => if String.eqb e name then true else ext_found name rest
  end.

(** The outer loop: the names enabled so far are [enabled]. *)
Fixpoint enable_exts (table : list (string * bool))
    (ext_props enabled : list string) : result (list string) :=
  match table with
  | [] => Done enabled
  | (name, required) :: rest =>
      if negb required then enable_exts rest ext_props enabled
      else if negb (ext_found name ext_props) then
        Fatal "missing extensions"
      else enable_exts rest ext_props (enabled ++ [name])
  end.

(** What the driver and libc answer to [renderer_init_vk_device]. *)
Record device_answers : Type := {
  count_result : Z;          (* first [vkEnumerateDeviceExtensionProperties] *)
  ext_malloc_ok : bool;
  enum_result : Z;           (* second [vkEnumerateDeviceExtensionProperties] *)
  ext_props : list string;   (* the [extensionName]s it wrote *)
  queueFlags : Z;            (* of queue family 0 *)
  device_result : Z          (* [vkCreateDevice] *)
}.

(** [renderer_init_vk_device]; returns [ppEnabledExtensionNames] of the
    device it created. *)
Definition renderer_init_vk_device (use_udmabuf : bool) (ans : device_answers)
    : result (list string) :=
  _ <~ Renderer.renderer_vk (count_result ans)
         "failed to enumerate extension count" ;;
  if negb (ext_malloc_ok ans) then Fatal "failed to allocate extension array"
  else
    _ <~ Renderer.renderer_vk (enum_result ans)
           "failed to enumerate extensions" ;;
    enabled_names <~ enable_exts (ext_table use_udmabuf) (ext_props ans) [] ;;
    if negb (Renderer.has_bit (queueFlags ans) VK_QUEUE_GRAPHICS_BIT) then
      Fatal "queue family 0 does not support graphics"
    else
      _ <~ Renderer.renderer_vk (device_result ans)
             "failed to create device" ;;
      Done enabled_names.

(** [ffs] of libc on a 32-bit pattern: one plus the index of the least
    significant set bit, zero when there is none. *)
Fixpoint ffs_from (fuel : nat) (i x : Z) : Z :=
  match fuel with
  | O => 0
  | S f => if Z.testbit x i then i + 1 else ffs_from f (i + 1) x
  end.

Definition ffs (x : Z) : Z := ffs_from 32 0 (u32 x).

(** [struct udmabuf_create] as [udmabuf_create] fills it for the
    [UDMABUF_CREATE] ioctl. *)
Record udmabuf_create_arg : Type := {
  uc_memfd : Z;
  uc_flags : Z;
  uc_offset : Z;
  uc_size : Z
}.

Definition UDMABUF_FLAGS_CLOEXEC : Z := 1.

Definition udmabuf_create_request (memfd offset size : Z) : udmabuf_create_arg :=
  {| uc_memfd := u32 memfd;
     uc_flags := UDMABUF_FLAGS_CLOEXEC;
     uc_offset := u64 offset;
     uc_size := u64 size |}.

(** What is imported into a device allocation. *)
Inductive import_source : Type :=
| ImportFd (fd : Z)
| ImportHostPointer (addr : Z).

(** The [VkMemoryAllocateInfo] chain of [renderer_alloc_heap_buffer]. *)
Record allocation : Type := {
  alloc_source : import_source;
  alloc_dedicated : bool;
  allocationSize : Z;
  memoryTypeIndex : Z
}.

(** [renderer->heap] with its union: the mapping on the host-pointer path,
    the descriptor of [/dev/udmabuf] on the udmabuf path. *)
Inductive heap_view : Type :=
| HeapBase (base : Z)
| HeapUdmabuf (fd : Z).

Record heap : Type := {
  heap_memfd : Z;
  heap_bytes : Z;
  heap_union : heap_view
}.

(** [renderer_init_heap]: [off] is what [lseek] returns, [dev_fd] what
    [udmabuf_init] returns, [map] what [mmap] returns ([None] for
    [MAP_FAILED]). *)
Definition renderer_init_heap (use_udmabuf : bool) (memfd off dev_fd : Z)
    (map : option Z) : result heap :=
  if off <? 0 then Fatal "failed to get memfd size"
  else if use_udmabuf then
    if dev_fd <? 0 then Fatal "failed to initialize udmabuf"
    else Done {| heap_memfd := memfd; heap_bytes := off;
                 heap_union := HeapUdmabuf dev_fd |}
  else
    match map with
    | None => Fatal "failed to map memfd"
    | Some base => Done {| heap_memfd := memfd; heap_bytes := off;
                           heap_union := HeapBase base |}
    end.

(** What the kernel and the driver answer to one
    [renderer_alloc_heap_buffer]. *)
Record import_answers : Type := {
  buffer_result : Z;         (* [vkCreateBuffer] *)
  udmabuf_fd : Z;            (* the [UDMABUF_CREATE] ioctl *)
  props_result : Z;          (* [vkGetMemory{Fd,HostPointer}Properties] *)
  import_type_bits : Z;      (* its [memoryTypeBits] *)
  allocate_result : Z;       (* [vkAllocateMemory] *)
  bind_result : Z            (* [vkBindBufferMemory2] *)
}.

(** The renderer's imports so far: the [UDMABUF_CREATE] requests and the
    device allocations, in order. *)
Record imports : Type := {
  udmabuf_requests : list udmabuf_create_arg;
  allocations : list allocation
}.

Definition lift {A} (r : result A) : M imports A := fun w => (r, w).

Definition log_request (r : udmabuf_create_arg) : M imports unit :=
  modify (fun w => {| udmabuf_requests := udmabuf_requests w ++ [r];
                      allocations := allocations w |}).

Definition log_allocation (a : allocation) : M imports unit :=
  modify (fun w => {| udmabuf_requests := udmabuf_requests w;
                      allocations := allocations w ++ [a] |}).

(** [renderer_alloc_heap_buffer]; [offset] and [size] are [size_t],
    [props] is [externalMemoryFeatures] and [type_bits] is
    [memoryRequirements.memoryTypeBits] of the buffer kind. On the path
    that does not fit the union the wrong member is read. *)
Definition renderer_alloc_heap_buffer (use_udmabuf : bool) (h : heap)
    (ans : import_answers) (offset size props type_bits : Z)
    : M imports unit :=
  lift (Renderer.renderer_vk (buffer_result ans) "failed to create buffer") ;;;
  src <- (if use_udmabuf then
            match heap_union h with
            | HeapBase _ => undefined
            | HeapUdmabuf _ =>
                log_request (udmabuf_create_request (heap_memfd h) offset size) ;;;
                if udmabuf_fd ans <? 0 then fatal "failed to create udmabuf"
                else
                  lift (Renderer.renderer_vk (props_result ans)
                          "invalid dmabuf") ;;;
                  ret (ImportFd (udmabuf_fd ans))
            end
          else
            match heap_union h with
            | HeapUdmabuf _ => undefined
            | HeapBase base =>
                lift (Renderer.renderer_vk (props_result ans)
                        "invalid memfd ptr") ;;;
                ret (ImportHostPointer (base + offset))
            end) ;;
  let mem_types := Z.land (u32 type_bits) (u32 (import_type_bits ans)) in
  if mem_types =? 0 then fatal "no usable memory type"
  else
    let mem_type := u32 (ffs mem_types - 1) in
    let a := {| alloc_source := src;
                alloc_dedicated :=
                  Renderer.has_bit props
                    VK_EXTERNAL_MEMORY_FEATURE_DEDICATED_ONLY_BIT;
                allocationSize := size;
                memoryTypeIndex := mem_type |} in
    lift (Renderer.renderer_vk (allocate_result ans)
            "failed to import memory") ;;;
    log_allocation a ;;;
    lift (Renderer.renderer_vk (bind_result ans) "failed to bind memory").

(** The [for] loop of [renderer_init_heap_buffers] over the outputs still
    to import; [answers] gives the answers for the import at an offset. *)
Fixpoint alloc_outputs (use_udmabuf : bool) (h : heap)
    (answers : Z -> import_answers) (l : Renderer.heap_layout)
    (type_bits : Z) (n : nat) (offset : Z) : M imports unit :=
  match n with
  | O => ret tt
  | S k =>
      renderer_alloc_heap_buffer use_udmabuf h (answers offset) offset
        (Renderer.output_size l) (Renderer.output_props l) type_bits ;;;
      alloc_outputs use_udmabuf h answers l type_bits k
        (u64 (offset + Renderer.output_size l))
  end.

(** [renderer_init_heap_buffers]. [ubo_type_bits] and [output_type_bits]
    are [memoryTypeBits] of [heap_layout.ubo_reqs] and
    [heap_layout.output_reqs]. *)
Definition renderer_init_heap_buffers (cfg : Renderer.renderer_config)
    (h : heap) (malloc_ok : bool) (answers : Z -> import_answers)
    (l : Renderer.heap_layout) (ubo_type_bits output_type_bits : Z)
    : M imports unit :=
  if negb malloc_ok then fatal "failed to allocate output array"
  else
    let offset := Renderer.base_skip l in
    renderer_alloc_heap_buffer (Renderer.use_udmabuf cfg) h (answers offset)
      offset (Renderer.ubo_size l) (Renderer.ubo_props l) ubo_type_bits ;;;
    let offset := u64 (offset + Renderer.ubo_size l) in
    alloc_outputs (Renderer.use_udmabuf cfg) h answers l output_type_bits
      (Z.to_nat (Renderer.output_count cfg)) offset.

(** [renderer_build_command_buffer] for output [i]: the buffer the image
    is copied to, when recording begins and ends well. *)
Definition renderer_build_command_buffer (begin_res end_res : Z) (i : Z)
    : result Z :=
  _ <~ Renderer.renderer_vk begin_res "failed to begin command buffer" ;;
  _ <~ Renderer.renderer_vk end_res "failed to end command buffer" ;;
  Done i.

(** The [for] loop of [renderer_init_vk_cmd] from index [i] on. *)
Fixpoint build_all (records : Z -> Z * Z) (n : nat) (i : Z)
    : result (list Z) :=
  match n with
  | O => Done []
  | S k =>
      c <~ renderer_build_command_buffer (fst (records i)) (snd (records i))
             i ;;
      cs <~ build_all records k (i + 1) ;;
      Done (c :: cs)
  end.

(** [renderer_init_vk_cmd]: [pool_res] and [alloc_res] are the results of
    [vkCreateCommandPool] and [vkAllocateCommandBuffers], [records i] those
    of beginning and ending command buffer [i]. Returns, for every element
    of [cmd.bufs], the output its copy targets. After a failed [malloc]
    the array written by [vkAllocateCommandBuffers] is a null pointer. *)
Definition renderer_init_vk_cmd (cfg : Renderer.renderer_config)
    (pool_res : Z) (malloc_ok : bool) (alloc_res : Z) (records : Z -> Z * Z)
    : result (list Z) :=
  let result := pool_res in
  _ <~ Renderer.renderer_vk result "failed to create command pool" ;;
  _ <~ (if negb malloc_ok then
          Renderer.renderer_vk result "failed to create command buffer array"
        else Done tt) ;;
  if negb malloc_ok then Undefined
  else
    let result := alloc_res in
    _ <~ Renderer.renderer_vk result "failed to allocate command buffer" ;;
    build_all records (Z.to_nat (Renderer.output_count cfg)) 0.

End RendererSetup.

(** ** The controller's start-up ([main.c]) *)

Module AppSetup.

(** What a descriptor refers to: an end of [pipes[p]], the heap's memfd, or
    anything else the process had open. *)
Inductive file : Type :=
| PipeRead (p : nat)
| PipeWrite (p : nat)
| HeapFile
| OtherFile.

(** An open descriptor with its close-on-exec flag; a process's descriptor
    table. *)
Record fd_entry : Type := {
  fd_num : Z;
  fd_file : file;
  fd_cloexec : bool
}.

Definition fdtable : Type := list fd_entry.

Fixpoint fd_lookup (t : fdtable) (fd : Z) : option file :=
  match t with
  | [] => None
  | e :: rest => if fd_num e =? fd then Some (fd_file e) else fd_lookup rest fd
  end.

Definition fd_open (fd : Z) (f : file) (cloexec : bool) (t : fdtable)
    : fdtable :=
  {| fd_num := fd; fd_file := f; fd_cloexec := cloexec |} :: t.

Definition fd_close (fd : Z) (t : fdtable) : fdtable :=
  filter (fun e => negb (fd_num e =? fd)) t.

(** What survives [execv]. *)
Definition fd_exec (t : fdtable) : fdtable :=
  filter (fun e => negb (fd_cloexec e)) t.

(** [app->heap]. *)
Record app_heap : Type := {
  memfd : Z;
  base : Z
}.

(** [app_init_heap]: [fd] is what [memfd_create] returns (with
    [MFD_CLOEXEC]), [truncate_res] and [seal_res] what [ftruncate] and
    [fcntl(F_ADD_SEALS)] return, [map] what [mmap] returns ([None] for
    [MAP_FAILED]). *)
Definition app_init_heap (fd truncate_res seal_res : Z) (map : option Z)
    (t : fdtable) : result (app_heap * fdtable) :=
  if fd <? 0 then Fatal "failed to create memfd"
  else
    let t := fd_open fd HeapFile true t in
    if truncate_res <? 0 then Fatal "failed to set memfd size"
    else if seal_res <? 0 then Fatal "failed to seal memfd"
    else
      match map with
      | None => Fatal "failed to map memfd"
      | Some addr => Done ({| memfd := fd; base := addr |}, t)
      end.

(** What the kernel answers to [app_init_renderer]: the two descriptors of
    each [pipe] ([None] when it fails), the return value of [fork], of
    [dup] (which fails anyway on a descriptor that is not open) and of
    [execv]. *)
Record spawn_answers : Type := {
  pipe0 : option (Z * Z);
  pipe1 : option (Z * Z);
  pid : Z;
  dup_fd : Z;
  exec_res : Z
}.

(** How [app_init_renderer] goes on: in the parent it returns with
    [app->renderer.in] and [app->renderer.out] set; in the child the
    program starts anew with an argument vector and the descriptors that
    survive [execv]. *)
Inductive spawned : Type :=
| InParent (renderer_in renderer_out : Z) (t : fdtable)
| InChild (argv : list (list ascii)) (t : fdtable).

(** [app_init_renderer]. *)
Definition app_init_renderer (c : App.app_config) (argv0 : list ascii)
    (h : app_heap) (ans : spawn_answers) (t : fdtable) : result spawned :=
  match pipe0 ans with
  | None => Fatal "failed to create pipes"
  | Some (r0, w0) =>
      let t := fd_open w0 (PipeWrite 0) false
                 (fd_open r0 (PipeRead 0) false t) in
      match pipe1 ans with
      | None => Fatal "failed to create pipes"
      | Some (r1, w1) =>
          let t := fd_open w1 (PipeWrite 1) false
                     (fd_open r1 (PipeRead 1) false t) in
          let renderer_in := r0 in
          let renderer_out := w1 in
          let child_in := r1 in
          let child_out := w0 in
          if pid ans <? 0 then Fatal "failed to fork the renderer"
          else if 0 <? pid ans then
            Done (InParent renderer_in renderer_out
              (fd_close child_out (fd_close child_in t)))
          else
            let t := fd_close renderer_out (fd_close renderer_in t) in
            match fd_lookup t (memfd h) with
            | None => Fatal "failed to dup memfd"
            | Some f =>
                let child_memfd := dup_fd ans in
                if child_memfd <? 0 then Fatal "failed to dup memfd"
                else
                  let t := fd_open child_memfd f false t in
                  child_argv <~ App.child_argv c argv0 child_in child_out
                                  child_memfd ;;
                  if exec_res ans <? 0 then
                    Fatal "failed to exec the renderer"
                  else Done (InChild child_argv (fd_exec t))
            end
      end
  end.



End AppSetup.

(** * Vocabulary of the properties *)

(** A driver that gives the same answer for every buffer. *)
Definition uniform_device (features required min_align : Z)
    : Renderer.vk_device :=
  {| Renderer.buffer_query := fun _ _ _ =>
       {| Renderer.externalMemoryFeatures := features;
          Renderer.create_result := VK_SUCCESS;
          Renderer.reqs_size := required |};
     Renderer.minImportedHostPointerAlignment := min_align |}.

(** A driver whose required sizes are the nominal size rounded up to a
    granularity [g], and one that requires exactly the nominal size. *)
Definition granular_device (features g min_align : Z) : Renderer.vk_device :=
  {| Renderer.buffer_query := fun size _ _ =>
       {| Renderer.externalMemoryFeatures := features;
          Renderer.create_result := VK_SUCCESS;
          Renderer.reqs_size := (size + g - 1) / g * g |};
     Renderer.minImportedHostPointerAlignment := min_align |}.

Definition exact_device (features min_align : Z) : Renderer.vk_device :=
  granular_device features 1 min_align.

(** The alignment both slots are computed against. *)
Definition layout_alignment (cfg : Renderer.renderer_config)
    (dev : Renderer.vk_device) (pagesize : Z) : Z :=
  if Renderer.use_udmabuf cfg then u64 pagesize
  else Renderer.minImportedHostPointerAlignment dev.

Definition demo_config (udmabuf : bool) : Renderer.renderer_config :=
  {| Renderer.width := 600; Renderer.height := 600;
     Renderer.output_count := 64; Renderer.use_udmabuf := udmabuf |}.

Definition is_cache_op (e : App.event) : bool :=
  match e with
  | App.EvMfence | App.EvClflush _ => true
  | _ => false
  end.

(** The cache-maintenance calls of a trace, in order. *)
Definition cache_ops (t : list App.event) : list App.event :=
  filter is_cache_op t.

(** The world after the events [es]. *)
Definition log_all (es : list App.event) (w : App.world) : App.world :=
  {| App.ctrl := App.ctrl w; App.xcb_pending := App.xcb_pending w;
     App.malloc_ok := App.malloc_ok w; App.trace := App.trace w ++ es |}.

(** The request and its reply at the end of [app_render_frame]. *)
Definition exchange (output : Z) : M App.world unit :=
  App.app_send output ;;;
  v <- App.app_recv ;;
  if negb (v =? u32 output) then fatal "unexpected renderer output"
  else ret tt.

(** The bytes of the handshake for a layout. *)
Definition handshake_bytes (l : Renderer.heap_layout) : list byte :=
  encode_u32 (u32 (Renderer.base_skip l))
  ++ encode_u32 (u32 (Renderer.ubo_size l))
  ++ encode_u32 (u32 (Renderer.output_size l)).

Definition renderer_sent (bs : list byte) (w : Renderer.world)
    : Renderer.world :=
  {| Renderer.ctrl := {| rx := rx (Renderer.ctrl w);
                         tx := tx (Renderer.ctrl w) ++ bs;
                         tx_open := true |};
     Renderer.vk_answers := Renderer.vk_answers w;
     Renderer.submitted := Renderer.submitted w |}.

(** The index of the [i]-th frame in the ping-pong pattern over [n]
    outputs: [0, 1, ..., n-1, n-1, n-2, ..., 1], repeated. *)
Definition pingpong (n i : Z) : Z :=
  let k := i mod (2 * n - 1) in
  if k <? n then k else 2 * n - 1 - k.

(** The locals of [app_mainloop] at the start of turn [i]. *)
Definition loop_at (n : Z) (i : nat) : App.loop_state :=
  Nat.iter i (App.loop_next n) App.loop_init.

(** The values of the requests written in a trace, in order. *)
Definition requests (t : list App.event) : list Z :=
  flat_map (fun e => match e with App.EvSend v => [v] | _ => [] end) t.

Definition is_chan_event (e : App.event) : bool :=
  match e with
  | App.EvSend _ | App.EvRecv _ => true
  | _ => false
  end.

(** Watching the channel pair: [Some b] while no request was written with
    another one unanswered, [b] telling whether one is unanswered now;
    [None] after a second request in flight. *)
Definition flight_step (st : option bool) (e : App.event) : option bool :=
  match st, e with
  | None, _ => None
  | Some true, App.EvSend _ => None
  | Some false, App.EvSend _ => Some true
  | Some _, App.EvRecv _ => Some false
  | Some b, _ => Some b
  end.

Definition flight_from (st : option bool) (t : list App.event) : option bool :=
  fold_left flight_step t st.

Definition flight (t : list App.event) : option bool :=
  flight_from (Some false) t.

(** Where the loop is in its period of [2n - 1] turns. *)
Definition loop_phase (n i : Z) (s : App.loop_state) : Prop :=
  let k := i mod (2 * n - 1) in
  (k = 0 /\ App.output s = 0 /\
   (App.output_inc s = 1 \/ App.output_inc s = -1))
  \/ (1 <= k <= n - 1 /\ App.output s = k /\ App.output_inc s = 1)
  \/ (n <= k /\ App.output s = 2 * n - 1 - k /\ App.output_inc s = -1).

(** Where [%d] of [scanf] stops: at the end or in front of a character that
    is no digit. *)
Definition stops (s : list ascii) : Prop :=
  match s with
  | [] => True
  | c :: _ => App.isdigit c = false
  end.

(** The demo's objects, for worked instances. *)

Definition demo_heap : Renderer.renderer_heap :=
  {| Renderer.heap_size := 8 * 1024 * 1024 * 1024;
     Renderer.heap_base := 139637976727552 |}.

(** The layout negotiated for the demo on the host-pointer path when the
    driver requires the nominal sizes and pointers aligned to 4096. *)
Definition demo_layout : Renderer.heap_layout :=
  {| Renderer.base_skip := 0;
     Renderer.ubo_size := 4096;
     Renderer.output_size := 1441792;
     Renderer.handle_type :=
       VK_EXTERNAL_MEMORY_HANDLE_TYPE_HOST_ALLOCATION_BIT_EXT;
     Renderer.ubo_used_size := 16;
     Renderer.ubo_props := VK_EXTERNAL_MEMORY_FEATURE_IMPORTABLE_BIT;
     Renderer.output_used_size := 1440000;
     Renderer.output_props := VK_EXTERNAL_MEMORY_FEATURE_IMPORTABLE_BIT |}.

(** A driver that requires 4 GiB and 16 bytes for the uniform buffer and
    the nominal size for every other buffer. *)
Definition greedy_device : Renderer.vk_device :=
  {| Renderer.buffer_query := fun size _ _ =>
       {| Renderer.externalMemoryFeatures :=
            VK_EXTERNAL_MEMORY_FEATURE_IMPORTABLE_BIT;
          Renderer.create_result := VK_SUCCESS;
          Renderer.reqs_size := if size =? 16 then 2 ^ 32 + 16 else size |};
     Renderer.minImportedHostPointerAlignment := 4096 |}.

Definition greedy_layout : Renderer.heap_layout :=
  {| Renderer.base_skip := 0;
     Renderer.ubo_size := 2 ^ 32 + 4096;
     Renderer.output_size := 1441792;
     Renderer.handle_type :=
       VK_EXTERNAL_MEMORY_HANDLE_TYPE_HOST_ALLOCATION_BIT_EXT;
     Renderer.ubo_used_size := 16;
     Renderer.ubo_props := VK_EXTERNAL_MEMORY_FEATURE_IMPORTABLE_BIT;
     Renderer.output_used_size := 1440000;
     Renderer.output_props := VK_EXTERNAL_MEMORY_FEATURE_IMPORTABLE_BIT |}.

(** A driver that requires one byte less than 4 GiB for the uniform buffer
    and the nominal size for every other buffer; the layout negotiated with
    it on the host-pointer path: the uniform slot is 4 GiB. *)
Definition brimful_device : Renderer.vk_device :=
  {| Renderer.buffer_query := fun size _ _ =>
       {| Renderer.externalMemoryFeatures :=
            VK_EXTERNAL_MEMORY_FEATURE_IMPORTABLE_BIT;
          Renderer.create_result := VK_SUCCESS;
          Renderer.reqs_size := if size =? 16 then 2 ^ 32 - 1 else size |};
     Renderer.minImportedHostPointerAlignment := 4096 |}.

Definition brimful_layout : Renderer.heap_layout :=
  {| Renderer.base_skip := 0;
     Renderer.ubo_size := 2 ^ 32;
     Renderer.output_size := 1441792;
     Renderer.handle_type :=
       VK_EXTERNAL_MEMORY_HANDLE_TYPE_HOST_ALLOCATION_BIT_EXT;
     Renderer.ubo_used_size := 16;
     Renderer.ubo_props := VK_EXTERNAL_MEMORY_FEATURE_IMPORTABLE_BIT;
     Renderer.output_used_size := 1440000;
     Renderer.output_props := VK_EXTERNAL_MEMORY_FEATURE_IMPORTABLE_BIT |}.

(** A renderer and a controller whose peer is there, with [input] waiting
    in the pipe they read. *)
Definition renderer_world_with (input : list byte) : Renderer.world :=
  {| Renderer.ctrl := {| rx := input; tx := []; tx_open := true |};
     Renderer.vk_answers := [];
     Renderer.submitted := [] |}.

Definition app_world_with (input : list byte) : App.world :=
  {| App.ctrl := {| rx := input; tx := []; tx_open := true |};
     App.xcb_pending := [];
     App.malloc_ok := true;
     App.trace := [] |}.

(** The controller's [struct app] of the demo before and after
    [app_init_memories] on [demo_layout]. *)
Definition demo_app0 (coherent : bool) : App.app :=
  {| App.config := App.set_coherent coherent App.default_config;
     App.heap_base := 139637976727552;
     App.img_size := 1440000;
     App.mems_ubo := 0;
     App.mems_outputs := [] |}.

Definition demo_app (coherent : bool) : App.app :=
  {| App.config := App.set_coherent coherent App.default_config;
     App.heap_base := 139637976727552;
     App.img_size := 1440000;
     App.mems_ubo := 139637976727552;
     App.mems_outputs :=
       fst (App.place_outputs 64 (139637976727552 + 4096) 1441792) |}.

Definition red (output : Z) : App.rgba :=
  {| App.rgba_channel := 0; App.rgba_num := output; App.rgba_den := 63 |}.

(** ** Vocabulary of the further properties *)

(** Version [major.minor] is at least 1.1. *)
Definition at_least_1_1 (version : Z) : Prop :=
  2 <= RendererSetup.VK_VERSION_MAJOR version \/
  (RendererSetup.VK_VERSION_MAJOR version = 1 /\
   1 <= RendererSetup.VK_VERSION_MINOR version).

(** The extensions an import path needs. *)
Definition path_extensions (use_udmabuf : bool) : list string :=
  if use_udmabuf then
    ["VK_KHR_external_memory_fd"%string;
     "VK_EXT_external_memory_dma_buf"%string]
  else ["VK_EXT_external_memory_host"%string].

(** Memory type [k] suits both the buffer and the import. *)
Definition usable_type (type_bits import_bits k : Z) : Prop :=
  Z.testbit type_bits k = true /\ Z.testbit import_bits k = true.

(** The regions of the heap a layout with [n] outputs describes, as offset
    and size: the uniform region, then the outputs. *)
Definition output_offsets (start size : Z) (n : nat) : list Z :=
  map (fun i => start + Z.of_nat i * size) (seq 0 n).

Definition layout_regions (l : Renderer.heap_layout) (n : nat)
    : list (Z * Z) :=
  (Renderer.base_skip l, Renderer.ubo_size l)
  :: map (fun o => (o, Renderer.output_size l))
       (output_offsets (Renderer.base_skip l + Renderer.ubo_size l)
          (Renderer.output_size l) n).

(** A host-pointer world and a udmabuf world for worked instances. *)
Definition no_imports : RendererSetup.imports :=
  {| RendererSetup.udmabuf_requests := [];
     RendererSetup.allocations := [] |}.

Definition import_ok (import_bits : Z) : RendererSetup.import_answers :=
  {| RendererSetup.buffer_result := VK_SUCCESS;
     RendererSetup.udmabuf_fd := 9;
     RendererSetup.props_result := VK_SUCCESS;
     RendererSetup.import_type_bits := import_bits;
     RendererSetup.allocate_result := VK_SUCCESS;
     RendererSetup.bind_result := VK_SUCCESS |}.

Definition mapped_heap : RendererSetup.heap :=
  {| RendererSetup.heap_memfd := 5;
     RendererSetup.heap_bytes := 8 * 1024 * 1024 * 1024;
     RendererSetup.heap_union := RendererSetup.HeapBase 139637976727552 |}.

Definition udmabuf_heap : RendererSetup.heap :=
  {| RendererSetup.heap_memfd := 5;
     RendererSetup.heap_bytes := 8 * 1024 * 1024 * 1024;
     RendererSetup.heap_union := RendererSetup.HeapUdmabuf 6 |}.

(** Regions that follow one another from [start] on without gap or
    overlap; where they end. *)
Fixpoint tiles (start : Z) (regions : list (Z * Z)) : Prop :=
  match regions with
  | [] => True
  | (o, s) :: rest => o = start /\ 0 <= s /\ tiles (start + s) rest
  end.

Definition regions_end (start : Z) (regions : list (Z * Z)) : Z :=
  fold_left (fun e r => e + snd r) regions start.

Definition two_outputs (udmabuf : bool) : Renderer.renderer_config :=
  {| Renderer.width := 600; Renderer.height := 600;
     Renderer.output_count := 2; Renderer.use_udmabuf := udmabuf |}.

(** [renderer->heap] as [renderer_init_heap_layout] reads it; on the
    udmabuf path the union holds the descriptor. *)
Definition layout_heap (h : RendererSetup.heap) : Renderer.renderer_heap :=
  {| Renderer.heap_size := RendererSetup.heap_bytes h;
     Renderer.heap_base :=
       match RendererSetup.heap_union h with
       | RendererSetup.HeapBase base => base
       | RendererSetup.HeapUdmabuf fd => u32 fd
       end |}.

(** The bytes of the memfd a [UDMABUF_CREATE] request asks for. *)
Definition request_span (r : RendererSetup.udmabuf_create_arg) : Z * Z :=
  (RendererSetup.uc_offset r, RendererSetup.uc_size r).

(** The layout of the demo negotiated on the udmabuf path with pages of
    4096 bytes. *)
Definition demo_layout_udmabuf : Renderer.heap_layout :=
  {| Renderer.base_skip := 0;
     Renderer.ubo_size := 4096;
     Renderer.output_size := 1441792;
     Renderer.handle_type := VK_EXTERNAL_MEMORY_HANDLE_TYPE_DMA_BUF_BIT_EXT;
     Renderer.ubo_used_size := 16;
     Renderer.ubo_props := VK_EXTERNAL_MEMORY_FEATURE_IMPORTABLE_BIT;
     Renderer.output_used_size := 1440000;
     Renderer.output_props := VK_EXTERNAL_MEMORY_FEATURE_IMPORTABLE_BIT |}.

(** A driver that requires [2^58 + 1] bytes for an output buffer and 16 for
    the uniform buffer; the layout negotiated with it for the demo on the
    udmabuf path: the 64 output slots add up to [2^64 + 262144]. *)
Definition vast_device : Renderer.vk_device :=
  {| Renderer.buffer_query := fun size _ _ =>
       {| Renderer.externalMemoryFeatures :=
            VK_EXTERNAL_MEMORY_FEATURE_IMPORTABLE_BIT;
          Renderer.create_result := VK_SUCCESS;
          Renderer.reqs_size := if size =? 16 then 16 else 2 ^ 58 + 1 |};
     Renderer.minImportedHostPointerAlignment := 4096 |}.

Definition vast_layout : Renderer.heap_layout :=
  {| Renderer.base_skip := 0;
     Renderer.ubo_size := 4096;
     Renderer.output_size := 2 ^ 58 + 4096;
     Renderer.handle_type := VK_EXTERNAL_MEMORY_HANDLE_TYPE_DMA_BUF_BIT_EXT;
     Renderer.ubo_used_size := 16;
     Renderer.ubo_props := VK_EXTERNAL_MEMORY_FEATURE_IMPORTABLE_BIT;
     Renderer.output_used_size := 1440000;
     Renderer.output_props := VK_EXTERNAL_MEMORY_FEATURE_IMPORTABLE_BIT |}.

(** An import is aligned: its size and, for a host pointer, its address
    are multiples of [align]. *)
Definition aligned_allocation (align : Z) (a : RendererSetup.allocation)
    : Prop :=
  RendererSetup.allocationSize a mod align = 0 /\
  match RendererSetup.alloc_source a with
  | RendererSetup.ImportHostPointer p => p mod align = 0
  | RendererSetup.ImportFd _ => True
  end.

Definition aligned_request (align : Z) (r : RendererSetup.udmabuf_create_arg)
    : Prop :=
  RendererSetup.uc_offset r mod align = 0 /\
  RendererSetup.uc_size r mod align = 0.

(** The controller's "get the heap layout from the renderer" with
    [app_init_memories], as in [main]. *)
Definition app_take_layout (a : App.app) : M App.world App.app :=
  hs <- App.app_handshake ;;
  let '(heap_skip, ubo_size, output_size) := hs in
  App.app_init_memories a heap_skip ubo_size output_size.

(** The 64-byte cache line an address lies in, by its first address;
    [clflush] works on the whole line of its operand. *)
Definition line_of (addr : Z) : Z := addr - addr mod 64.



(** The four mode words of the command line. *)
Definition is_mode_word (arg : list ascii) : bool :=
  App.str_eqb arg (App.cstr "udmabuf") || App.str_eqb arg (App.cstr "memfd")
  || App.str_eqb arg (App.cstr "coherent")
  || App.str_eqb arg (App.cstr "incoherent").

Definition is_renderer_token (arg : list ascii) : bool :=
  App.str_eqb (firstn 9 arg) (App.cstr "renderer-").

(** What a switch is after the arguments [args], read in order: the last
    of the words [on] and [off] decides. *)
Definition last_choice (on off : list ascii) (default : bool)
    (args : list (list ascii)) : bool :=
  fold_left (fun b a => if App.str_eqb a on then true
                        else if App.str_eqb a off then false else b)
    args default.

(** Every coming queue operation succeeds. *)
Definition queue_works (w : Renderer.world) : Prop :=
  Forall (fun a => fst a = VK_SUCCESS /\ snd a = VK_SUCCESS)
    (Renderer.vk_answers w).

(** The bytes of a sequence of 32-bit values on a pipe. *)
Definition wire (vs : list Z) : list byte :=
  List.concat (map encode_u32 vs).

(** The indices [i], [i+1], ... of [n] consecutive outputs. *)
Fixpoint indices_from (n : nat) (i : Z) : list Z :=
  match n with
  | O => []
  | S k => i :: indices_from k (i + 1)
  end.

(** A process started by a shell: standard input, output and error. *)
Definition std_fds : AppSetup.fdtable :=
  [ {| AppSetup.fd_num := 0; AppSetup.fd_file := AppSetup.OtherFile;
       AppSetup.fd_cloexec := false |};
    {| AppSetup.fd_num := 1; AppSetup.fd_file := AppSetup.OtherFile;
       AppSetup.fd_cloexec := false |};
    {| AppSetup.fd_num := 2; AppSetup.fd_file := AppSetup.OtherFile;
       AppSetup.fd_cloexec := false |} ].

(** The lowest free descriptors for the pipes; in the child [dup] returns
    4, which the child has just closed. *)
Definition demo_spawn (pid : Z) : AppSetup.spawn_answers :=
  {| AppSetup.pipe0 := Some (4, 5);
     AppSetup.pipe1 := Some (6, 7);
     AppSetup.pid := pid;
     AppSetup.dup_fd := 4;
     AppSetup.exec_res := 0 |}.

Definition demo_app_heap : AppSetup.app_heap :=
  {| AppSetup.memfd := 3; AppSetup.base := 4096 |}.


(** The first [n] requests of the controller's main loop over [count]
    outputs. *)
Definition frame_requests (count : Z) (n : nat) : list Z :=
  map (fun i => pingpong count (Z.of_nat i)) (seq 0 n).

(** The member of the heap's union that is live is the one the import path
    reads. *)
Definition union_fits (use_udmabuf : bool) (h : RendererSetup.heap) : Prop :=
  match RendererSetup.heap_union h with
  | RendererSetup.HeapUdmabuf _ => use_udmabuf = true
  | RendererSetup.HeapBase _ => use_udmabuf = false
  end.

(** * Properties *)

(** ** Machine integers and the wire format *)

Lemma u32_range v : 0 <= u32 v < 2 ^ 32.
Proof. unfold u32. apply Z.mod_pos_bound. lia. Qed.

Lemma u32_small v : 0 <= v < 2 ^ 32 -> u32 v = v.
Proof. intros H. unfold u32. apply Z.mod_small. exact H. Qed.

Lemma u64_small v : 0 <= v < 2 ^ 64 -> u64 v = v.
Proof. intros H. unfold u64. apply Z.mod_small. exact H. Qed.

Lemma u32_idem v : u32 (u32 v) = u32 v.
Proof. apply u32_small, u32_range. Qed.

Lemma u32_s32 v : u32 (s32 v) = u32 v.
Proof.
  unfold s32, u32. cbv zeta.
  destruct (v mod 2 ^ 32 <? 2 ^ 31).
  - apply Z.mod_mod. lia.
  - replace (v mod 2 ^ 32 - 2 ^ 32) with (v mod 2 ^ 32 + (-1) * 2 ^ 32) by lia.
    rewrite Z.mod_add by lia. apply Z.mod_mod. lia.
Qed.

Lemma decode_encode_u32 v : decode_u32 (encode_u32 v) = u32 v.
Proof.
  unfold decode_u32, encode_u32, u32.
  change (2 ^ 32) with 4294967296.
  Z.to_euclidean_division_equations. lia.
Qed.

Lemma encode_u32_length v : List.length (encode_u32 v) = 4%nat.
Proof. reflexivity. Qed.

Lemma chan_read4_encode v rest c :
  rx c = encode_u32 v ++ rest ->
  chan_read4 c =
  (Some (encode_u32 v), {| rx := rest; tx := tx c; tx_open := tx_open c |}).
Proof. intros Hrx. unfold chan_read4. rewrite Hrx. reflexivity. Qed.

(** ** Heap layout negotiation *)

Section BufferProps.

Import Renderer.

Variables (dev : vk_device) (htype size usage mem_align : Z).

Let ans := buffer_query dev size usage htype.
Let required := reqs_size ans.

(** Every way [renderer_get_heap_buffer_props] returns. *)
Lemma get_heap_buffer_props_done props alloc :
  renderer_get_heap_buffer_props dev htype size usage mem_align
    = Done (props, alloc) ->
  mem_align <> 0 /\
  props = externalMemoryFeatures ans /\
  has_bit props VK_EXTERNAL_MEMORY_FEATURE_IMPORTABLE_BIT = true /\
  create_result ans = VK_SUCCESS /\
  ((required mod mem_align <> 0 /\
    has_bit props VK_EXTERNAL_MEMORY_FEATURE_DEDICATED_ONLY_BIT = false /\
    alloc = u64 (required - required mod mem_align + mem_align))
   \/ (required mod mem_align = 0 /\ alloc = size)).
Proof.
  unfold renderer_get_heap_buffer_props, renderer_vk, required, ans.
  destruct (has_bit _ VK_EXTERNAL_MEMORY_FEATURE_IMPORTABLE_BIT) eqn:Himp;
    cbn [negb]; [| discriminate].
  destruct (Z.eqb_spec (create_result (buffer_query dev size usage htype))
              VK_SUCCESS) as [Hc | Hc]; cbn [rbind]; [| discriminate].
  destruct (Z.eqb_spec mem_align 0) as [Hz | Hz]; [discriminate |].
  destruct (Z.eqb_spec (reqs_size (buffer_query dev size usage htype)
                          mod mem_align) 0) as [Hr | Hr]; cbn [negb].
  - intros H. injection H as <- <-. repeat split; auto.
  - destruct (has_bit _ VK_EXTERNAL_MEMORY_FEATURE_DEDICATED_ONLY_BIT) eqn:Hd;
      [discriminate |].
    intros H. injection H as <- <-. repeat split; auto.
Qed.


End BufferProps.

Lemma aligned_size_round_up r a :
  r mod a <> 0 -> Renderer.aligned_size r a = r - r mod a + a.
Proof.
  intros H. unfold Renderer.aligned_size.
  destruct (Z.eqb_spec (r mod a) 0); [contradiction |]. cbn [negb]. lia.
Qed.

Lemma aligned_size_exact r a :
  r mod a = 0 -> Renderer.aligned_size r a = r.
Proof.
  intros H. unfold Renderer.aligned_size. rewrite H. reflexivity.
Qed.

(** C1, as the specification states it, fails: for a 16-byte uniform
    buffer for which the driver requires 72 bytes, with alignment 64 and no
    dedicated-only constraint, the slot is 128 bytes, the required size
    rounded up, while the nominal size rounded up is 64. *)
Lemma slot_size_not_aligned_nominal :
  Renderer.renderer_get_heap_buffer_props
    (uniform_device VK_EXTERNAL_MEMORY_FEATURE_IMPORTABLE_BIT 72 64)
    VK_EXTERNAL_MEMORY_HANDLE_TYPE_HOST_ALLOCATION_BIT_EXT
    16 VK_BUFFER_USAGE_UNIFORM_BUFFER_BIT 64
  = Done (VK_EXTERNAL_MEMORY_FEATURE_IMPORTABLE_BIT, 128)
  /\ Renderer.has_bit VK_EXTERNAL_MEMORY_FEATURE_IMPORTABLE_BIT
       VK_EXTERNAL_MEMORY_FEATURE_DEDICATED_ONLY_BIT = false
  /\ Renderer.aligned_size 16 64 = 64
  /\ 128 <> Renderer.aligned_size 16 64.
Proof. repeat split. discriminate. Qed.

(** C1 (amended): whenever [renderer_get_heap_buffer_props] returns a slot
    size, and the size the driver requires for the buffer is not a multiple
    of the alignment, the slot size is that required size rounded up to the
    next multiple of the alignment, [aligned_size required align] in
    [VkDeviceSize] arithmetic; this only happens without the dedicated-only
    constraint. When the driver requires exactly the nominal size, the slot
    size is [aligned_size nominal align]. *)
Theorem slot_size_aligned_required
    (dev : Renderer.vk_device) (htype size usage mem_align props alloc : Z) :
  0 <= size < 2 ^ 64 ->
  Renderer.renderer_get_heap_buffer_props dev htype size usage mem_align
    = Done (props, alloc) ->
  let required :=
    Renderer.reqs_size (Renderer.buffer_query dev size usage htype) in
  (required mod mem_align <> 0 ->
     alloc = u64 (Renderer.aligned_size required mem_align) /\
     Renderer.has_bit props VK_EXTERNAL_MEMORY_FEATURE_DEDICATED_ONLY_BIT
       = false) /\
  (required = size ->
     alloc = u64 (Renderer.aligned_size size mem_align)).
Proof.
  intros Hsize H required.
  apply get_heap_buffer_props_done in H.
  destruct H as (Hz & _ & _ & _ & [(Hr & Hd & Ha) | (Hr & Ha)]);
    fold required in Hr, Ha.
  - split.
    + intros _. rewrite aligned_size_round_up by exact Hr. auto.
    + intros E. rewrite <- E, aligned_size_round_up by exact Hr. exact Ha.
  - split.
    + intros Hn. contradiction.
    + intros E. rewrite <- E, aligned_size_exact by exact Hr.
      rewrite E, u64_small by exact Hsize. exact Ha.
Qed.

Lemma slot_size_aligned_required_witness :
  let dev := uniform_device VK_EXTERNAL_MEMORY_FEATURE_IMPORTABLE_BIT 1440000
               4096 in
  (1440000 mod 4096 <> 0 ->
     1441792 = u64 (Renderer.aligned_size 1440000 4096) /\
     Renderer.has_bit VK_EXTERNAL_MEMORY_FEATURE_IMPORTABLE_BIT
       VK_EXTERNAL_MEMORY_FEATURE_DEDICATED_ONLY_BIT = false) /\
  (1440000 = 1440000 ->
     1441792 = u64 (Renderer.aligned_size 1440000 4096)).
Proof.
  intros dev.
  apply (slot_size_aligned_required dev
           VK_EXTERNAL_MEMORY_HANDLE_TYPE_HOST_ALLOCATION_BIT_EXT
           1440000 VK_BUFFER_USAGE_TRANSFER_DST_BIT 4096
           VK_EXTERNAL_MEMORY_FEATURE_IMPORTABLE_BIT 1441792).
  - lia.
  - reflexivity.
Defined.




Section Layout.

Import Renderer.

Variables (cfg : renderer_config) (heap : renderer_heap) (dev : vk_device)
          (pagesize : Z) (l : heap_layout).

Hypothesis Hdone : renderer_init_heap_layout cfg heap dev pagesize = Done l.

Local Abbreviation align := (layout_alignment cfg dev pagesize).

Lemma init_heap_layout_done :
  exists uprops oprops out_used,
    align <> 0 /\
    base_skip l =
      (if use_udmabuf cfg then 0
       else if negb (heap_base heap mod align =? 0)
            then align - heap_base heap mod align
            else 0) /\
    handle_type l =
      (if use_udmabuf cfg
       then VK_EXTERNAL_MEMORY_HANDLE_TYPE_DMA_BUF_BIT_EXT
       else VK_EXTERNAL_MEMORY_HANDLE_TYPE_HOST_ALLOCATION_BIT_EXT) /\
    image_bytes (width cfg) (height cfg) = Done out_used /\
    renderer_get_heap_buffer_props dev (handle_type l) 16
      VK_BUFFER_USAGE_UNIFORM_BUFFER_BIT align
      = Done (uprops, ubo_size l) /\
    renderer_get_heap_buffer_props dev (handle_type l) out_used
      VK_BUFFER_USAGE_TRANSFER_DST_BIT align
      = Done (oprops, output_size l) /\
    u64 (ubo_size l + u64 (output_size l * u64 (output_count cfg)))
      <= heap_size heap.
Proof.
  revert Hdone. unfold renderer_init_heap_layout, layout_alignment.
  destruct (use_udmabuf cfg).
  - cbn [rbind].
    destruct (renderer_get_heap_buffer_props dev _ 16 _ (u64 pagesize))
      as [[up us] | | |] eqn:Hu; cbn [rbind]; try discriminate.
    destruct (image_bytes (width cfg) (height cfg)) as [ou | | |] eqn:Hi;
      cbn [rbind]; try discriminate.
    destruct (renderer_get_heap_buffer_props dev _ ou _ (u64 pagesize))
      as [[op os] | | |] eqn:Ho; cbn [rbind]; try discriminate.
    cbn [fst snd].
    destruct (Z.ltb_spec (heap_size heap)
                (u64 (us + u64 (os * u64 (output_count cfg)))));
      [discriminate |].
    intros Hl. injection Hl as <-. cbn.
    exists up, op, ou. repeat split; auto.
    apply get_heap_buffer_props_done in Hu. tauto.
  - destruct (Z.eqb_spec (minImportedHostPointerAlignment dev) 0) as [Hz | Hz];
      cbn [rbind]; [discriminate |].
    destruct (renderer_get_heap_buffer_props dev _ 16 _ _)
      as [[up us] | | |] eqn:Hu; cbn [rbind]; try discriminate.
    destruct (image_bytes (width cfg) (height cfg)) as [ou | | |] eqn:Hi;
      cbn [rbind]; try discriminate.
    destruct (renderer_get_heap_buffer_props dev _ ou _ _)
      as [[op os] | | |] eqn:Ho; cbn [rbind]; try discriminate.
    cbn [fst snd].
    destruct (Z.ltb_spec (heap_size heap)
                (u64 (us + u64 (os * u64 (output_count cfg)))));
      [discriminate |].
    intros Hl. injection Hl as <-. cbn.
    exists up, op, ou. repeat split; auto.
Qed.

(** What negotiation guarantees about [base_skip]: it is zero on the
    udmabuf path, [(align - base mod align) mod align] on the host-pointer
    path, and below the alignment. *)
Lemma base_skip_below_alignment :
  0 < align ->
  base_skip l =
    (if use_udmabuf cfg then 0
     else (align - heap_base heap mod align)
            mod align) /\
  0 <= base_skip l < align.
Proof.
  intros Hpos.
  destruct init_heap_layout_done as (_ & _ & _ & _ & Hb & _).
  rewrite Hb. destruct (use_udmabuf cfg); [lia |].
  pose proof (Z.mod_pos_bound (heap_base heap) align Hpos) as Hm.
  destruct (Z.eqb_spec (heap_base heap mod align) 0) as [E | E];
    cbn [negb].
  - rewrite E, Z.sub_0_r, Z.mod_same by lia. lia.
  - rewrite (Z.mod_small (align - _)) by lia. lia.
Qed.

(** The check of [renderer_init_heap_layout] bounds the slots, and only
    the slots: [base_skip] is not part of the sum. *)
Lemma accepted_layout_slots_fit :
  u64 (ubo_size l + u64 (output_size l * u64 (output_count cfg)))
    <= heap_size heap.
Proof.
  destruct init_heap_layout_done as (_ & _ & _ & _ & _ & _ & _ & _ & _ & H).
  exact H.
Qed.

End Layout.

Lemma u64_range v : 0 <= u64 v < 2 ^ 64.
Proof. unfold u64. apply Z.mod_pos_bound. lia. Qed.

(** Both slot sizes are [VkDeviceSize] values. *)
Lemma layout_sizes_64bit cfg heap dev pagesize l :
  Renderer.renderer_init_heap_layout cfg heap dev pagesize = Done l ->
  0 <= Renderer.ubo_size l < 2 ^ 64 /\
  0 <= Renderer.output_size l < 2 ^ 64.
Proof.
  intros Hl.
  destruct (init_heap_layout_done cfg heap dev pagesize l Hl)
    as (up & op & ou & _ & _ & _ & Hi & Hu & Ho & _).
  apply get_heap_buffer_props_done in Hu, Ho.
  destruct Hu as (_ & _ & _ & _ & [(_ & _ & Hu) | (_ & Hu)]);
  destruct Ho as (_ & _ & _ & _ & [(_ & _ & Ho) | (_ & Ho)]);
    rewrite Hu, Ho; clear Hu Ho.
  all: unfold Renderer.image_bytes in Hi.
  all: destruct (in_int _ && in_int _); [| discriminate].
  all: injection Hi as <-.
  all: split; try apply u64_range; lia.
Qed.

(** Without a skip and without wrap-around the renderer's check is the
    invariant of the layout: this is the udmabuf path, and the host-pointer
    path when the mapping is aligned. *)
Lemma accepted_layout_fits_without_skip cfg heap dev pagesize l :
  Renderer.renderer_init_heap_layout cfg heap dev pagesize = Done l ->
  Renderer.base_skip l = 0 ->
  0 <= Renderer.output_count cfg <= INT_MAX ->
  Renderer.ubo_size l
    + Renderer.output_size l * Renderer.output_count cfg < 2 ^ 64 ->
  Renderer.base_skip l + Renderer.ubo_size l
    + Renderer.output_count cfg * Renderer.output_size l
    <= Renderer.heap_size heap.
Proof.
  intros Hl Hs Hc Hfit. unfold INT_MAX in Hc.
  pose proof (accepted_layout_slots_fit cfg heap dev pagesize l Hl) as H.
  destruct (layout_sizes_64bit cfg heap dev pagesize l Hl) as [Hu Ho].
  rewrite (u64_small (Renderer.output_count cfg)) in H by lia.
  rewrite (u64_small (_ * _)) in H by nia.
  rewrite u64_small in H by nia.
  lia.
Qed.

(** What does hold of every slot size: it is a multiple of the alignment
    or the nominal size; and it is a multiple of the alignment whenever the
    driver requires exactly the nominal size. *)
Lemma slot_multiple_or_nominal
    (dev : Renderer.vk_device) (htype size usage mem_align props alloc : Z) :
  let required :=
    Renderer.reqs_size (Renderer.buffer_query dev size usage htype) in
  Renderer.renderer_get_heap_buffer_props dev htype size usage mem_align
    = Done (props, alloc) ->
  0 <= required - required mod mem_align + mem_align < 2 ^ 64 ->
  (alloc mod mem_align = 0 \/ alloc = size) /\
  (required = size -> alloc mod mem_align = 0).
Proof.
  intros required H Hfit. apply get_heap_buffer_props_done in H.
  destruct H as (Hz & _ & _ & _ & [(Hr & _ & Ha) | (Hr & Ha)]);
    fold required in Hr, Ha.
  - rewrite u64_small in Ha by exact Hfit.
    assert (Hm : alloc mod mem_align = 0).
    { rewrite Ha.
      rewrite (Z.div_mod required mem_align Hz) at 1.
      replace (mem_align * (required / mem_align) + required mod mem_align
               - required mod mem_align + mem_align)
        with ((required / mem_align + 1) * mem_align) by lia.
      apply Z.mod_mul. exact Hz. }
    auto.
  - split; [auto |]. intros E. rewrite Ha, <- E. exact Hr.
Qed.

Lemma place_outputs_end n ptr sz :
  snd (App.place_outputs n ptr sz) = ptr + Z.of_nat n * sz.
Proof.
  revert ptr. induction n as [| n IH]; intros ptr.
  - cbn. lia.
  - cbn [App.place_outputs]. specialize (IH (ptr + sz)).
    destruct (App.place_outputs n (ptr + sz) sz) as [ls p].
    cbn [snd] in *. lia.
Qed.

Lemma place_outputs_length n ptr sz :
  List.length (fst (App.place_outputs n ptr sz)) = n.
Proof.
  revert ptr. induction n as [| n IH]; intros ptr.
  - reflexivity.
  - cbn [App.place_outputs]. specialize (IH (ptr + sz)).
    destruct (App.place_outputs n (ptr + sz) sz) as [ls p].
    cbn [fst List.length] in *. lia.
Qed.

(** The controller's own check in [app_init_memories] does count the skip:
    a layout it accepts lies inside its heap. *)
Lemma app_init_memories_fits a heap_skip ubo_size output_size w a' w' :
  App.app_init_memories a heap_skip ubo_size output_size w = (Done a', w') ->
  16 <= ubo_size /\
  App.img_size a <= output_size /\
  heap_skip + ubo_size
    + Z.of_nat (Z.to_nat (App.output_count (App.config a))) * output_size
    <= App.heap_size (App.config a).
Proof.
  unfold App.app_init_memories, bind, get, fatal, ret.
  destruct (App.malloc_ok w); cbn [negb]; [| discriminate].
  pose proof (place_outputs_end
                (Z.to_nat (App.output_count (App.config a)))
                (App.heap_base a + heap_skip + ubo_size) output_size) as He.
  destruct (App.place_outputs _ _ _) as [outs p]. cbn [snd] in He.
  destruct (Z.ltb_spec ubo_size 16); [discriminate |].
  destruct (Z.ltb_spec output_size (App.img_size a)); [discriminate |].
  destruct (Z.ltb_spec (App.heap_size (App.config a)) (p - App.heap_base a));
    [discriminate |].
  intros _. lia.
Qed.

(** C3 fails on the code at this input: the host-pointer path with
    [minImportedHostPointerAlignment = 4096], no dedicated-only constraint,
    and a driver that requires buffer sizes in units of 64 KiB. Both
    required sizes are multiples of 4096, so the [else] branch of
    [renderer_get_heap_buffer_props] stores the nominal sizes: negotiation
    succeeds with a uniform slot of 16 bytes and output slots of 1440000
    bytes, neither a multiple of the alignment. *)
Theorem unaligned_slots_accepted :
  let dev := granular_device VK_EXTERNAL_MEMORY_FEATURE_IMPORTABLE_BIT
               65536 4096 in
  let heap := {| Renderer.heap_size := 8 * 1024 * 1024 * 1024;
                 Renderer.heap_base := 139637976727552 |} in
  exists l,
    Renderer.renderer_init_heap_layout (demo_config false) heap dev 4096
      = Done l /\
    layout_alignment (demo_config false) dev 4096 = 4096 /\
    Renderer.base_skip l = 0 /\
    Renderer.ubo_size l = 16 /\ 16 mod 4096 <> 0 /\
    Renderer.output_size l = 1440000 /\ 1440000 mod 4096 <> 0 /\
    Renderer.has_bit (Renderer.ubo_props l)
      VK_EXTERNAL_MEMORY_FEATURE_DEDICATED_ONLY_BIT = false /\
    Renderer.has_bit (Renderer.output_props l)
      VK_EXTERNAL_MEMORY_FEATURE_DEDICATED_ONLY_BIT = false.
Proof.
  intros dev heap. eexists. split; [reflexivity |].
  cbn. repeat split; discriminate.
Qed.

(** C2 fails on the code at this input: the host-pointer path with
    [minImportedHostPointerAlignment = 65536], a heap of 92340224 bytes
    mapped at an address that is 4096 modulo 65536, and a driver that
    requires exactly the nominal sizes. [renderer_init_heap_layout] compares
    [ubo_size + output_size * output_count] with the heap size and leaves
    [base_skip] out: it accepts the layout although
    [base_skip + ubo_size + output_count * output_size] is 61440 bytes more
    than the heap. [app_init_memories], run by the controller on the same
    three values and the same heap size, counts the skip and aborts. *)
Theorem overrunning_layout_accepted :
  let dev := exact_device VK_EXTERNAL_MEMORY_FEATURE_IMPORTABLE_BIT 65536 in
  let heap := {| Renderer.heap_size := 92340224;
                 Renderer.heap_base := 139637976731648 |} in
  let a := {| App.config :=
                {| App.width := 600; App.height := 600;
                   App.output_count := 64; App.heap_size := 92340224;
                   App.is_coherent := true; App.use_udmabuf := false |};
              App.heap_base := 139637976731648;
              App.img_size := 1440000;
              App.mems_ubo := 0; App.mems_outputs := [] |} in
  exists l,
    Renderer.renderer_init_heap_layout (demo_config false) heap dev 4096
      = Done l /\
    Renderer.base_skip l = 61440 /\
    Renderer.ubo_size l = 65536 /\
    Renderer.output_size l = 1441792 /\
    Renderer.heap_size heap
      < Renderer.base_skip l + Renderer.ubo_size l
        + Renderer.output_count (demo_config false) * Renderer.output_size l /\
    forall c pending t,
      fst (App.app_init_memories a (Renderer.base_skip l)
             (Renderer.ubo_size l) (Renderer.output_size l)
             {| App.ctrl := c; App.xcb_pending := pending;
                App.malloc_ok := true; App.trace := t |})
        = Fatal "heap size too small".
Proof.
  intros dev heap a. eexists. split; [reflexivity |].
  cbn [Renderer.base_skip Renderer.ubo_size Renderer.output_size].
  repeat split.
Qed.

(** ** The controller's frame: events and cache maintenance *)

Lemma log_all_nil w : log_all [] w = w.
Proof. destruct w. unfold log_all. cbn. rewrite app_nil_r. reflexivity. Qed.

Lemma log_log_all e es w : App.log e (log_all es w) = log_all (es ++ [e]) w.
Proof. unfold App.log, log_all. cbn. rewrite app_assoc. reflexivity. Qed.

Lemma log_all_log e es w : log_all es (App.log e w) = log_all (e :: es) w.
Proof.
  unfold App.log, log_all. cbn. rewrite <- app_assoc. reflexivity.
Qed.

Lemma log_all_app es1 es2 w :
  log_all es2 (log_all es1 w) = log_all (es1 ++ es2) w.
Proof. unfold log_all. cbn. rewrite app_assoc. reflexivity. Qed.

Lemma emit_all_run es w : App.emit_all es w = (Done tt, log_all es w).
Proof.
  revert w. induction es as [| e es IH]; intros w.
  - cbn. rewrite log_all_nil. reflexivity.
  - cbn [App.emit_all]. unfold bind, App.emit, modify.
    rewrite IH, log_all_log. reflexivity.
Qed.

Lemma cache_ops_app t1 t2 : cache_ops (t1 ++ t2) = cache_ops t1 ++ cache_ops t2.
Proof. apply filter_app. Qed.

Lemma cache_ops_clflush l :
  cache_ops (map App.EvClflush l) = map App.EvClflush l.
Proof.
  induction l as [| x l IH]; cbn; [reflexivity |].
  unfold cache_ops in IH. rewrite IH. reflexivity.
Qed.

(** With enough fuel the loop has ended by itself: more fuel changes
    nothing. *)
Lemma sweep_from_enough end_ f1 :
  forall f2 ptr,
    end_ - ptr <= 64 * Z.of_nat f1 ->
    end_ - ptr <= 64 * Z.of_nat f2 ->
    App.sweep_from f1 ptr end_ = App.sweep_from f2 ptr end_.
Proof.
  induction f1 as [| f1 IH]; intros f2 ptr H1 H2.
  - destruct f2 as [| f2]; [reflexivity |]. cbn [App.sweep_from].
    destruct (Z.ltb_spec ptr end_); [lia | reflexivity].
  - destruct f2 as [| f2]; cbn [App.sweep_from];
      destruct (Z.ltb_spec ptr end_); try reflexivity; try lia.
    f_equal. apply IH; lia.
Qed.

(** [sweep] is the loop: one flush and 64 bytes further while
    [ptr < end]. *)
Lemma sweep_unfold ptr end_ :
  App.sweep ptr end_ =
  if ptr <? end_ then ptr :: App.sweep (ptr + 64) end_ else [].
Proof.
  unfold App.sweep.
  destruct (Z.ltb_spec ptr end_) as [L | L].
  - destruct (Z.to_nat (end_ - ptr)) as [| f] eqn:Hf; [lia |].
    cbn [App.sweep_from]. destruct (Z.ltb_spec ptr end_); [| lia].
    f_equal. apply sweep_from_enough; lia.
  - replace (Z.to_nat (end_ - ptr)) with 0%nat by lia. reflexivity.
Qed.



(** All the ways the request and reply of a frame can go: the write ends
    the process; the write succeeds and the read falls short; or both
    succeed and the reply is compared with the request. *)
Lemma exchange_cases output w :
  let r := exchange output w in
  let c := App.ctrl w in
  (tx_open c = false /\
   fst r = Killed SIGPIPE /\
   App.trace (snd r) = App.trace w)
  \/ (tx_open c = true /\
      (List.length (rx c) < 4)%nat /\
      fst r = Fatal "failed to receive a value" /\
      App.trace (snd r) = App.trace w ++ [App.EvSend (u32 output)] /\
      tx (App.ctrl (snd r)) = tx c ++ encode_u32 (u32 output))
  \/ (exists b0 b1 b2 b3 rest,
        tx_open c = true /\
        rx c = b0 :: b1 :: b2 :: b3 :: rest /\
        let v := decode_u32 [b0; b1; b2; b3] in
        fst r = (if v =? u32 output then Done tt
                 else Fatal "unexpected renderer output") /\
        App.trace (snd r)
          = App.trace w ++ [App.EvSend (u32 output); App.EvRecv v] /\
        rx (App.ctrl (snd r)) = rest /\
        tx (App.ctrl (snd r)) = tx c ++ encode_u32 (u32 output)).
Proof.
  destruct w as [[rxs txs o] p m t].
  unfold exchange, bind, App.app_send, App.app_recv, chan_write4, chan_read4.
  cbn [App.ctrl tx_open rx tx App.set_ctrl App.log App.trace
       App.xcb_pending App.malloc_ok].
  destruct o; [| left; cbn; auto].
  change (4 =? 4) with true. cbv iota.
  right.
  destruct rxs as [| b0 [| b1 [| b2 [| b3 rest]]]];
    try (left; cbn; repeat split; auto; lia).
  right. exists b0, b1, b2, b3, rest.
  cbn [App.ctrl tx_open rx tx App.set_ctrl App.log App.trace
       App.xcb_pending App.malloc_ok fst snd].
  destruct (decode_u32 [b0; b1; b2; b3] =? u32 output);
    cbn; rewrite <- app_assoc; repeat split; reflexivity.
Qed.

(** [app_render_frame] is the write to the uniform region, the cache
    maintenance the configuration asks for, then the exchange. *)
Lemma render_frame_unfold a output colour w :
  App.app_render_frame a output colour w =
  exchange output
    (log_all (App.EvMemcpyUbo (App.mems_ubo a) colour ::
              if App.is_coherent (App.config a) then []
              else [App.EvMfence; App.EvClflush (App.mems_ubo a)]) w).
Proof.
  unfold App.app_render_frame, when.
  destruct (App.is_coherent (App.config a)); cbn [negb];
    unfold bind at 1; unfold App.emit at 1, modify;
    unfold bind at 1.
  - unfold ret at 1. reflexivity.
  - unfold bind at 1. unfold App.emit at 1 2, modify.
    rewrite <- (log_all_nil w) at 1.
    rewrite !log_log_all. reflexivity.
Qed.

Lemma present_frame_run a output ptr w :
  0 <= output ->
  nth_error (App.mems_outputs a) (Z.to_nat output) = Some ptr ->
  App.app_present_frame a output w =
  (Done tt,
   log_all
     ((if App.is_coherent (App.config a) then []
       else map App.EvClflush (App.sweep ptr (ptr + App.img_size a))
            ++ [App.EvMfence])
      ++ [App.EvPutImage ptr (App.img_size a); App.EvXcbFlush;
          App.EvUsleep 16666]) w).
Proof.
  intros Hpos Hnth. unfold App.app_present_frame.
  destruct (Z.ltb_spec output 0); [lia |]. rewrite Hnth.
  unfold when. destruct (App.is_coherent (App.config a)); cbn [negb].
  - unfold bind, ret, App.emit, modify.
    rewrite <- (log_all_nil w) at 1. rewrite !log_log_all. reflexivity.
  - unfold bind. rewrite emit_all_run. unfold App.emit, modify.
    rewrite !log_log_all, <- !app_assoc. reflexivity.
Qed.



(** ** The frame exchange *)

Lemma renderer_recv_encode v rest w :
  rx (Renderer.ctrl w) = encode_u32 v ++ rest ->
  Renderer.renderer_recv w =
  (Done (u32 v),
   {| Renderer.ctrl := {| rx := rest; tx := tx (Renderer.ctrl w);
                          tx_open := tx_open (Renderer.ctrl w) |};
      Renderer.vk_answers := Renderer.vk_answers w;
      Renderer.submitted := Renderer.submitted w |}).
Proof.
  intros Hrx. unfold Renderer.renderer_recv.
  rewrite (chan_read4_encode v rest _ Hrx), decode_encode_u32. reflexivity.
Qed.

Lemma app_recv_encode v rest w :
  rx (App.ctrl w) = encode_u32 v ++ rest ->
  App.app_recv w =
  (Done (u32 v),
   App.log (App.EvRecv (u32 v))
     (App.set_ctrl {| rx := rest; tx := tx (App.ctrl w);
                      tx_open := tx_open (App.ctrl w) |} w)).
Proof.
  intros Hrx. unfold App.app_recv.
  rewrite (chan_read4_encode v rest _ Hrx), decode_encode_u32. reflexivity.
Qed.

Lemma renderer_send_run val w :
  Renderer.renderer_send val w =
  if tx_open (Renderer.ctrl w) then
    (Done tt,
     {| Renderer.ctrl := {| rx := rx (Renderer.ctrl w);
                            tx := tx (Renderer.ctrl w) ++ encode_u32 (u32 val);
                            tx_open := true |};
        Renderer.vk_answers := Renderer.vk_answers w;
        Renderer.submitted := Renderer.submitted w |})
  else
    (Killed SIGPIPE,
     {| Renderer.ctrl := Renderer.ctrl w;
        Renderer.vk_answers := Renderer.vk_answers w;
        Renderer.submitted := Renderer.submitted w |}).
Proof.
  unfold Renderer.renderer_send, chan_write4.
  destruct (tx_open (Renderer.ctrl w)); reflexivity.
Qed.

Lemma renderer_render_ctrl cfg output w :
  Renderer.ctrl (snd (Renderer.renderer_render cfg output w))
    = Renderer.ctrl w.
Proof.
  unfold Renderer.renderer_render.
  destruct ((0 <=? output) && (output <? Renderer.output_count cfg));
    [| reflexivity].
  destruct (Renderer.vk_answers w) as [| [s q] rest];
    [reflexivity |].
  destruct (Renderer.renderer_vk s _); reflexivity.
Qed.

Lemma renderer_render_ok cfg output w :
  0 <= output < Renderer.output_count cfg ->
  match Renderer.vk_answers w with
  | (s, q) :: _ => s = VK_SUCCESS /\ q = VK_SUCCESS
  | [] => True
  end ->
  fst (Renderer.renderer_render cfg output w) = Done tt.
Proof.
  intros Hr Hvk. unfold Renderer.renderer_render.
  destruct (Z.leb_spec 0 output); [| lia].
  destruct (Z.ltb_spec output (Renderer.output_count cfg)); [| lia].
  cbn [andb].
  destruct (Renderer.vk_answers w) as [| [s q] rest]; [reflexivity |].
  destruct Hvk as [-> ->]. reflexivity.
Qed.

(** One turn of the renderer's loop: the reply, when there is one, is the
    request. *)
Lemma renderer_turn_echoes cfg v rest w :
  0 <= v < 2 ^ 32 ->
  rx (Renderer.ctrl w) = encode_u32 v ++ rest ->
  fst (Renderer.renderer_mainloop_body cfg w) = Done tt ->
  let w' := snd (Renderer.renderer_mainloop_body cfg w) in
  tx (Renderer.ctrl w') = tx (Renderer.ctrl w) ++ encode_u32 v /\
  rx (Renderer.ctrl w') = rest.
Proof.
  intros Hv Hrx. unfold Renderer.renderer_mainloop_body, bind.
  rewrite (renderer_recv_encode v rest w Hrx).
  pose proof (renderer_render_ctrl cfg (s32 (u32 v))
    {| Renderer.ctrl := {| rx := rest; tx := tx (Renderer.ctrl w);
                           tx_open := tx_open (Renderer.ctrl w) |};
       Renderer.vk_answers := Renderer.vk_answers w;
       Renderer.submitted := Renderer.submitted w |}) as Hc.
  destruct (Renderer.renderer_render cfg (s32 (u32 v)) _)
    as [[[] | m | | sg] w1];
    cbn [fst snd] in *; try discriminate.
  rewrite renderer_send_run, Hc. cbn [tx_open].
  destruct (tx_open (Renderer.ctrl w)); cbn [fst snd]; [| discriminate].
  intros _. cbn [Renderer.ctrl tx rx].
  rewrite u32_s32, u32_idem, u32_small by exact Hv. auto.
Qed.

(** The renderer does reply when the index is one of its command buffers,
    the queue works and the controller is there. *)
Lemma renderer_turn_replies cfg v rest w :
  0 <= v < Renderer.output_count cfg ->
  Renderer.output_count cfg <= 2 ^ 31 ->
  rx (Renderer.ctrl w) = encode_u32 v ++ rest ->
  tx_open (Renderer.ctrl w) = true ->
  match Renderer.vk_answers w with
  | (s, q) :: _ => s = VK_SUCCESS /\ q = VK_SUCCESS
  | [] => True
  end ->
  fst (Renderer.renderer_mainloop_body cfg w) = Done tt.
Proof.
  intros Hv Hn Hrx Hopen Hvk. unfold Renderer.renderer_mainloop_body, bind.
  rewrite (renderer_recv_encode v rest w Hrx).
  assert (Hs : s32 (u32 v) = v).
  { rewrite u32_small by lia. unfold s32.
    rewrite Z.mod_small by lia.
    destruct (Z.ltb_spec v (2 ^ 31)); lia. }
  rewrite Hs.
  set (w0 := {| Renderer.ctrl := _ |}).
  pose proof (renderer_render_ctrl cfg v w0) as Hc.
  pose proof (renderer_render_ok cfg v w0 Hv Hvk) as Hok.
  destruct (Renderer.renderer_render cfg v w0) as [r w1].
  cbn [fst snd] in *. subst r.
  rewrite renderer_send_run, Hc. unfold w0. cbn [Renderer.ctrl tx_open].
  rewrite Hopen. reflexivity.
Qed.

Lemma app_send_run val w :
  App.app_send val w =
  if tx_open (App.ctrl w) then
    (Done tt,
     App.log (App.EvSend (u32 val))
       (App.set_ctrl {| rx := rx (App.ctrl w);
                        tx := tx (App.ctrl w) ++ encode_u32 (u32 val);
                        tx_open := true |} w))
  else (Killed SIGPIPE, App.set_ctrl (App.ctrl w) w).
Proof.
  unfold App.app_send, chan_write4.
  destruct (tx_open (App.ctrl w)); reflexivity.
Qed.

(** The controller's side of an exchange in which the request is written
    and a reply [r] is read. *)
Lemma exchange_reply output r rest w :
  0 <= r < 2 ^ 32 ->
  tx_open (App.ctrl w) = true ->
  rx (App.ctrl w) = encode_u32 r ++ rest ->
  fst (exchange output w) =
  if r =? u32 output then Done tt else Fatal "unexpected renderer output".
Proof.
  intros Hr Hopen Hrx. unfold exchange, bind.
  rewrite app_send_run, Hopen.
  rewrite (app_recv_encode r rest) by (cbn; exact Hrx).
  rewrite u32_small by exact Hr.
  destruct (r =? u32 output); reflexivity.
Qed.

(** A whole exchange: when the renderer's turn on the controller's request
    ends, its reply lets the controller go on. *)
Lemma frame_round_trip cfg rw rest_r a output colour w reply rest_c :
  rx (Renderer.ctrl rw) = encode_u32 (u32 output) ++ rest_r ->
  fst (Renderer.renderer_mainloop_body cfg rw) = Done tt ->
  tx (Renderer.ctrl (snd (Renderer.renderer_mainloop_body cfg rw)))
    = tx (Renderer.ctrl rw) ++ reply ->
  tx_open (App.ctrl w) = true ->
  rx (App.ctrl w) = reply ++ rest_c ->
  fst (App.app_render_frame a output colour w) = Done tt.
Proof.
  intros Hrx Hd Htx Hopen Hrxc.
  destruct (renderer_turn_echoes cfg (u32 output) rest_r rw
              (u32_range output) Hrx Hd) as [Ht _].
  rewrite Ht in Htx. apply app_inv_head in Htx. subst reply.
  rewrite render_frame_unfold.
  rewrite (exchange_reply output (u32 output) rest_c);
    auto using u32_range.
  rewrite Z.eqb_refl. reflexivity.
Qed.

(** ** The handshake *)

Lemma renderer_handshake_run cfg heap dev pagesize l w :
  Renderer.renderer_init_heap_layout cfg heap dev pagesize = Done l ->
  tx_open (Renderer.ctrl w) = true ->
  Renderer.renderer_handshake cfg heap dev pagesize w
    = (Done l, renderer_sent (handshake_bytes l) w).
Proof.
  intros Hl Hopen.
  unfold Renderer.renderer_handshake, bind, Renderer.lift. rewrite Hl.
  rewrite renderer_send_run, Hopen.
  rewrite renderer_send_run. cbn [Renderer.ctrl tx_open].
  rewrite renderer_send_run. cbn [Renderer.ctrl tx_open tx rx
    Renderer.vk_answers Renderer.submitted].
  unfold ret, renderer_sent, handshake_bytes.
  rewrite <- !app_assoc. reflexivity.
Qed.

Lemma app_handshake_run x y z rest w :
  rx (App.ctrl w) = encode_u32 x ++ encode_u32 y ++ encode_u32 z ++ rest ->
  App.app_handshake w =
  (Done (u32 x, u32 y, u32 z),
   log_all [App.EvRecv (u32 x); App.EvRecv (u32 y); App.EvRecv (u32 z)]
     (App.set_ctrl {| rx := rest; tx := tx (App.ctrl w);
                      tx_open := tx_open (App.ctrl w) |} w)).
Proof.
  intros Hrx. unfold App.app_handshake, bind.
  rewrite (app_recv_encode x _ w Hrx).
  rewrite (app_recv_encode y (encode_u32 z ++ rest)) by reflexivity.
  rewrite (app_recv_encode z rest) by reflexivity.
  unfold ret, log_all, App.log, App.set_ctrl.
  cbn [App.ctrl App.trace App.xcb_pending App.malloc_ok tx tx_open].
  rewrite <- !app_assoc. reflexivity.
Qed.

(** C6: the renderer's handshake is three writes of four bytes each, the
    32-bit values of [base_skip], [ubo_size] and [output_size] in that
    order, and the renderer writes nothing else before its main loop; the
    controller reads three 4-byte values in the same order, binds them to
    [heap_skip], [ubo_size] and [output_size] of [app_init_memories], and
    has written nothing to the renderer when it has done so. *)
Theorem handshake_three_values
    (cfg : Renderer.renderer_config) (heap : Renderer.renderer_heap)
    (dev : Renderer.vk_device) (pagesize : Z) (l : Renderer.heap_layout)
    (rw : Renderer.world) (later_init : result unit)
    (a : App.app) (n : nat) (w : App.world) (rest : list byte) :
  Renderer.renderer_init_heap_layout cfg heap dev pagesize = Done l ->
  tx_open (Renderer.ctrl rw) = true ->
  rx (App.ctrl w) = handshake_bytes l ++ rest ->
  let heap_skip := u32 (Renderer.base_skip l) in
  let ubo_size := u32 (Renderer.ubo_size l) in
  let output_size := u32 (Renderer.output_size l) in
  let w' := log_all [App.EvRecv heap_skip; App.EvRecv ubo_size;
                     App.EvRecv output_size]
              (App.set_ctrl {| rx := rest; tx := tx (App.ctrl w);
                               tx_open := tx_open (App.ctrl w) |} w) in
  handshake_bytes l
    = encode_u32 heap_skip ++ encode_u32 ubo_size ++ encode_u32 output_size /\
  List.length (handshake_bytes l) = 12%nat /\
  Renderer.renderer_handshake cfg heap dev pagesize rw
    = (Done l, renderer_sent (handshake_bytes l) rw) /\
  tx (Renderer.ctrl
        (snd (Renderer.renderer cfg heap dev pagesize later_init 0 rw)))
    = tx (Renderer.ctrl rw) ++ handshake_bytes l /\
  App.app_handshake w = (Done (heap_skip, ubo_size, output_size), w') /\
  tx (App.ctrl w') = tx (App.ctrl w) /\
  App.main_controller a n w
    = (a' <- App.app_init_memories a heap_skip ubo_size output_size ;;
       App.app_mainloop a' n) w'.
Proof.
  intros Hl Hopen Hrx heap_skip ubo_size output_size w'.
  assert (Hh : App.app_handshake w
               = (Done (heap_skip, ubo_size, output_size), w')).
  { unfold handshake_bytes in Hrx. rewrite <- !app_assoc in Hrx.
    rewrite (app_handshake_run _ _ _ rest w Hrx).
    unfold heap_skip, ubo_size, output_size, w'. rewrite !u32_idem.
    reflexivity. }
  repeat split.
  - apply renderer_handshake_run; assumption.
  - unfold Renderer.renderer, bind.
    rewrite (renderer_handshake_run cfg heap dev pagesize l rw Hl Hopen).
    unfold Renderer.lift. destruct later_init; reflexivity.
  - exact Hh.
  - unfold App.main_controller. unfold bind at 1. rewrite Hh. reflexivity.
Qed.

(** ** Truncation of the layout on the wire *)

Lemma u32_truncates v : 2 ^ 32 <= v -> u32 v <> v.
Proof. intros Hv. pose proof (u32_range v). lia. Qed.

(** ** The controller's main loop *)

Lemma mod_succ i p :
  0 < p ->
  (i + 1) mod p = if i mod p + 1 =? p then 0 else i mod p + 1.
Proof.
  intros Hp.
  pose proof (Z.div_mod i p ltac:(lia)) as Hd.
  pose proof (Z.mod_pos_bound i p Hp) as Hb.
  destruct (Z.eqb_spec (i mod p + 1) p) as [E | E]; symmetry.
  - apply Z.mod_unique_pos with (q := i / p + 1); lia.
  - apply Z.mod_unique_pos with (q := i / p); lia.
Qed.

Lemma loop_phase_next n i s :
  2 <= n -> loop_phase n i s -> loop_phase n (i + 1) (App.loop_next n s).
Proof.
  intros Hn. unfold loop_phase. cbv zeta.
  rewrite (mod_succ i (2 * n - 1)) by lia.
  pose proof (Z.mod_pos_bound i (2 * n - 1) ltac:(lia)) as Hb.
  unfold App.loop_next. cbv zeta.
  destruct (Z.eqb_spec (i mod (2 * n - 1) + 1) (2 * n - 1)) as [E | E];
    intros [(Hk & Ho & Hi) | [(Hk & Ho & Hi) | (Hk & Ho & Hi)]];
    destruct (Z.leb_spec n (App.output s + App.output_inc s)) as [L | L];
    try destruct (Z.ltb_spec (App.output s + App.output_inc s) 0) as [L' | L'];
    cbn [App.output App.output_inc]; lia.
Qed.

Lemma loop_phase_at n i :
  2 <= n -> loop_phase n (Z.of_nat i) (loop_at n i).
Proof.
  intros Hn. induction i as [| i IH].
  - left. change (Z.of_nat 0) with 0. rewrite Z.mod_0_l by lia.
    cbn. auto.
  - replace (Z.of_nat (S i)) with (Z.of_nat i + 1) by lia.
    unfold loop_at. cbn [Nat.iter]. apply loop_phase_next; assumption.
Qed.

(** The loop variable follows the pattern and stays an index. *)
Lemma loop_at_pingpong n i :
  2 <= n ->
  App.output (loop_at n i) = pingpong n (Z.of_nat i) /\
  0 <= App.output (loop_at n i) < n.
Proof.
  intros Hn. pose proof (loop_phase_at n i Hn) as H.
  pose proof (Z.mod_pos_bound (Z.of_nat i) (2 * n - 1) ltac:(lia)) as Hb.
  unfold loop_phase, pingpong in *. cbv zeta in *.
  destruct H as [(Hk & Ho & _) | [(Hk & Ho & _) | (Hk & Ho & _)]];
    rewrite Ho;
    destruct (Z.ltb_spec (Z.of_nat i mod (2 * n - 1)) n); lia.
Qed.

Lemma requests_app t1 t2 : requests (t1 ++ t2) = requests t1 ++ requests t2.
Proof. unfold requests. apply flat_map_app. Qed.

Lemma flight_app t1 t2 : flight (t1 ++ t2) = flight_from (flight t1) t2.
Proof. unfold flight, flight_from. apply fold_left_app. Qed.

(** Events that are no channel traffic change neither view of a trace. *)
Lemma quiet_requests es :
  filter is_chan_event es = [] -> requests es = [].
Proof.
  induction es as [| e es IH]; [reflexivity |].
  destruct e; cbn; try discriminate; exact IH.
Qed.

Lemma quiet_flight es st :
  filter is_chan_event es = [] -> flight_from st es = st.
Proof.
  revert st. induction es as [| e es IH]; intros st; [reflexivity |].
  destruct e; cbn; try discriminate; intros H;
    unfold flight_from in IH; rewrite (IH _ H); destruct st as [[] |];
    reflexivity.
Qed.

Lemma quiet_clflush l : filter is_chan_event (map App.EvClflush l) = [].
Proof. induction l; [reflexivity | exact IHl]. Qed.

Lemma poll_run w :
  exists ev w1,
    App.xcb_poll_for_event w = (Done ev, w1) /\
    App.trace w1 = App.trace w ++ [App.EvPoll].
Proof.
  unfold App.xcb_poll_for_event.
  destruct (App.xcb_pending w) as [| b rest]; eexists; eexists;
    split; reflexivity.
Qed.

Lemma present_frame_quiet a output w :
  exists es,
    App.trace (snd (App.app_present_frame a output w)) = App.trace w ++ es /\
    filter is_chan_event es = [] /\
    (fst (App.app_present_frame a output w) = Done tt \/
     fst (App.app_present_frame a output w) = Undefined).
Proof.
  destruct (Z.ltb_spec output 0) as [L | L].
  - exists []. unfold App.app_present_frame.
    destruct (Z.ltb_spec output 0); [| lia].
    cbn. rewrite app_nil_r. auto.
  - destruct (nth_error (App.mems_outputs a) (Z.to_nat output))
      as [ptr |] eqn:Hn.
    + rewrite (present_frame_run a output ptr w L Hn). cbn [fst snd].
      eexists. split; [reflexivity |]. split; [| auto].
      destruct (App.is_coherent (App.config a)); [reflexivity |].
      rewrite <- app_assoc, filter_app, quiet_clflush. reflexivity.
    + exists []. unfold App.app_present_frame.
      destruct (Z.ltb_spec output 0); [lia |]. rewrite Hn.
      cbn. rewrite app_nil_r. auto.
Qed.

(** One turn of the controller's loop, seen on the channel pair: it starts
    with no request in flight; it writes at most one request, the index of
    the turn; when the turn ends normally the request was written and
    answered. *)
Lemma mainloop_body_trace a s w :
  flight (App.trace w) = Some false ->
  let r := App.app_mainloop_body a s w in
  let req := u32 (App.output s) in
  match fst r with
  | Done s' =>
      s' = App.loop_next (App.output_count (App.config a)) s /\
      requests (App.trace (snd r)) = requests (App.trace w) ++ [req] /\
      flight (App.trace (snd r)) = Some false
  | _ =>
      (requests (App.trace (snd r)) = requests (App.trace w) \/
       requests (App.trace (snd r)) = requests (App.trace w) ++ [req]) /\
      flight (App.trace (snd r)) <> None
  end.
Proof.
  intros Hf. cbv zeta.
  enough (H : forall r, r = App.app_mainloop_body a s w ->
    match fst r with
    | Done s' =>
        s' = App.loop_next (App.output_count (App.config a)) s /\
        requests (App.trace (snd r))
          = requests (App.trace w) ++ [u32 (App.output s)] /\
        flight (App.trace (snd r)) = Some false
    | _ =>
        (requests (App.trace (snd r)) = requests (App.trace w) \/
         requests (App.trace (snd r))
           = requests (App.trace w) ++ [u32 (App.output s)]) /\
        flight (App.trace (snd r)) <> None
    end) by (apply H; reflexivity).
  intros r Hr. unfold App.app_mainloop_body, bind in Hr.
  destruct (poll_run w) as (ev & w1 & Hp & Ht1). rewrite Hp in Hr.
  assert (Hr1 : requests (App.trace w1) = requests (App.trace w))
    by (rewrite Ht1, requests_app; cbn; apply app_nil_r).
  assert (Hf1 : flight (App.trace w1) = Some false)
    by (rewrite Ht1, flight_app, Hf; reflexivity).
  destruct ev.
  { subst r. unfold fatal. cbn [fst snd]. rewrite Hr1, Hf1.
    split; [auto | discriminate]. }
  rewrite render_frame_unfold in Hr.
  set (es := App.EvMemcpyUbo _ _ :: _) in Hr.
  assert (Hq : filter is_chan_event es = []).
  { unfold es. destruct (App.is_coherent (App.config a)); reflexivity. }
  assert (Hr2 : requests (App.trace (log_all es w1)) = requests (App.trace w)).
  { cbn [log_all App.trace]. rewrite requests_app, (quiet_requests es Hq).
    rewrite app_nil_r. exact Hr1. }
  assert (Hf2 : flight (App.trace (log_all es w1)) = Some false).
  { cbn [log_all App.trace]. rewrite flight_app, Hf1.
    apply quiet_flight, Hq. }
  pose proof (exchange_cases (App.output s) (log_all es w1)) as Hx.
  cbv zeta in Hx.
  destruct (exchange (App.output s) (log_all es w1)) as [r3 w3].
  cbn [fst snd] in Hx.
  destruct Hx as [(_ & Hx & Ht) | [(_ & _ & Hx & Ht & _) |
                   (b0 & b1 & b2 & b3 & rest & _ & _ & Hx & Ht & _)]].
  - subst r3 r. cbn [fst snd]. rewrite Ht, Hr2, Hf2.
    split; [auto | discriminate].
  - subst r3 r. cbn [fst snd]. rewrite Ht, requests_app, flight_app, Hr2, Hf2.
    split; [right; reflexivity | discriminate].
  - assert (Hr3 : requests (App.trace w3)
                  = requests (App.trace w) ++ [u32 (App.output s)])
      by (rewrite Ht, requests_app, Hr2; reflexivity).
    assert (Hf3 : flight (App.trace w3) = Some false)
      by (rewrite Ht, flight_app, Hf2; reflexivity).
    subst r3.
    destruct (decode_u32 [b0; b1; b2; b3] =? u32 (App.output s)).
    + destruct (present_frame_quiet a (App.output s) w3)
        as (ps & Ht4 & Hq4 & Hr4).
      destruct (App.app_present_frame a (App.output s) w3) as [r4 w4].
      cbn [fst snd] in Ht4, Hr4.
      assert (Hr5 : requests (App.trace w4)
                    = requests (App.trace w) ++ [u32 (App.output s)])
        by (rewrite Ht4, requests_app, (quiet_requests ps Hq4), app_nil_r;
            exact Hr3).
      assert (Hf5 : flight (App.trace w4) = Some false)
        by (rewrite Ht4, flight_app, Hf3; apply quiet_flight, Hq4).
      destruct Hr4 as [-> | ->]; subst r; cbn [fst snd ret].
      * auto.
      * rewrite Hr5, Hf5. split; [auto | discriminate].
    + subst r. cbn [fst snd]. rewrite Hr3, Hf3. split; [auto | discriminate].
Qed.

Lemma mainloop_from_trace a i n w :
  let count := App.output_count (App.config a) in
  let pattern := fun j => pingpong count (Z.of_nat j) in
  2 <= count <= 2 ^ 32 ->
  flight (App.trace w) = Some false ->
  let r := App.app_mainloop_from a (loop_at count i) n w in
  flight (App.trace (snd r)) <> None /\
  (exists m, (m <= n)%nat /\
     requests (App.trace (snd r))
       = requests (App.trace w) ++ map pattern (seq i m)) /\
  (forall s, fst r = Done s ->
     s = loop_at count (i + n) /\
     requests (App.trace (snd r))
       = requests (App.trace w) ++ map pattern (seq i n) /\
     flight (App.trace (snd r)) = Some false).
Proof.
  intros count pattern Hc. revert i w.
  induction n as [| n IH]; intros i w Hf r.
  - subst r. cbn [App.app_mainloop_from ret fst snd].
    split; [rewrite Hf; discriminate |]. split.
    + exists 0%nat. split; [lia |]. cbn. rewrite app_nil_r. reflexivity.
    + intros s Hs. injection Hs as <-. rewrite Nat.add_0_r.
      cbn. rewrite app_nil_r. auto.
  - pose proof (mainloop_body_trace a (loop_at count i) w Hf) as Hb.
    cbv zeta in Hb. fold count in Hb.
    destruct (loop_at_pingpong count i ltac:(lia)) as [Hpp Hrange].
    rewrite u32_small, Hpp in Hb by lia.
    subst r. cbn [App.app_mainloop_from]. unfold bind.
    destruct (App.app_mainloop_body a (loop_at count i) w) as [[s1 | m | | sg] w1];
      cbn [fst snd] in Hb |- *.
    + destruct Hb as (Hs1 & Hr1 & Hf1).
      assert (Es : s1 = loop_at count (S i)) by (rewrite Hs1; reflexivity).
      rewrite Es.
      destruct (IH (S i) w1 Hf1) as (Hfl & (m & Hm & Hreq) & Hdone).
      split; [exact Hfl |]. split.
      * exists (S m). split; [lia |].
        rewrite Hreq, Hr1, <- app_assoc. reflexivity.
      * intros s Hs. destruct (Hdone s Hs) as (E1 & E2 & E3).
        split; [rewrite E1; f_equal; lia |]. split; [| exact E3].
        rewrite E2, Hr1, <- app_assoc. reflexivity.
    + destruct Hb as ([Hr1 | Hr1] & Hf1).
      all: split; [exact Hf1 |]; split; [| discriminate].
      * exists 0%nat. split; [lia |]. rewrite Hr1. cbn.
        rewrite app_nil_r. reflexivity.
      * exists 1%nat. split; [lia |]. rewrite Hr1. reflexivity.
    + destruct Hb as ([Hr1 | Hr1] & Hf1).
      all: split; [exact Hf1 |]; split; [| discriminate].
      * exists 0%nat. split; [lia |]. rewrite Hr1. cbn.
        rewrite app_nil_r. reflexivity.
      * exists 1%nat. split; [lia |]. rewrite Hr1. reflexivity.
    + destruct Hb as ([Hr1 | Hr1] & Hf1).
      all: split; [exact Hf1 |]; split; [| discriminate].
      * exists 0%nat. split; [lia |]. rewrite Hr1. cbn.
        rewrite app_nil_r. reflexivity.
      * exists 1%nat. split; [lia |]. rewrite Hr1. reflexivity.
Qed.

Lemma pingpong_period n i : 2 <= n -> pingpong n (i + (2 * n - 1)) = pingpong n i.
Proof.
  intros Hn. unfold pingpong.
  replace (i + (2 * n - 1)) with (i + 1 * (2 * n - 1)) by lia.
  rewrite Z.mod_add by lia. reflexivity.
Qed.

(** Reading writes nothing. *)
Lemma app_recv_flight w :
  flight (App.trace w) = Some false ->
  flight (App.trace (snd (App.app_recv w))) = Some false /\
  requests (App.trace (snd (App.app_recv w))) = requests (App.trace w).
Proof.
  intros Hf. unfold App.app_recv.
  destruct (chan_read4 (App.ctrl w)) as [[bs |] c]; cbn [snd].
  - cbn [App.log App.trace App.set_ctrl].
    rewrite flight_app, requests_app, Hf. cbn. rewrite app_nil_r. auto.
  - cbn [App.set_ctrl App.trace]. auto.
Qed.

Lemma app_handshake_flight w :
  flight (App.trace w) = Some false ->
  flight (App.trace (snd (App.app_handshake w))) = Some false /\
  requests (App.trace (snd (App.app_handshake w))) = requests (App.trace w).
Proof.
  intros Hf. unfold App.app_handshake, bind.
  destruct (app_recv_flight w Hf) as [H1 R1].
  destruct (App.app_recv w) as [[x | m | | sg] w1]; cbn [snd] in *; auto.
  destruct (app_recv_flight w1 H1) as [H2 R2].
  destruct (App.app_recv w1) as [[y | m | | sg] w2]; cbn [snd] in *;
    [| split; congruence ..].
  destruct (app_recv_flight w2 H2) as [H3 R3].
  destruct (App.app_recv w2) as [[z | m | | sg] w3]; cbn [snd ret] in *;
    split; congruence.
Qed.

Lemma app_init_memories_keeps a heap_skip ubo_size output_size w :
  let r := App.app_init_memories a heap_skip ubo_size output_size w in
  snd r = w /\
  forall a', fst r = Done a' -> App.config a' = App.config a.
Proof.
  unfold App.app_init_memories, bind, get, fatal, ret.
  destruct (App.malloc_ok w); cbn [negb fst snd]; [| split; [auto |]].
  - destruct (App.place_outputs _ _ _) as [outs p].
    destruct (ubo_size <? 16); [split; [auto | discriminate] |].
    destruct (output_size <? App.img_size a);
      [split; [auto | discriminate] |].
    destruct (App.heap_size (App.config a) <? p - App.heap_base a);
      [split; [auto | discriminate] |].
    cbn [fst snd]. split; [auto |].
    intros a' E. injection E as <-. reflexivity.
  - discriminate.
Qed.

(** The whole controller, from the handshake on: reading the layout
    writes nothing, so the main loop starts with no request in flight and
    there never are two. *)
Lemma controller_one_in_flight a n w :
  App.output_count (App.config a) = 64 ->
  flight (App.trace w) = Some false ->
  flight (App.trace (snd (App.main_controller a n w))) <> None.
Proof.
  intros Hc Hf. unfold App.main_controller. unfold bind at 1.
  destruct (app_handshake_flight w Hf) as [H1 _].
  destruct (App.app_handshake w) as [[[[hs us] os] | m | | sg] w1];
    cbn [snd] in *; try (rewrite H1; discriminate).
  unfold bind.
  destruct (app_init_memories_keeps a hs us os w1) as [Hw Hcfg].
  destruct (App.app_init_memories a hs us os w1) as [[a' | m | | sg] w2];
    cbn [fst snd] in *; subst w2; try (rewrite H1; discriminate).
  specialize (Hcfg a' eq_refl).
  pose proof (mainloop_from_trace a' 0 n (App.log App.EvMapWindow w1)) as H.
  cbv zeta in H. rewrite Hcfg, Hc in H.
  assert (Hf0 : flight (App.trace (App.log App.EvMapWindow w1)) = Some false)
    by (cbn [App.log App.trace]; rewrite flight_app, H1; reflexivity).
  destruct (H ltac:(lia) Hf0) as [Hfl _]. exact Hfl.
Qed.

(** ** The renderer's invocation token *)

Lemma code_digit_char d : 0 <= d < 10 -> App.code (App.digit_char d) = 48 + d.
Proof.
  intros Hd. unfold App.code, App.digit_char.
  rewrite nat_ascii_embedding by lia. lia.
Qed.

Lemma isdigit_digit_char d : 0 <= d < 10 -> App.isdigit (App.digit_char d) = true.
Proof.
  intros Hd. unfold App.isdigit. rewrite code_digit_char by exact Hd.
  destruct (Z.leb_spec 48 (48 + d)); destruct (Z.leb_spec (48 + d) 57);
    reflexivity || lia.
Qed.

Lemma scan_digits_stops acc rest :
  stops rest -> App.scan_digits acc rest = (acc, rest).
Proof.
  destruct rest as [| c rest]; [reflexivity |].
  cbn. intros ->. reflexivity.
Qed.

(** [digits_aux] writes digits, at least one, and [scan_digits] reads the
    number back from them. *)
Lemma digits_aux_scan fuel :
  forall n acc,
    0 <= n < 10 ^ Z.of_nat (S fuel) ->
    exists d ds,
      App.digits_aux (S fuel) n acc = (d :: ds) ++ acc /\
      App.isdigit d = true /\
      forall a0 rest,
        App.scan_digits a0 ((d :: ds) ++ rest)
          = App.scan_digits
              (a0 * 10 ^ Z.of_nat (List.length (d :: ds)) + n) rest.
Proof.
  induction fuel as [| fuel IH]; intros n acc Hn.
  - assert (Hq : n / 10 = 0) by (apply Z.div_small; cbn in Hn; lia).
    assert (Hm : n mod 10 = n) by (apply Z.mod_small; cbn in Hn; lia).
    cbn [App.digits_aux]. rewrite Hq, Hm. cbn [Z.eqb].
    exists (App.digit_char n), []. cbn in Hn.
    split; [reflexivity |].
    split; [apply isdigit_digit_char; lia |].
    intros a0 rest. cbn [app App.scan_digits List.length].
    rewrite isdigit_digit_char, code_digit_char by lia.
    f_equal. change (10 ^ Z.of_nat 1) with 10. lia.
  - pose proof (Z.mod_pos_bound n 10 ltac:(lia)) as Hm.
    pose proof (Z.div_mod n 10 ltac:(lia)) as Hdm.
    cbn [App.digits_aux].
    destruct (Z.eqb_spec (n / 10) 0) as [Hq | Hq].
    + exists (App.digit_char (n mod 10)), [].
      split; [reflexivity |].
      split; [apply isdigit_digit_char; lia |].
      intros a0 rest. cbn [app App.scan_digits List.length].
      rewrite isdigit_digit_char, code_digit_char by lia.
      f_equal. change (10 ^ Z.of_nat 1) with 10. lia.
    + assert (Hn' : 0 <= n / 10 < 10 ^ Z.of_nat (S fuel)).
      { split; [apply Z.div_pos; lia |].
        apply Z.div_lt_upper_bound; [lia |].
        replace (Z.of_nat (S (S fuel))) with (Z.of_nat (S fuel) + 1) in Hn
          by lia.
        rewrite Z.pow_add_r, Z.pow_1_r in Hn by lia. lia. }
      destruct (IH (n / 10) (App.digit_char (n mod 10) :: acc) Hn')
        as (d & ds & Hds & Hd & Hscan).
      exists d, (ds ++ [App.digit_char (n mod 10)]).
      split; [| split; [exact Hd |]].
      * change (App.digits_aux (S fuel) (n / 10)
                  (App.digit_char (n mod 10) :: acc)
                = (d :: ds ++ [App.digit_char (n mod 10)]) ++ acc).
        rewrite Hds. cbn [app]. rewrite <- app_assoc. reflexivity.
      * intros a0 rest.
        replace ((d :: ds ++ [App.digit_char (n mod 10)]) ++ rest)
          with ((d :: ds) ++ App.digit_char (n mod 10) :: rest)
          by (cbn [app]; rewrite <- app_assoc; reflexivity).
        rewrite Hscan. cbn [App.scan_digits].
        rewrite isdigit_digit_char, code_digit_char by lia.
        f_equal.
        replace (List.length (d :: ds ++ [App.digit_char (n mod 10)]))
          with (S (List.length (d :: ds)))
          by (cbn [List.length]; rewrite length_app; cbn; lia).
        rewrite Nat2Z.inj_succ, Z.pow_succ_r by lia. lia.
Qed.

Lemma isdigit_not_space c : App.isdigit c = true -> App.isspace c = false.
Proof.
  unfold App.isdigit, App.isspace. intros H.
  apply andb_prop in H. destruct H as [H1 H2].
  apply Z.leb_le in H1. apply Z.leb_le in H2.
  destruct (Z.eqb_spec (App.code c) 32); [lia |].
  destruct (Z.leb_spec (App.code c) 13); [lia |].
  rewrite andb_false_r. reflexivity.
Qed.

Lemma isdigit_not_char c x :
  App.isdigit c = true -> App.isdigit x = false -> Ascii.eqb c x = false.
Proof.
  intros Hc Hx. destruct (Ascii.eqb_spec c x) as [-> | _]; [| reflexivity].
  congruence.
Qed.

(** [%d] of [scanf] reads back what [%d] of [printf] wrote for a
    non-negative [int]. *)
Lemma scan_d_fmt_d n rest :
  0 <= n <= INT_MAX ->
  stops rest ->
  App.scan_d (App.fmt_d n ++ rest) = App.Conv n rest.
Proof.
  intros Hn Hs. unfold App.fmt_d.
  destruct (Z.ltb_spec n 0); [lia |].
  destruct (digits_aux_scan 9 n []) as (d & ds & Hds & Hd & Hscan).
  { unfold INT_MAX in Hn. cbn. lia. }
  rewrite Hds, app_nil_r. unfold App.scan_d.
  cbn [app App.skip_space]. rewrite (isdigit_not_space d Hd).
  rewrite (isdigit_not_char d "-" Hd), (isdigit_not_char d "+" Hd)
    by reflexivity.
  cbn [orb]. rewrite Hd.
  change (d :: ds ++ rest) with ((d :: ds) ++ rest).
  rewrite Hscan, Z.mul_0_l, Z.add_0_l, (scan_digits_stops n rest Hs).
  unfold in_int, INT_MIN. unfold INT_MAX in Hn.
  destruct (Z.leb_spec (- 2 ^ 31) n); [| lia].
  destruct (Z.leb_spec n INT_MAX); [reflexivity | unfold INT_MAX in *; lia].
Qed.

Lemma sscanf_renderer_string a b c a0 b0 c0 :
  0 <= a <= INT_MAX -> 0 <= b <= INT_MAX -> 0 <= c <= INT_MAX ->
  App.sscanf_d_d_d (skipn 9 (App.renderer_string a b c)) a0 b0 c0
    = Done (3, (a, b, c)).
Proof.
  intros Ha Hb Hc.
  change (skipn 9 (App.renderer_string a b c))
    with (App.fmt_d a ++ "-"%char :: App.fmt_d b ++ "-"%char :: App.fmt_d c).
  unfold App.sscanf_d_d_d.
  rewrite (scan_d_fmt_d a) by (exact Ha || reflexivity).
  cbn [App.scan_lit Ascii.eqb Bool.eqb andb].
  rewrite (scan_d_fmt_d b) by (exact Hb || reflexivity).
  cbn [App.scan_lit Ascii.eqb Bool.eqb andb].
  rewrite <- (app_nil_r (App.fmt_d c)).
  rewrite (scan_d_fmt_d c) by (exact Hc || exact I).
  reflexivity.
Qed.

Lemma parse_renderer_string a b c rest cfg r :
  0 <= a <= INT_MAX -> 0 <= b <= INT_MAX -> 0 <= c <= INT_MAX ->
  App.parse_args (App.renderer_string a b c :: rest) cfg r
    = App.parse_args rest cfg (App.set_ra_fds (a, b, c) r).
Proof.
  intros Ha Hb Hc. cbn [App.parse_args].
  change (firstn 9 (App.renderer_string a b c)) with (App.cstr "renderer-").
  change (App.str_eqb (App.cstr "renderer-") (App.cstr "renderer-")) with true.
  cbv iota.
  rewrite (sscanf_renderer_string a b c) by assumption.
  reflexivity.
Qed.

(** C9: for non-negative descriptor numbers, when the token
    ["renderer-<in>-<out>-<heap>"] is shorter than 32 characters,
    [app_init_renderer] builds the child's argument vector and [main], run
    on that vector, takes the renderer's role with exactly these three
    descriptors (and the demo's size, output count and the controller's
    import path); when the token has 32 characters or more,
    [app_init_renderer] aborts. *)
Theorem renderer_token_round_trip
    (cfg : App.app_config) (argv0 : list ascii) (a b c : Z) :
  0 <= a <= INT_MAX -> 0 <= b <= INT_MAX -> 0 <= c <= INT_MAX ->
  let token := App.renderer_string a b c in
  ((List.length token < 32)%nat ->
   exists argv,
     App.child_argv cfg argv0 a b c = Done argv /\
     nth_error argv 1 = Some token /\
     App.main_role argv
       = App.AsRenderer 600 600 64 a b c (App.use_udmabuf cfg)) /\
  ((32 <= List.length token)%nat ->
   App.child_argv cfg argv0 a b c
     = Fatal "failed to format the renderer string").
Proof.
  intros Ha Hb Hc token. split; intros Hlen; unfold App.child_argv;
    fold token.
  - destruct (Z.leb_spec 32 (Z.of_nat (List.length token))); [lia |].
    eexists. split; [reflexivity |]. split; [reflexivity |].
    unfold App.main_role. cbn [tl]. unfold token.
    rewrite parse_renderer_string by assumption.
    destruct (App.use_udmabuf cfg); reflexivity.
  - destruct (Z.leb_spec 32 (Z.of_nat (List.length token))); [| lia].
    reflexivity.
Qed.

(** * Worked instances *)


(** C6 for the demo: the twelve bytes of [0, 4096, 1441792]. *)
Lemma handshake_three_values_witness :
  App.app_handshake (app_world_with (handshake_bytes demo_layout))
  = (Done (0, 4096, 1441792),
     log_all [App.EvRecv 0; App.EvRecv 4096; App.EvRecv 1441792]
       (App.set_ctrl {| rx := []; tx := []; tx_open := true |}
          (app_world_with (handshake_bytes demo_layout)))).
Proof.
  apply (handshake_three_values (demo_config false) demo_heap
           (exact_device VK_EXTERNAL_MEMORY_FEATURE_IMPORTABLE_BIT 4096)
           4096 demo_layout (renderer_world_with []) (Done tt)
           (demo_app0 true) 0
           (app_world_with (handshake_bytes demo_layout)) []).
  - reflexivity.
  - reflexivity.
  - reflexivity.
Defined.

(** C9 for the descriptors 3, 6 and 7. *)
Lemma renderer_token_round_trip_witness :
  exists argv,
    App.child_argv App.default_config (App.cstr "./vkmemfd") 3 6 7
      = Done argv /\
    nth_error argv 1 = Some (App.cstr "renderer-3-6-7") /\
    App.main_role argv = App.AsRenderer 600 600 64 3 6 7 false.
Proof.
  apply (renderer_token_round_trip App.default_config
           (App.cstr "./vkmemfd") 3 6 7).
  - unfold INT_MAX. lia.
  - unfold INT_MAX. lia.
  - unfold INT_MAX. lia.
  - cbn. lia.
Defined.

(** The controller accepts the truncated layout of that driver without
    any error: the two processes go on with different layouts. *)
Lemma truncated_layout_accepted :
  Renderer.renderer_init_heap_layout (demo_config false) demo_heap
    greedy_device 4096 = Done greedy_layout /\
  fst (App.main_controller (demo_app0 true) 0
         (app_world_with (handshake_bytes greedy_layout)))
  = Done App.loop_init /\
  Renderer.ubo_size greedy_layout = 4294971392.
Proof. repeat split. Qed.

(** Two turns of the demo's controller against a renderer that echoes:
    the requests are 0 and 1 and the loop goes on. *)
Lemma mainloop_two_frames :
  let r := App.app_mainloop (demo_app true) 2
             (app_world_with (encode_u32 0 ++ encode_u32 1)) in
  fst r = Done (loop_at 64 2) /\
  requests (App.trace (snd r)) = [0; 1] /\
  tx (App.ctrl (snd r)) = encode_u32 0 ++ encode_u32 1 /\
  cache_ops (App.trace (snd r)) = [].
Proof. vm_compute. repeat split. Qed.

(** One turn of the renderer on the request 5. *)
Lemma renderer_turn_on_five :
  let r := Renderer.renderer_mainloop (demo_config false) 1
             (renderer_world_with (encode_u32 5)) in
  fst r = Done tt /\
  tx (Renderer.ctrl (snd r)) = encode_u32 5 /\
  Renderer.submitted (snd r) = [5].
Proof. vm_compute. repeat split. Qed.

(** A frame of a 130-byte image under the "incoherent" assumption: one
    fence and one flush after the write, three flushes and one fence
    before the read. *)
Lemma incoherent_small_frame :
  let a := {| App.config := App.set_coherent false App.default_config;
              App.heap_base := 4096; App.img_size := 130;
              App.mems_ubo := 4096;
              App.mems_outputs := [8192; 12288] |} in
  App.trace (snd (App.app_render_frame a 1 (red 1)
                    (app_world_with (encode_u32 1))))
    = [App.EvMemcpyUbo 4096 (red 1); App.EvMfence; App.EvClflush 4096;
       App.EvSend 1; App.EvRecv 1] /\
  App.trace (snd (App.app_present_frame a 1 (app_world_with [])))
    = [App.EvClflush 12288; App.EvClflush 12352; App.EvClflush 12416;
       App.EvMfence; App.EvPutImage 12288 130; App.EvXcbFlush;
       App.EvUsleep 16666].
Proof. vm_compute. split; reflexivity. Qed.

(** The demo's objects are what the code computes: [demo_layout] is the
    negotiated layout, and [demo_app] is what [app_init_memories] makes of
    it. *)
Lemma demo_objects coherent :
  Renderer.renderer_init_heap_layout (demo_config false) demo_heap
    (exact_device VK_EXTERNAL_MEMORY_FEATURE_IMPORTABLE_BIT 4096) 4096
    = Done demo_layout /\
  App.app_init_memories (demo_app0 coherent) 0 4096 1441792
    (app_world_with [])
    = (Done (demo_app coherent), app_world_with []).
Proof. destruct coherent; split; reflexivity. Qed.

(** * Further properties *)

(** ** The renderer's device *)

Lemma version_floor version :
  0 <= version ->
  (version <? RendererSetup.VK_MAKE_VERSION 1 1 0) = false
  <-> at_least_1_1 version.
Proof.
  intros Hv. unfold at_least_1_1, RendererSetup.VK_VERSION_MAJOR,
    RendererSetup.VK_VERSION_MINOR.
  change (RendererSetup.VK_MAKE_VERSION 1 1 0) with 4198400.
  change 1023 with (Z.ones 10).
  rewrite Z.land_ones, !Z.shiftr_div_pow2 by lia.
  change (2 ^ 22) with 4194304. change (2 ^ 12) with 4096.
  change (2 ^ 10) with 1024.
  destruct (Z.ltb_spec version 4198400); split; intros H';
    try discriminate; try reflexivity;
    Z.to_euclidean_division_equations; lia.
Qed.

(** X1: the instance and the physical device are accepted exactly when
    their version is 1.1 or later, whatever the patch level, and creation
    or enumeration worked; enumeration may report more devices than the one
    asked for ([VK_INCOMPLETE]) but must have written one. *)
Theorem vulkan_1_1_floor
    (version create_res res written apiVersion : Z) :
  0 <= version -> 0 <= apiVersion ->
  (RendererSetup.renderer_init_vk_instance version create_res = Done tt
   <-> at_least_1_1 version /\ create_res = VK_SUCCESS) /\
  (RendererSetup.renderer_init_vk_physical_device res written apiVersion
     = Done tt
   <-> (res = VK_SUCCESS \/ res = RendererSetup.VK_INCOMPLETE) /\
       written <> 0 /\ at_least_1_1 apiVersion).
Proof.
  intros Hv Ha. split.
  - unfold RendererSetup.renderer_init_vk_instance, Renderer.renderer_vk.
    pose proof (version_floor version Hv) as F.
    destruct (version <? RendererSetup.VK_MAKE_VERSION 1 1 0).
    + split; [discriminate |]. intros [H _]. apply F in H. discriminate.
    + destruct (Z.eqb_spec create_res VK_SUCCESS); split; intros H;
        try discriminate; try reflexivity.
      * split; [apply F; reflexivity | assumption].
      * destruct H; contradiction.
  - unfold RendererSetup.renderer_init_vk_physical_device,
      Renderer.renderer_vk.
    pose proof (version_floor apiVersion Ha) as F.
    destruct (Z.eqb_spec res RendererSetup.VK_INCOMPLETE) as [Ei | Ei];
      cbn [negb rbind].
    + destruct (Z.eqb_spec written 0) as [Ew | Ew].
      * split; [discriminate | intros (_ & H & _); contradiction].
      * destruct (apiVersion <? RendererSetup.VK_MAKE_VERSION 1 1 0).
        -- split; [discriminate |]. intros (_ & _ & H). apply F in H.
           discriminate.
        -- split; [| reflexivity]. intros _.
           split; [auto |]. split; [assumption | apply F; reflexivity].
    + destruct (Z.eqb_spec res VK_SUCCESS) as [Es | Es]; cbn [rbind].
      * destruct (Z.eqb_spec written 0) as [Ew | Ew].
        -- split; [discriminate | intros (_ & H & _); contradiction].
        -- destruct (apiVersion <? RendererSetup.VK_MAKE_VERSION 1 1 0).
           ++ split; [discriminate |]. intros (_ & _ & H). apply F in H.
              discriminate.
           ++ split; [| reflexivity]. intros _.
              split; [auto |]. split; [assumption | apply F; reflexivity].
      * split; [discriminate |]. intros ([H | H] & _); contradiction.
Qed.

Lemma vulkan_1_1_floor_witness :
  RendererSetup.renderer_init_vk_instance
    (RendererSetup.VK_MAKE_VERSION 1 3 250) VK_SUCCESS = Done tt
  <-> at_least_1_1 (RendererSetup.VK_MAKE_VERSION 1 3 250)
      /\ VK_SUCCESS = VK_SUCCESS.
Proof.
  apply (vulkan_1_1_floor (RendererSetup.VK_MAKE_VERSION 1 3 250) VK_SUCCESS
           VK_SUCCESS 1 (RendererSetup.VK_MAKE_VERSION 1 0 3)).
  - cbn. lia.
  - cbn. lia.
Defined.

Lemma ext_found_In name exts :
  RendererSetup.ext_found name exts = true <-> In name exts.
Proof.
  induction exts as [| e rest IH]; cbn.
  - split; [discriminate | contradiction].
  - destruct (String.eqb_spec e name) as [-> | Hne].
    + split; auto.
    + rewrite IH. split; [auto |]. intros [H | H]; [contradiction | exact H].
Qed.

Lemma forallb_false_exists {A} (f : A -> bool) (l : list A) :
  forallb f l = false -> exists x, In x l /\ f x = false.
Proof.
  induction l as [| a l IH]; cbn; [discriminate |].
  destruct (f a) eqn:Hfa; cbn.
  - intros H. destruct (IH H) as (x & Hx & Hf). exists x. auto.
  - intros _. exists a. auto.
Qed.

(** What the outer loop of [renderer_init_vk_device] does with the table
    of an import path. *)
Lemma enable_exts_path use_udmabuf exts :
  RendererSetup.enable_exts (RendererSetup.ext_table use_udmabuf) exts [] =
  if forallb (fun n => RendererSetup.ext_found n exts)
       (path_extensions use_udmabuf)
  then Done (path_extensions use_udmabuf)
  else Fatal "missing extensions".
Proof.
  destruct use_udmabuf; cbn.
  - destruct (RendererSetup.ext_found "VK_KHR_external_memory_fd" exts);
      cbn; [| reflexivity].
    destruct (RendererSetup.ext_found "VK_EXT_external_memory_dma_buf" exts);
      reflexivity.
  - destruct (RendererSetup.ext_found "VK_EXT_external_memory_host" exts);
      reflexivity.
Qed.

(** X2: when [renderer_init_vk_device] creates the device, the extensions
    it enables are exactly those of the import path in use (the two
    handle-import extensions on the udmabuf path, the host-pointer
    extension otherwise, never both families), each of them is one the
    device reported, and queue family 0 supports graphics; and once the
    extensions were enumerated, it aborts with "missing extensions" exactly
    when the device lacks one of the path's extensions. *)
Theorem device_extensions_of_path
    (use_udmabuf : bool) (ans : RendererSetup.device_answers) :
  RendererSetup.count_result ans = VK_SUCCESS ->
  RendererSetup.ext_malloc_ok ans = true ->
  RendererSetup.enum_result ans = VK_SUCCESS ->
  let r := RendererSetup.renderer_init_vk_device use_udmabuf ans in
  (forall enabled,
     r = Done enabled ->
     enabled = path_extensions use_udmabuf /\
     (forall n, In n enabled -> In n (RendererSetup.ext_props ans)) /\
     Renderer.has_bit (RendererSetup.queueFlags ans)
       RendererSetup.VK_QUEUE_GRAPHICS_BIT = true /\
     RendererSetup.device_result ans = VK_SUCCESS) /\
  (r = Fatal "missing extensions" <->
   exists n, In n (path_extensions use_udmabuf) /\
             ~ In n (RendererSetup.ext_props ans)).
Proof.
  intros Hc Hm He r. subst r.
  unfold RendererSetup.renderer_init_vk_device, Renderer.renderer_vk.
  rewrite Hc, Hm, He. cbn [Z.eqb VK_SUCCESS negb rbind].
  rewrite enable_exts_path.
  destruct (forallb _ (path_extensions use_udmabuf)) eqn:Hall; cbn [rbind].
  - rewrite forallb_forall in Hall.
    split.
    + intros enabled.
      destruct (Renderer.has_bit _ _); cbn [negb]; [| discriminate].
      destruct (RendererSetup.device_result ans =? _) eqn:Hd;
        cbn [rbind]; [| discriminate].
      apply Z.eqb_eq in Hd.
      intros H. injection H as <-.
      repeat split; auto.
      intros n Hn. apply ext_found_In, Hall, Hn.
    + split.
      * destruct (Renderer.has_bit _ _); cbn [negb]; [| discriminate].
        destruct (RendererSetup.device_result ans =? _); discriminate.
      * intros (n & Hn & Hnot). exfalso. apply Hnot.
        apply ext_found_In, Hall, Hn.
  - split; [discriminate |]. split; [intros _ | reflexivity].
    destruct (forallb_false_exists _ _ Hall) as (n & Hn & Hf).
    exists n. split; [exact Hn |]. intros Hin.
    apply ext_found_In in Hin. congruence.
Qed.

Lemma device_extensions_of_path_witness :
  RendererSetup.renderer_init_vk_device true
    {| RendererSetup.count_result := VK_SUCCESS;
       RendererSetup.ext_malloc_ok := true;
       RendererSetup.enum_result := VK_SUCCESS;
       RendererSetup.ext_props :=
         ["VK_KHR_swapchain"%string; "VK_KHR_external_memory_fd"%string;
          "VK_EXT_external_memory_host"%string];
       RendererSetup.queueFlags := 7;
       RendererSetup.device_result := VK_SUCCESS |}
  = Fatal "missing extensions"
  <-> exists n,
        In n (path_extensions true) /\
        ~ In n ["VK_KHR_swapchain"%string; "VK_KHR_external_memory_fd"%string;
                "VK_EXT_external_memory_host"%string].
Proof.
  apply (device_extensions_of_path true
           {| RendererSetup.count_result := VK_SUCCESS;
              RendererSetup.ext_malloc_ok := true;
              RendererSetup.enum_result := VK_SUCCESS;
              RendererSetup.ext_props :=
                ["VK_KHR_swapchain"%string;
                 "VK_KHR_external_memory_fd"%string;
                 "VK_EXT_external_memory_host"%string];
              RendererSetup.queueFlags := 7;
              RendererSetup.device_result := VK_SUCCESS |}).
  - reflexivity.
  - reflexivity.
  - reflexivity.
Defined.

(** ** Importing the heap *)

Lemma ffs_from_lowest fuel :
  forall i x,
    0 <= i ->
    (forall j, 0 <= j < i -> Z.testbit x j = false) ->
    (exists j, i <= j < i + Z.of_nat fuel /\ Z.testbit x j = true) ->
    let k := RendererSetup.ffs_from fuel i x - 1 in
    i <= k < i + Z.of_nat fuel /\
    Z.testbit x k = true /\
    forall j, 0 <= j < k -> Z.testbit x j = false.
Proof.
  induction fuel as [| fuel IH]; intros i x Hi Hlow (j & Hj & Hb).
  - lia.
  - cbn [RendererSetup.ffs_from].
    destruct (Z.testbit x i) eqn:Hbit.
    + cbv zeta. replace (i + 1 - 1) with i by lia.
      split; [lia |]. split; [exact Hbit | exact Hlow].
    + assert (Hj' : i + 1 <= j < i + 1 + Z.of_nat fuel).
      { destruct (Z.eq_dec j i) as [-> | Hne]; [congruence | lia]. }
      destruct (IH (i + 1) x ltac:(lia)) as (Hk & Hkb & Hkl).
      * intros j' Hj''. destruct (Z.eq_dec j' i) as [-> | Hne];
          [exact Hbit | apply Hlow; lia].
      * exists j. auto.
      * cbv zeta. split; [lia |]. split; assumption.
Qed.

(** [ffs] finds the least significant set bit of a non-zero 32-bit
    pattern. *)
Lemma ffs_lowest x :
  u32 x <> 0 ->
  let k := RendererSetup.ffs x - 1 in
  0 <= k < 32 /\
  Z.testbit x k = true /\
  forall j, 0 <= j < k -> Z.testbit x j = false.
Proof.
  intros Hx. pose proof (u32_range x) as Hr.
  assert (Hbit : exists j, 0 <= j < 0 + Z.of_nat 32
                           /\ Z.testbit (u32 x) j = true).
  { exists (Z.log2 (u32 x)).
    split; [| apply Z.bit_log2; lia].
    split; [apply Z.log2_nonneg |].
    change (0 + Z.of_nat 32) with 32. apply Z.log2_lt_pow2; lia. }
  destruct (ffs_from_lowest 32 0 (u32 x) ltac:(lia) ltac:(intros; lia) Hbit)
    as (Hk & Hkb & Hkl).
  fold (RendererSetup.ffs x) in Hk, Hkb, Hkl.
  cbv zeta. change (0 + Z.of_nat 32) with 32 in Hk.
  split; [exact Hk |].
  unfold u32 in Hkb, Hkl.
  rewrite Z.mod_pow2_bits_low in Hkb by lia.
  split; [exact Hkb |].
  intros j Hj. specialize (Hkl j Hj).
  rewrite Z.mod_pow2_bits_low in Hkl by lia. exact Hkl.
Qed.

(** Every way [renderer_alloc_heap_buffer] returns. *)
Lemma alloc_heap_buffer_done use_udmabuf h ans offset size props type_bits
    w w' :
  RendererSetup.renderer_alloc_heap_buffer use_udmabuf h ans offset size
    props type_bits w = (Done tt, w') ->
  let mem_types := Z.land (u32 type_bits)
                     (u32 (RendererSetup.import_type_bits ans)) in
  exists src,
    mem_types <> 0 /\
    RendererSetup.allocations w'
      = RendererSetup.allocations w
        ++ [{| RendererSetup.alloc_source := src;
               RendererSetup.alloc_dedicated :=
                 Renderer.has_bit props
                   VK_EXTERNAL_MEMORY_FEATURE_DEDICATED_ONLY_BIT;
               RendererSetup.allocationSize := size;
               RendererSetup.memoryTypeIndex :=
                 u32 (RendererSetup.ffs mem_types - 1) |}] /\
    (if use_udmabuf then
       src = RendererSetup.ImportFd (RendererSetup.udmabuf_fd ans) /\
       0 <= RendererSetup.udmabuf_fd ans /\
       (exists fd, RendererSetup.heap_union h = RendererSetup.HeapUdmabuf fd) /\
       RendererSetup.udmabuf_requests w'
         = RendererSetup.udmabuf_requests w
           ++ [RendererSetup.udmabuf_create_request
                 (RendererSetup.heap_memfd h) offset size]
     else
       (exists base,
          RendererSetup.heap_union h = RendererSetup.HeapBase base /\
          src = RendererSetup.ImportHostPointer (base + offset)) /\
       RendererSetup.udmabuf_requests w' = RendererSetup.udmabuf_requests w).
Proof.
  unfold RendererSetup.renderer_alloc_heap_buffer, bind,
    RendererSetup.lift, Renderer.renderer_vk, fatal, undefined, ret,
    RendererSetup.log_request, RendererSetup.log_allocation, modify.
  destruct (RendererSetup.buffer_result ans =? VK_SUCCESS);
    [| discriminate].
  destruct use_udmabuf; destruct (RendererSetup.heap_union h) as [b | fd]
    eqn:Hu; try discriminate.
  - destruct (Z.ltb_spec (RendererSetup.udmabuf_fd ans) 0);
      [discriminate |].
    destruct (RendererSetup.props_result ans =? VK_SUCCESS);
      [| discriminate].
    destruct (Z.eqb_spec (Z.land (u32 type_bits)
                (u32 (RendererSetup.import_type_bits ans))) 0);
      [discriminate |].
    destruct (RendererSetup.allocate_result ans =? VK_SUCCESS);
      [| discriminate].
    destruct (RendererSetup.bind_result ans =? VK_SUCCESS);
      [| discriminate].
    intros E. injection E as <-. cbn.
    eexists. split; [assumption |]. split; [reflexivity |].
    repeat split; eauto.
  - destruct (RendererSetup.props_result ans =? VK_SUCCESS);
      [| discriminate].
    destruct (Z.eqb_spec (Z.land (u32 type_bits)
                (u32 (RendererSetup.import_type_bits ans))) 0);
      [discriminate |].
    destruct (RendererSetup.allocate_result ans =? VK_SUCCESS);
      [| discriminate].
    destruct (RendererSetup.bind_result ans =? VK_SUCCESS);
      [| discriminate].
    intros E. injection E as <-. cbn.
    eexists. split; [assumption |]. split; [reflexivity |].
    repeat split; eauto.
Qed.

Lemma land_u32_bits a b k :
  0 <= k < 32 ->
  Z.testbit (Z.land (u32 a) (u32 b)) k = Z.testbit a k && Z.testbit b k.
Proof.
  intros Hk. unfold u32.
  rewrite Z.land_spec, !Z.mod_pow2_bits_low by lia. reflexivity.
Qed.

Lemma land_u32_small a b : u32 (Z.land (u32 a) (u32 b)) = Z.land (u32 a) (u32 b).
Proof.
  apply u32_small. pose proof (u32_range a). pose proof (u32_range b).
  assert (Hn : 0 <= Z.land (u32 a) (u32 b)) by (apply Z.land_nonneg; lia).
  split; [exact Hn |].
  destruct (Z.eq_dec (Z.land (u32 a) (u32 b)) 0) as [-> | Hz]; [lia |].
  apply Z.log2_lt_pow2; [lia |].
  pose proof (Z.log2_land (u32 a) (u32 b) ltac:(lia) ltac:(lia)) as Hl.
  assert (Z.log2 (u32 a) < 32).
  { destruct (Z.eq_dec (u32 a) 0) as [E | E]; [rewrite E; cbn; lia |].
    apply Z.log2_lt_pow2; lia. }
  lia.
Qed.

(** X3: when [renderer_alloc_heap_buffer] succeeds it has made one device
    allocation, of exactly the region's size, dedicated exactly when the
    import is dedicated-only, from the lowest-indexed memory type that both
    the buffer and the import accept; on the udmabuf path what is imported
    is the descriptor of one [UDMABUF_CREATE] request for the region's
    offset and size of the heap's memfd, on the host-pointer path it is the
    address of the region in the mapping and no request is made. *)
Theorem import_lowest_common_type
    (use_udmabuf : bool) (h : RendererSetup.heap)
    (ans : RendererSetup.import_answers) (offset size props type_bits : Z)
    (w w' : RendererSetup.imports) :
  RendererSetup.renderer_alloc_heap_buffer use_udmabuf h ans offset size
    props type_bits w = (Done tt, w') ->
  exists a,
    RendererSetup.allocations w' = RendererSetup.allocations w ++ [a] /\
    RendererSetup.allocationSize a = size /\
    RendererSetup.alloc_dedicated a
      = Renderer.has_bit props VK_EXTERNAL_MEMORY_FEATURE_DEDICATED_ONLY_BIT /\
    (let k := RendererSetup.memoryTypeIndex a in
     0 <= k < 32 /\
     usable_type type_bits (RendererSetup.import_type_bits ans) k /\
     forall j, 0 <= j < k ->
       ~ usable_type type_bits (RendererSetup.import_type_bits ans) j) /\
    (use_udmabuf = true ->
     RendererSetup.alloc_source a
       = RendererSetup.ImportFd (RendererSetup.udmabuf_fd ans) /\
     RendererSetup.udmabuf_requests w'
       = RendererSetup.udmabuf_requests w
         ++ [RendererSetup.udmabuf_create_request
               (RendererSetup.heap_memfd h) offset size]) /\
    (use_udmabuf = false ->
     (exists base,
        RendererSetup.heap_union h = RendererSetup.HeapBase base /\
        RendererSetup.alloc_source a
          = RendererSetup.ImportHostPointer (base + offset)) /\
     RendererSetup.udmabuf_requests w' = RendererSetup.udmabuf_requests w).
Proof.
  intros H. apply alloc_heap_buffer_done in H. cbv zeta in H.
  destruct H as (src & Hnz & Hal & Hsrc).
  eexists. split; [exact Hal |].
  cbn [RendererSetup.allocationSize RendererSetup.alloc_dedicated
       RendererSetup.memoryTypeIndex RendererSetup.alloc_source].
  split; [reflexivity |]. split; [reflexivity |].
  split.
  - rewrite <- land_u32_small in Hnz.
    destruct (ffs_lowest _ Hnz) as (Hk & Hkb & Hkl). cbv zeta.
    rewrite (u32_small (_ - 1)) by lia.
    split; [exact Hk |]. split.
    + rewrite land_u32_bits in Hkb by exact Hk.
      apply andb_prop in Hkb. exact Hkb.
    + intros j Hj [U1 U2]. specialize (Hkl j Hj).
      rewrite land_u32_bits, U1, U2 in Hkl by lia. discriminate.
  - destruct use_udmabuf.
    + destruct Hsrc as (-> & _ & _ & Hreq).
      split; [auto | discriminate].
    + destruct Hsrc as ((base & Hb & ->) & Hreq).
      split; [discriminate |]. intros _. split; [| exact Hreq].
      exists base. auto.
Qed.

Lemma import_lowest_common_type_witness :
  exists a,
    RendererSetup.allocations
      (snd (RendererSetup.renderer_alloc_heap_buffer false mapped_heap
              (import_ok 12) 4096 1441792
              VK_EXTERNAL_MEMORY_FEATURE_IMPORTABLE_BIT 6 no_imports))
    = [] ++ [a] /\
    RendererSetup.allocationSize a = 1441792 /\
    RendererSetup.alloc_dedicated a = false.
Proof.
  destruct (import_lowest_common_type false mapped_heap (import_ok 12)
              4096 1441792 VK_EXTERNAL_MEMORY_FEATURE_IMPORTABLE_BIT 6
              no_imports
              (snd (RendererSetup.renderer_alloc_heap_buffer false
                      mapped_heap (import_ok 12) 4096 1441792
                      VK_EXTERNAL_MEMORY_FEATURE_IMPORTABLE_BIT 6
                      no_imports))
              eq_refl)
    as (a & H1 & H2 & H3 & _).
  exists a. split; [exact H1 |]. split; [exact H2 | exact H3].
Defined.

(** The type picked for a buffer that accepts types 1 and 2 and an import
    that accepts types 2 and 3 is type 2. *)
Lemma import_type_example :
  map RendererSetup.memoryTypeIndex
    (RendererSetup.allocations
       (snd (RendererSetup.renderer_alloc_heap_buffer false mapped_heap
               (import_ok 12) 4096 1441792
               VK_EXTERNAL_MEMORY_FEATURE_IMPORTABLE_BIT 6 no_imports)))
  = [2].
Proof. reflexivity. Qed.

Lemma output_offsets_succ start size n :
  output_offsets start size (S n)
  = start :: output_offsets (start + size) size n.
Proof.
  unfold output_offsets. cbn [seq map].
  f_equal; [cbn; lia |].
  rewrite <- seq_shift, map_map. apply map_ext. intros i. lia.
Qed.

(** The loop over the outputs imports them one after the other. *)
Lemma alloc_outputs_done use_udmabuf h answers l type_bits n :
  forall offset w w',
    RendererSetup.alloc_outputs use_udmabuf h answers l type_bits n offset w
      = (Done tt, w') ->
    0 <= offset -> 0 <= Renderer.output_size l ->
    offset + Z.of_nat n * Renderer.output_size l < 2 ^ 64 ->
    let offs := output_offsets offset (Renderer.output_size l) n in
    exists new,
      RendererSetup.allocations w' = RendererSetup.allocations w ++ new /\
      map RendererSetup.allocationSize new
        = map (fun _ => Renderer.output_size l) offs /\
      (if use_udmabuf then
         RendererSetup.udmabuf_requests w'
           = RendererSetup.udmabuf_requests w
             ++ map (fun o => RendererSetup.udmabuf_create_request
                                (RendererSetup.heap_memfd h) o
                                (Renderer.output_size l)) offs
       else
         RendererSetup.udmabuf_requests w'
           = RendererSetup.udmabuf_requests w /\
         forall base,
           RendererSetup.heap_union h = RendererSetup.HeapBase base ->
           map RendererSetup.alloc_source new
             = map (fun o => RendererSetup.ImportHostPointer (base + o))
                 offs).
Proof.
  induction n as [| n IH]; intros offset w w' H Ho Hs Hfit.
  - cbn in H. injection H as <-. exists []. cbn.
    rewrite app_nil_r. destruct use_udmabuf;
      [rewrite app_nil_r; auto | auto].
  - cbn [RendererSetup.alloc_outputs] in H. unfold bind in H.
    destruct (RendererSetup.renderer_alloc_heap_buffer _ _ _ _ _ _ _ w)
      as [[[] | m | | sg] w1] eqn:H1; try discriminate.
    apply alloc_heap_buffer_done in H1. cbv zeta in H1.
    destruct H1 as (src & _ & Hal1 & Hsrc).
    rewrite u64_small in H by lia.
    destruct (IH _ _ _ H ltac:(lia) Hs ltac:(lia))
      as (new & Hal & Hsz & Hrest).
    cbv zeta. rewrite output_offsets_succ.
    eexists (_ :: new). split; [rewrite Hal, Hal1, <- app_assoc; reflexivity |].
    cbn [map RendererSetup.allocationSize RendererSetup.alloc_source].
    split; [rewrite Hsz; reflexivity |].
    destruct use_udmabuf.
    + destruct Hsrc as (_ & _ & _ & Hreq).
      rewrite Hrest, Hreq, <- app_assoc. reflexivity.
    + destruct Hsrc as ((b & Hb & ->) & Hreq). destruct Hrest as [Hr Hp].
      split; [congruence |]. intros base Hbase.
      rewrite (Hp base Hbase). assert (b = base) by congruence. subst b.
      reflexivity.
Qed.

(** Every way [renderer_init_heap_buffers] returns. *)
Lemma init_heap_buffers_done
    (cfg : Renderer.renderer_config) (h : RendererSetup.heap)
    (malloc_ok : bool) (answers : Z -> RendererSetup.import_answers)
    (l : Renderer.heap_layout) (ubo_type_bits output_type_bits : Z)
    (w w' : RendererSetup.imports) :
  RendererSetup.renderer_init_heap_buffers cfg h malloc_ok answers l
    ubo_type_bits output_type_bits w = (Done tt, w') ->
  0 <= Renderer.base_skip l ->
  0 <= Renderer.ubo_size l ->
  0 <= Renderer.output_size l ->
  Renderer.base_skip l + Renderer.ubo_size l
    + Z.of_nat (Z.to_nat (Renderer.output_count cfg)) * Renderer.output_size l
    < 2 ^ 64 ->
  let regions := layout_regions l (Z.to_nat (Renderer.output_count cfg)) in
  exists new,
    RendererSetup.allocations w' = RendererSetup.allocations w ++ new /\
    map RendererSetup.allocationSize new = map snd regions /\
    (Renderer.use_udmabuf cfg = true ->
     RendererSetup.udmabuf_requests w'
       = RendererSetup.udmabuf_requests w
         ++ map (fun r => RendererSetup.udmabuf_create_request
                            (RendererSetup.heap_memfd h) (fst r) (snd r))
              regions) /\
    (Renderer.use_udmabuf cfg = false ->
     RendererSetup.udmabuf_requests w' = RendererSetup.udmabuf_requests w /\
     exists base,
       RendererSetup.heap_union h = RendererSetup.HeapBase base /\
       map RendererSetup.alloc_source new
         = map (fun r => RendererSetup.ImportHostPointer (base + fst r))
             regions).
Proof.
  intros H Hb Hu Ho Hfit regions. subst regions.
  unfold RendererSetup.renderer_init_heap_buffers in H.
  destruct malloc_ok; cbn [negb] in H; [| discriminate].
  unfold bind in H.
  destruct (RendererSetup.renderer_alloc_heap_buffer _ _ _ _ _ _ _ w)
    as [[[] | m | | sg] w1] eqn:H1; try discriminate.
  apply alloc_heap_buffer_done in H1. cbv zeta in H1.
  destruct H1 as (src & _ & Hal1 & Hsrc).
  rewrite u64_small in H by nia.
  destruct (alloc_outputs_done _ _ _ _ _ _ _ _ _ H ltac:(lia) Ho ltac:(lia))
    as (new & Hal & Hsz & Hrest).
  unfold layout_regions.
  eexists (_ :: new). split; [rewrite Hal, Hal1, <- app_assoc; reflexivity |].
  cbn [map RendererSetup.allocationSize RendererSetup.alloc_source fst snd].
  rewrite !map_map. cbn [fst snd].
  split; [rewrite Hsz; reflexivity |].
  destruct (Renderer.use_udmabuf cfg).
  - destruct Hsrc as (_ & _ & _ & Hreq).
    split; [intros _ | discriminate].
    rewrite Hrest, Hreq, <- app_assoc, ?map_map. reflexivity.
  - destruct Hsrc as ((b & Hb' & ->) & Hreq). destruct Hrest as [Hr Hp].
    split; [discriminate | intros _].
    split; [congruence |]. exists b. split; [exact Hb' |].
    rewrite (Hp b Hb'), ?map_map. reflexivity.
Qed.

(** X4: when [renderer_init_heap_buffers] succeeds (and no offset wraps
    around), it has imported exactly the regions of the layout, in order:
    the uniform region at [base_skip], then output [i] at
    [base_skip + ubo_size + i * output_size], each with an allocation of
    the slot's size. On the udmabuf path the regions are the
    [UDMABUF_CREATE] requests on the heap's memfd; on the host-pointer path
    they are the imported addresses [base + offset], and no request is
    made. *)
Theorem heap_buffers_follow_layout
    (cfg : Renderer.renderer_config) (h : RendererSetup.heap)
    (malloc_ok : bool) (answers : Z -> RendererSetup.import_answers)
    (l : Renderer.heap_layout) (ubo_type_bits output_type_bits : Z)
    (w w' : RendererSetup.imports) :
  RendererSetup.renderer_init_heap_buffers cfg h malloc_ok answers l
    ubo_type_bits output_type_bits w = (Done tt, w') ->
  0 <= Renderer.base_skip l ->
  0 <= Renderer.ubo_size l ->
  0 <= Renderer.output_size l ->
  Renderer.base_skip l + Renderer.ubo_size l
    + Z.of_nat (Z.to_nat (Renderer.output_count cfg)) * Renderer.output_size l
    < 2 ^ 64 ->
  let regions := layout_regions l (Z.to_nat (Renderer.output_count cfg)) in
  exists new,
    RendererSetup.allocations w' = RendererSetup.allocations w ++ new /\
    map RendererSetup.allocationSize new = map snd regions /\
    (Renderer.use_udmabuf cfg = true ->
     RendererSetup.udmabuf_requests w'
       = RendererSetup.udmabuf_requests w
         ++ map (fun r => RendererSetup.udmabuf_create_request
                            (RendererSetup.heap_memfd h) (fst r) (snd r))
              regions) /\
    (Renderer.use_udmabuf cfg = false ->
     RendererSetup.udmabuf_requests w' = RendererSetup.udmabuf_requests w /\
     exists base,
       RendererSetup.heap_union h = RendererSetup.HeapBase base /\
       map RendererSetup.alloc_source new
         = map (fun r => RendererSetup.ImportHostPointer (base + fst r))
             regions).
Proof.
  intros H Hb Hu Ho Hfit.
  exact (init_heap_buffers_done cfg h malloc_ok answers l ubo_type_bits
           output_type_bits w w' H Hb Hu Ho Hfit).
Qed.

Lemma heap_buffers_follow_layout_witness :
  let w' := snd (RendererSetup.renderer_init_heap_buffers (two_outputs false)
                   mapped_heap true (fun _ => import_ok 12) demo_layout 6 6
                   no_imports) in
  exists new,
    RendererSetup.allocations w' = [] ++ new /\
    map RendererSetup.allocationSize new
      = map snd (layout_regions demo_layout 2).
Proof.
  intros w'.
  destruct (heap_buffers_follow_layout (two_outputs false) mapped_heap true
              (fun _ => import_ok 12) demo_layout 6 6 no_imports w')
    as (new & H1 & H2 & _).
  - reflexivity.
  - vm_compute. discriminate.
  - vm_compute. discriminate.
  - vm_compute. discriminate.
  - vm_compute. reflexivity.
  - exists new. split; [exact H1 | exact H2].
Defined.

(** The demo's layout imported with two outputs through the mapping. *)
Lemma heap_buffers_example :
  map RendererSetup.alloc_source
    (RendererSetup.allocations
       (snd (RendererSetup.renderer_init_heap_buffers (two_outputs false)
               mapped_heap true (fun _ => import_ok 12) demo_layout 6 6
               no_imports)))
  = [RendererSetup.ImportHostPointer 139637976727552;
     RendererSetup.ImportHostPointer (139637976727552 + 4096);
     RendererSetup.ImportHostPointer (139637976727552 + 4096 + 1441792)].
Proof. reflexivity. Qed.

Lemma in_output_offsets o start size n :
  In o (output_offsets start size n) <->
  exists i, (i < n)%nat /\ o = start + Z.of_nat i * size.
Proof.
  unfold output_offsets. rewrite in_map_iff. split.
  - intros (i & <- & Hi). apply in_seq in Hi. exists i. split; [lia | auto].
  - intros (i & Hi & ->). exists i. split; [reflexivity |].
    apply in_seq. lia.
Qed.

Lemma tiles_outputs size n :
  0 <= size ->
  forall start,
    tiles start (map (fun o => (o, size)) (output_offsets start size n)) /\
    regions_end start (map (fun o => (o, size)) (output_offsets start size n))
      = start + Z.of_nat n * size.
Proof.
  intros Hs. induction n as [| n IH]; intros start.
  - cbn. split; [exact I | lia].
  - rewrite output_offsets_succ. cbn [map tiles regions_end fold_left snd].
    destruct (IH (start + size)) as [Ht He].
    split; [auto |]. unfold regions_end in He. rewrite He. lia.
Qed.

(** The regions of a layout tile the heap from [base_skip] on. *)
Lemma layout_regions_tile l n :
  0 <= Renderer.ubo_size l -> 0 <= Renderer.output_size l ->
  tiles (Renderer.base_skip l) (layout_regions l n) /\
  regions_end (Renderer.base_skip l) (layout_regions l n)
    = Renderer.base_skip l + Renderer.ubo_size l
      + Z.of_nat n * Renderer.output_size l.
Proof.
  intros Hu Ho. unfold layout_regions.
  cbn [tiles regions_end fold_left snd].
  destruct (tiles_outputs (Renderer.output_size l) n Ho
              (Renderer.base_skip l + Renderer.ubo_size l)) as [Ht He].
  split; [auto |]. exact He.
Qed.

Lemma tiles_bounds regions :
  forall start r,
    tiles start regions -> In r regions ->
    start <= fst r /\ fst r + snd r <= regions_end start regions.
Proof.
  assert (Hmono : forall rs s, tiles s rs -> s <= regions_end s rs).
  { induction rs as [| [o sz] rs IH]; intros s Ht; cbn in *; [lia |].
    destruct Ht as (_ & Hsz & Ht). specialize (IH _ Ht).
    unfold regions_end in IH. lia. }
  induction regions as [| [o s] rest IH]; intros start r Ht Hin;
    [contradiction |].
  cbn [tiles] in Ht. destruct Ht as (-> & Hs & Ht).
  cbn [regions_end fold_left snd].
  destruct Hin as [<- | Hin].
  - cbn [fst snd]. split; [lia |]. apply (Hmono rest (start + s) Ht).
  - destruct (IH _ _ Ht Hin) as [H1 H2].
    unfold regions_end in H2. split; [lia | exact H2].
Qed.

Lemma layout_regions_length l n : List.length (layout_regions l n) = S n.
Proof.
  unfold layout_regions, output_offsets. cbn [List.length].
  rewrite !length_map, length_seq. reflexivity.
Qed.

(** X5: on the udmabuf path, for a negotiated layout whose total size
    [ubo_size + output_size * output_count] is below [2^64], so that the
    renderer's check of it against the heap does not wrap around (and with
    an output count that is a non-negative [int]), the [UDMABUF_CREATE]
    requests of [renderer_init_heap_buffers] are one per region, all on the
    heap's memfd with the close-on-exec flag, they follow one another from
    offset 0 without gap or overlap, and they end inside the heap: no
    request reaches past the size [lseek] reported. *)
Theorem udmabuf_requests_inside_heap
    (cfg : Renderer.renderer_config) (h : RendererSetup.heap)
    (dev : Renderer.vk_device) (pagesize : Z) (l : Renderer.heap_layout)
    (malloc_ok : bool) (answers : Z -> RendererSetup.import_answers)
    (ubo_type_bits output_type_bits : Z) (w w' : RendererSetup.imports) :
  Renderer.use_udmabuf cfg = true ->
  Renderer.renderer_init_heap_layout cfg (layout_heap h) dev pagesize
    = Done l ->
  0 <= Renderer.output_count cfg <= INT_MAX ->
  Renderer.ubo_size l
    + Renderer.output_size l * Renderer.output_count cfg < 2 ^ 64 ->
  RendererSetup.renderer_init_heap_buffers cfg h malloc_ok answers l
    ubo_type_bits output_type_bits w = (Done tt, w') ->
  exists reqs,
    RendererSetup.udmabuf_requests w'
      = RendererSetup.udmabuf_requests w ++ reqs /\
    Z.of_nat (List.length reqs) = 1 + Renderer.output_count cfg /\
    tiles 0 (map request_span reqs) /\
    regions_end 0 (map request_span reqs) <= RendererSetup.heap_bytes h /\
    forall r, In r reqs ->
      RendererSetup.uc_memfd r = u32 (RendererSetup.heap_memfd h) /\
      RendererSetup.uc_flags r = RendererSetup.UDMABUF_FLAGS_CLOEXEC /\
      0 <= RendererSetup.uc_offset r /\
      RendererSetup.uc_offset r + RendererSetup.uc_size r
        <= RendererSetup.heap_bytes h.
Proof.
  intros Hpath Hl Hc Hfit Hrun.
  destruct (layout_sizes_64bit _ _ _ _ _ Hl) as [Hu Ho].
  destruct (init_heap_layout_done _ _ _ _ _ Hl)
    as (_ & _ & _ & _ & Hskip & _).
  rewrite Hpath in Hskip.
  pose proof (accepted_layout_fits_without_skip _ _ _ _ _ Hl Hskip Hc Hfit)
    as Hin.
  cbn [layout_heap Renderer.heap_size] in Hin.
  set (n := Z.to_nat (Renderer.output_count cfg)).
  assert (Hn : Z.of_nat n = Renderer.output_count cfg) by (unfold n; lia).
  destruct (init_heap_buffers_done _ _ _ _ _ _ _ _ _ Hrun)
    as (new & _ & _ & Hreq & _); try lia.
  specialize (Hreq Hpath). fold n in Hreq.
  destruct (layout_regions_tile l n ltac:(lia) ltac:(lia)) as [Ht He].
  rewrite Hskip in Ht, He.
  assert (Hspan : map request_span
                    (map (fun r => RendererSetup.udmabuf_create_request
                            (RendererSetup.heap_memfd h) (fst r) (snd r))
                       (layout_regions l n))
                  = layout_regions l n).
  { rewrite map_map. rewrite <- (map_id (layout_regions l n)) at 2.
    apply map_ext_in. intros [o s] Hr.
    destruct (tiles_bounds _ _ _ Ht Hr) as [B1 B2]. cbn [fst snd] in *.
    assert (0 <= s).
    { unfold layout_regions in Hr. destruct Hr as [E | Hr].
      - injection E as <- <-. lia.
      - apply in_map_iff in Hr. destruct Hr as (o' & E & _).
        injection E as <- <-. lia. }
    unfold request_span, RendererSetup.udmabuf_create_request.
    cbn [RendererSetup.uc_offset RendererSetup.uc_size].
    rewrite !u64_small by lia. reflexivity. }
  eexists. split; [exact Hreq |].
  rewrite length_map, layout_regions_length, Hspan.
  split; [lia |]. split; [exact Ht |]. split; [lia |].
  intros r Hr. apply in_map_iff in Hr. destruct Hr as ([o s] & <- & Hr).
  destruct (tiles_bounds _ _ _ Ht Hr) as [B1 B2]. cbn [fst snd] in *.
  assert (0 <= s).
  { unfold layout_regions in Hr. destruct Hr as [E | Hr].
    - injection E as <- <-. lia.
    - apply in_map_iff in Hr. destruct Hr as (o' & E & _).
      injection E as <- <-. lia. }
  unfold RendererSetup.udmabuf_create_request.
  cbn [RendererSetup.uc_memfd RendererSetup.uc_flags RendererSetup.uc_offset
       RendererSetup.uc_size].
  rewrite !u64_small by lia. repeat split; lia.
Qed.

Lemma udmabuf_requests_inside_heap_witness :
  let w' := snd (RendererSetup.renderer_init_heap_buffers (two_outputs true)
                   udmabuf_heap true (fun _ => import_ok 12)
                   demo_layout_udmabuf 6 6 no_imports) in
  exists reqs,
    RendererSetup.udmabuf_requests w' = [] ++ reqs /\
    Z.of_nat (List.length reqs) = 1 + 2 /\
    tiles 0 (map request_span reqs) /\
    regions_end 0 (map request_span reqs) <= 8 * 1024 * 1024 * 1024.
Proof.
  intros w'.
  destruct (udmabuf_requests_inside_heap (two_outputs true) udmabuf_heap
              (exact_device VK_EXTERNAL_MEMORY_FEATURE_IMPORTABLE_BIT 4096)
              4096 demo_layout_udmabuf true (fun _ => import_ok 12) 6 6
              no_imports w')
    as (reqs & H1 & H2 & H3 & H4 & _).
  - reflexivity.
  - reflexivity.
  - vm_compute. split; discriminate.
  - vm_compute. reflexivity.
  - reflexivity.
  - exists reqs. auto.
Defined.

(** Where the total wraps around, the check of the layout against the heap
    passes although the regions do not fit, and a request reaches past the
    heap: the first output of [vast_layout] ends [2^58 + 8192] bytes into a
    heap of 8 GiB. *)
Lemma wrapped_layout_request_past_heap :
  Renderer.renderer_init_heap_layout (demo_config true)
    (layout_heap udmabuf_heap) vast_device 4096 = Done vast_layout /\
  let w' := snd (RendererSetup.renderer_init_heap_buffers (demo_config true)
                   udmabuf_heap true (fun _ => import_ok 1) vast_layout 1 1
                   no_imports) in
  let r := RendererSetup.udmabuf_create_request 5 4096 (2 ^ 58 + 4096) in
  nth_error (RendererSetup.udmabuf_requests w') 1 = Some r /\
  RendererSetup.heap_bytes udmabuf_heap
    < RendererSetup.uc_offset r + RendererSetup.uc_size r.
Proof. repeat split. Qed.

Lemma mod0_divide a x : a <> 0 -> (x mod a = 0 <-> (a | x)).
Proof. intros Ha. apply Z.mod_divide. exact Ha. Qed.

(** The offsets of a layout whose skip and slot sizes are aligned relative
    to [origin] are all aligned relative to it. *)
Lemma layout_regions_divide align origin l n r :
  (align | origin + Renderer.base_skip l) ->
  (align | Renderer.ubo_size l) ->
  (align | Renderer.output_size l) ->
  In r (layout_regions l n) ->
  (align | origin + fst r) /\ (align | snd r).
Proof.
  intros Hb Hu Ho [<- | Hr].
  - cbn [fst snd]. auto.
  - apply in_map_iff in Hr. destruct Hr as (o & <- & Hin).
    apply in_output_offsets in Hin. destruct Hin as (i & _ & ->).
    cbn [fst snd]. split; [| exact Ho].
    replace (origin + (Renderer.base_skip l + Renderer.ubo_size l
                       + Z.of_nat i * Renderer.output_size l))
      with ((origin + Renderer.base_skip l)
            + (Renderer.ubo_size l + Z.of_nat i * Renderer.output_size l))
      by lia.
    apply Z.divide_add_r; [exact Hb |].
    apply Z.divide_add_r; [exact Hu |].
    apply Z.divide_mul_r. exact Ho.
Qed.

Lemma layout_regions_nonneg l n r :
  0 <= Renderer.base_skip l -> 0 <= Renderer.ubo_size l ->
  0 <= Renderer.output_size l ->
  In r (layout_regions l n) ->
  0 <= fst r /\ 0 <= snd r /\
  fst r + snd r <= Renderer.base_skip l + Renderer.ubo_size l
                   + Z.of_nat n * Renderer.output_size l.
Proof.
  intros Hb Hu Ho Hr.
  destruct (layout_regions_tile l n Hu Ho) as [Ht He].
  destruct (tiles_bounds _ _ _ Ht Hr) as [B1 B2]. rewrite He in B2.
  split; [lia |]. split; [| exact B2].
  destruct Hr as [<- | Hr]; [exact Hu |].
  apply in_map_iff in Hr. destruct Hr as (o & <- & _). exact Ho.
Qed.

(** X6: for a negotiated layout whose two slot sizes are multiples of the
    alignment the layout was computed for (the page size on the udmabuf
    path, [minImportedHostPointerAlignment] on the host-pointer path),
    everything [renderer_init_heap_buffers] imports is aligned: every
    allocation size, every imported host pointer [base + offset], and the
    offset and size of every [UDMABUF_CREATE] request are multiples of
    it. *)
Theorem imports_are_aligned
    (cfg : Renderer.renderer_config) (h : RendererSetup.heap)
    (dev : Renderer.vk_device) (pagesize : Z) (l : Renderer.heap_layout)
    (malloc_ok : bool) (answers : Z -> RendererSetup.import_answers)
    (ubo_type_bits output_type_bits : Z) (w w' : RendererSetup.imports) :
  let align := layout_alignment cfg dev pagesize in
  Renderer.renderer_init_heap_layout cfg (layout_heap h) dev pagesize
    = Done l ->
  0 < align ->
  Renderer.ubo_size l mod align = 0 ->
  Renderer.output_size l mod align = 0 ->
  Renderer.base_skip l + Renderer.ubo_size l
    + Z.of_nat (Z.to_nat (Renderer.output_count cfg)) * Renderer.output_size l
    < 2 ^ 64 ->
  RendererSetup.renderer_init_heap_buffers cfg h malloc_ok answers l
    ubo_type_bits output_type_bits w = (Done tt, w') ->
  exists new reqs,
    RendererSetup.allocations w' = RendererSetup.allocations w ++ new /\
    RendererSetup.udmabuf_requests w'
      = RendererSetup.udmabuf_requests w ++ reqs /\
    (forall a, In a new -> aligned_allocation align a) /\
    (forall r, In r reqs -> aligned_request align r).
Proof.
  intros align Hl Hpos Hu Ho Hfit Hrun.
  assert (Hz : align <> 0) by lia.
  destruct (layout_sizes_64bit _ _ _ _ _ Hl) as [Hu0 Ho0].
  destruct (base_skip_below_alignment _ _ _ _ _ Hl Hpos) as [Hskip Hsr].
  fold align in Hskip, Hsr.
  apply (mod0_divide align _ Hz) in Hu, Ho.
  set (n := Z.to_nat (Renderer.output_count cfg)) in *.
  destruct (init_heap_buffers_done _ _ _ _ _ _ _ _ _ Hrun)
    as (new & Hal & Hsz & Hud & Hhost); try lia.
  fold n in Hsz, Hud, Hhost.
  destruct (Renderer.use_udmabuf cfg) eqn:Hpath.
  - specialize (Hud eq_refl).
    assert (Hb : (align | 0 + Renderer.base_skip l))
      by (rewrite Hskip; apply Z.divide_0_r).
    exists new. eexists. split; [exact Hal |]. split; [exact Hud |].
    split.
    + intros a Ha. split.
      * assert (Hin : In (RendererSetup.allocationSize a)
                        (map snd (layout_regions l n)))
          by (rewrite <- Hsz; apply in_map; exact Ha).
        apply in_map_iff in Hin. destruct Hin as (r & <- & Hr).
        apply (mod0_divide align _ Hz).
        apply (layout_regions_divide align 0 l n r Hb Hu Ho Hr).
      * destruct (init_heap_buffers_done _ _ _ _ _ _ _ _ _ Hrun)
          as (new' & Hal' & _); try lia.
        destruct (RendererSetup.alloc_source a) eqn:Es; [exact I |].
        exfalso. clear Hal'.
        (* on this path every source is a descriptor *)
        revert a Ha Es. clear - Hrun Hpath Hal.
        unfold RendererSetup.renderer_init_heap_buffers in Hrun.
        rewrite Hpath in Hrun.
        destruct malloc_ok; [| discriminate]. cbn [negb] in Hrun.
        unfold bind in Hrun.
        destruct (RendererSetup.renderer_alloc_heap_buffer _ _ _ _ _ _ _ w)
          as [[[] | m | | sg] w1] eqn:H1; try discriminate.
        apply alloc_heap_buffer_done in H1. cbv zeta in H1.
        destruct H1 as (src & _ & Hal1 & (-> & _ & (fd & Hfd) & _)).
        assert (Hloop : forall k off wa wb,
                  RendererSetup.alloc_outputs true h answers l
                    output_type_bits k off wa = (Done tt, wb) ->
                  exists more,
                    RendererSetup.allocations wb
                      = RendererSetup.allocations wa ++ more /\
                    forall a, In a more ->
                      exists d, RendererSetup.alloc_source a
                                = RendererSetup.ImportFd d).
        { induction k as [| k IH]; intros off wa wb Hk.
          - cbn in Hk. injection Hk as <-. exists [].
            rewrite app_nil_r. split; [reflexivity | contradiction].
          - cbn [RendererSetup.alloc_outputs] in Hk. unfold bind in Hk.
            destruct (RendererSetup.renderer_alloc_heap_buffer _ _ _ _ _ _ _
                        wa) as [[[] | m | | sg] wc] eqn:Hc; try discriminate.
            apply alloc_heap_buffer_done in Hc. cbv zeta in Hc.
            destruct Hc as (s & _ & Hc & (-> & _)).
            destruct (IH _ _ _ Hk) as (more & Hm & Hfd').
            eexists (_ :: more).
            split; [rewrite Hm, Hc, <- app_assoc; reflexivity |].
            intros a [<- | Ha]; [eexists; reflexivity | auto]. }
        destruct (Hloop _ _ _ _ Hrun) as (more & Hm & Hfd').
        rewrite Hm, Hal1, <- app_assoc in Hal.
        apply app_inv_head in Hal. subst new.
        intros a [<- | Ha] Es.
        -- discriminate.
        -- destruct (Hfd' a Ha) as (d & Hd). congruence.
    + intros r Hr. apply in_map_iff in Hr. destruct Hr as (reg & <- & Hreg).
      destruct (layout_regions_divide align 0 l n reg Hb Hu Ho Hreg)
        as [D1 D2].
      destruct (layout_regions_nonneg l n reg ltac:(lia) ltac:(lia)
                  ltac:(lia) Hreg) as (N1 & N2 & N3).
      unfold aligned_request, RendererSetup.udmabuf_create_request.
      cbn [RendererSetup.uc_offset RendererSetup.uc_size].
      rewrite !u64_small by lia.
      split; apply (mod0_divide align _ Hz); [| exact D2].
      exact D1.
  - destruct (Hhost eq_refl) as (Hreq & base & Hbase & Hsrc).
    assert (Hb : (align | base + Renderer.base_skip l)).
    { rewrite Hskip. cbn [layout_heap Renderer.heap_base]. rewrite Hbase.
      pose proof (Z.mod_pos_bound base align Hpos) as Hm.
      destruct (Z.eq_dec (base mod align) 0) as [E | E].
      - rewrite E, Z.sub_0_r, Z.mod_same, Z.add_0_r by exact Hz.
        apply (mod0_divide align _ Hz). exact E.
      - rewrite (Z.mod_small (align - _)) by lia.
        exists (base / align + 1).
        pose proof (Z.div_mod base align Hz). lia. }
    exists new, []. split; [exact Hal |].
    split; [rewrite app_nil_r; exact Hreq |].
    split; [| contradiction].
    intros a Ha.
    destruct (In_nth _ _ a Ha) as (i & Hi & Hnth).
    assert (Hlen : List.length new = List.length (layout_regions l n)).
    { rewrite <- (length_map RendererSetup.allocationSize), Hsz, length_map.
      reflexivity. }
    set (r := nth i (layout_regions l n) (0, 0)).
    assert (Hr : In r (layout_regions l n))
      by (apply nth_In; rewrite <- Hlen; exact Hi).
    destruct (layout_regions_divide align base l n r Hb Hu Ho Hr) as [D1 D2].
    assert (Es : RendererSetup.alloc_source a
                 = RendererSetup.ImportHostPointer (base + fst r)).
    { rewrite <- Hnth.
      rewrite <- (map_nth RendererSetup.alloc_source), Hsrc.
      rewrite (nth_indep _ _
                 (RendererSetup.ImportHostPointer (base + fst (0, 0))))
        by (rewrite length_map, <- Hlen; exact Hi).
      rewrite (map_nth (fun r => RendererSetup.ImportHostPointer
                                   (base + fst r))).
      reflexivity. }
    assert (Ez : RendererSetup.allocationSize a = snd r).
    { rewrite <- Hnth.
      rewrite <- (map_nth RendererSetup.allocationSize), Hsz.
      rewrite (nth_indep _ _ (snd (0, 0)))
        by (rewrite length_map, <- Hlen; exact Hi).
      rewrite (map_nth snd). reflexivity. }
    unfold aligned_allocation. rewrite Es, Ez.
    split; apply (mod0_divide align _ Hz); assumption.
Qed.

Lemma imports_are_aligned_witness :
  let w' := snd (RendererSetup.renderer_init_heap_buffers (two_outputs false)
                   mapped_heap true (fun _ => import_ok 12) demo_layout 6 6
                   no_imports) in
  exists new reqs,
    RendererSetup.allocations w' = [] ++ new /\
    RendererSetup.udmabuf_requests w' = [] ++ reqs /\
    (forall a, In a new -> aligned_allocation 4096 a) /\
    (forall r, In r reqs -> aligned_request 4096 r).
Proof.
  intros w'.
  apply (imports_are_aligned (two_outputs false) mapped_heap
           (exact_device VK_EXTERNAL_MEMORY_FEATURE_IMPORTABLE_BIT 4096)
           4096 demo_layout true (fun _ => import_ok 12) 6 6 no_imports w').
  - reflexivity.
  - reflexivity.
  - reflexivity.
  - reflexivity.
  - vm_compute. reflexivity.
  - reflexivity.
Defined.

(** ** The controller's view of the heap *)

Lemma place_outputs_offsets n ptr sz :
  fst (App.place_outputs n ptr sz) = output_offsets ptr sz n.
Proof.
  revert ptr. induction n as [| n IH]; intros ptr.
  - reflexivity.
  - rewrite output_offsets_succ. cbn [App.place_outputs].
    specialize (IH (ptr + sz)).
    destruct (App.place_outputs n (ptr + sz) sz) as [ls p].
    cbn [fst] in *. rewrite IH. reflexivity.
Qed.

(** Every way [app_init_memories] returns. *)
Lemma app_init_memories_done a heap_skip ubo_size output_size w a' w' :
  App.app_init_memories a heap_skip ubo_size output_size w = (Done a', w') ->
  let n := Z.to_nat (App.output_count (App.config a)) in
  w' = w /\
  App.config a' = App.config a /\
  App.heap_base a' = App.heap_base a /\
  App.img_size a' = App.img_size a /\
  App.mems_ubo a' = App.heap_base a + heap_skip /\
  App.mems_outputs a'
    = output_offsets (App.heap_base a + heap_skip + ubo_size) output_size n /\
  16 <= ubo_size /\
  App.img_size a <= output_size /\
  heap_skip + ubo_size + Z.of_nat n * output_size
    <= App.heap_size (App.config a).
Proof.
  intros H. cbv zeta.
  pose proof (app_init_memories_fits _ _ _ _ _ _ _ H) as (F1 & F2 & F3).
  unfold App.app_init_memories, bind, get, fatal, ret in H.
  destruct (App.malloc_ok w); cbn [negb] in H; [| discriminate].
  pose proof (place_outputs_offsets
                (Z.to_nat (App.output_count (App.config a)))
                (App.heap_base a + heap_skip + ubo_size) output_size) as Ho.
  destruct (App.place_outputs _ _ _) as [outs p]. cbn [fst] in Ho.
  destruct (ubo_size <? 16); [discriminate |].
  destruct (output_size <? App.img_size a); [discriminate |].
  destruct (App.heap_size (App.config a) <? p - App.heap_base a);
    [discriminate |].
  injection H as <- <-. cbn. repeat split; auto.
Qed.

(** X7: when no value of the layout is truncated on the wire, the
    pointers the controller derives from the handshake are, relative to its
    own mapping of the heap, exactly the offsets of the regions of the
    renderer's layout, the uniform region first and the outputs in order:
    both processes address the same bytes of the heap. *)
Theorem controller_offsets_are_layout
    (l : Renderer.heap_layout) (a a' : App.app) (w w' : App.world)
    (rest : list byte) :
  0 <= Renderer.base_skip l < 2 ^ 32 ->
  0 <= Renderer.ubo_size l < 2 ^ 32 ->
  0 <= Renderer.output_size l < 2 ^ 32 ->
  rx (App.ctrl w) = handshake_bytes l ++ rest ->
  app_take_layout a w = (Done a', w') ->
  map (fun p => p - App.heap_base a) (App.mems_ubo a' :: App.mems_outputs a')
  = map fst (layout_regions l
               (Z.to_nat (App.output_count (App.config a)))).
Proof.
  intros Hb Hu Ho Hrx H. unfold app_take_layout in H. unfold bind in H.
  unfold handshake_bytes in Hrx. rewrite <- !app_assoc in Hrx.
  rewrite (app_handshake_run _ _ _ rest w Hrx) in H.
  rewrite !u32_idem, !u32_small in H by assumption.
  apply app_init_memories_done in H. cbv zeta in H.
  destruct H as (_ & _ & _ & _ & Hubo & Houts & _).
  rewrite Hubo, Houts. unfold layout_regions, output_offsets.
  cbn [map fst]. f_equal; [lia |].
  rewrite !map_map. apply map_ext. intros i. cbn [fst]. lia.
Qed.

Lemma controller_offsets_are_layout_witness :
  map (fun p => p - 139637976727552)
    (App.mems_ubo (demo_app true) :: App.mems_outputs (demo_app true))
  = map fst (layout_regions demo_layout 64).
Proof.
  apply (controller_offsets_are_layout demo_layout (demo_app0 true)
           (demo_app true) (app_world_with (handshake_bytes demo_layout))
           (snd (app_take_layout (demo_app0 true)
                   (app_world_with (handshake_bytes demo_layout)))) []).
  - vm_compute. split; [discriminate | reflexivity].
  - vm_compute. split; [discriminate | reflexivity].
  - vm_compute. split; [discriminate | reflexivity].
  - reflexivity.
  - reflexivity.
Defined.

(** ** Truncation of the layout on the wire *)

(** How [app_init_memories] ends, by its checks. *)
Lemma app_init_memories_run a heap_skip ubo_size output_size w :
  let n := Z.to_nat (App.output_count (App.config a)) in
  App.app_init_memories a heap_skip ubo_size output_size w =
  (if negb (App.malloc_ok w) then Fatal "failed to allocate output pointers"
   else if ubo_size <? 16 then Fatal "invalid ubo size"
   else if output_size <? App.img_size a then Fatal "invalid output size"
   else if App.heap_size (App.config a)
           <? heap_skip + ubo_size + Z.of_nat n * output_size
   then Fatal "heap size too small"
   else Done {| App.config := App.config a;
                App.heap_base := App.heap_base a;
                App.img_size := App.img_size a;
                App.mems_ubo := App.heap_base a + heap_skip;
                App.mems_outputs :=
                  output_offsets (App.heap_base a + heap_skip + ubo_size)
                    output_size n |},
   w).
Proof.
  cbv zeta. unfold App.app_init_memories, bind, get, fatal, ret.
  destruct (App.malloc_ok w); cbn [negb]; [| reflexivity].
  pose proof (place_outputs_offsets
                (Z.to_nat (App.output_count (App.config a)))
                (App.heap_base a + heap_skip + ubo_size) output_size) as Ho.
  pose proof (place_outputs_end
                (Z.to_nat (App.output_count (App.config a)))
                (App.heap_base a + heap_skip + ubo_size) output_size) as He.
  destruct (App.place_outputs _ _ _) as [outs p]. cbn [fst snd] in Ho, He.
  subst outs p.
  destruct (ubo_size <? 16); [reflexivity |].
  destruct (output_size <? App.img_size a); [reflexivity |].
  match goal with
  | |- context [_ <? ?x - App.heap_base a] =>
      replace (x - App.heap_base a)
        with (heap_skip + ubo_size
              + Z.of_nat (Z.to_nat (App.output_count (App.config a)))
                * output_size) by lia
  end.
  destruct (_ <? _); reflexivity.
Qed.

(** C10, as the claim states it, fails: with a driver that requires
    [2^32 - 1] bytes for the uniform buffer and alignment 4096 the renderer
    negotiates a uniform slot of [2^32] bytes and sends its layout without
    error; the controller receives 0 for that slot and aborts with
    ["invalid ubo size"]: an error is detected, by the controller. *)
Lemma truncated_layout_rejected :
  Renderer.renderer_init_heap_layout (demo_config false) demo_heap
    brimful_device 4096 = Done brimful_layout /\
  Renderer.ubo_size brimful_layout = 2 ^ 32 /\
  fst (Renderer.renderer_handshake (demo_config false) demo_heap
         brimful_device 4096 (renderer_world_with [])) = Done brimful_layout /\
  tx (Renderer.ctrl
        (snd (Renderer.renderer_handshake (demo_config false) demo_heap
                brimful_device 4096 (renderer_world_with []))))
    = handshake_bytes brimful_layout /\
  fst (App.app_handshake (app_world_with (handshake_bytes brimful_layout)))
    = Done (0, 0, 1441792) /\
  fst (App.main_controller (demo_app0 true) 0
         (app_world_with (handshake_bytes brimful_layout)))
    = Fatal "invalid ubo size".
Proof. repeat split. Qed.

(** C10 (amended): the values of the layout negotiated by the renderer are
    64-bit, but [renderer_send] takes a [uint32_t]: the handshake succeeds
    on both sides whatever the values are, and the controller receives, and
    passes to [app_init_memories], each value modulo [2^32], which differs
    from the value the renderer keeps using as soon as that value is [2^32]
    or more. Nothing compares the two: the controller applies the checks of
    [app_init_memories] to the values it received, aborts when these fail
    them (with ["invalid ubo size"] when the uniform slot arrives below 16)
    and otherwise goes on with pointers computed from them. *)
Theorem layout_truncated_on_wire
    (cfg : Renderer.renderer_config) (heap : Renderer.renderer_heap)
    (dev : Renderer.vk_device) (pagesize : Z) (l : Renderer.heap_layout)
    (rw : Renderer.world) (a : App.app) (n : nat) (w : App.world)
    (rest : list byte) :
  Renderer.renderer_init_heap_layout cfg heap dev pagesize = Done l ->
  tx_open (Renderer.ctrl rw) = true ->
  let sent := Renderer.renderer_handshake cfg heap dev pagesize rw in
  rx (App.ctrl w)
    = skipn (List.length (tx (Renderer.ctrl rw)))
        (tx (Renderer.ctrl (snd sent))) ++ rest ->
  let heap_skip := Renderer.base_skip l mod 2 ^ 32 in
  let ubo_size := Renderer.ubo_size l mod 2 ^ 32 in
  let output_size := Renderer.output_size l mod 2 ^ 32 in
  let count := Z.to_nat (App.output_count (App.config a)) in
  let checked :=
    App.app_init_memories a heap_skip ubo_size output_size
      (snd (App.app_handshake w)) in
  (0 <= Renderer.ubo_size l < 2 ^ 64 /\
   0 <= Renderer.output_size l < 2 ^ 64) /\
  fst sent = Done l /\
  fst (App.app_handshake w) = Done (heap_skip, ubo_size, output_size) /\
  App.main_controller a n w
    = (a' <- App.app_init_memories a heap_skip ubo_size output_size ;;
       App.app_mainloop a' n) (snd (App.app_handshake w)) /\
  (2 ^ 32 <= Renderer.base_skip l -> heap_skip <> Renderer.base_skip l) /\
  (2 ^ 32 <= Renderer.ubo_size l -> ubo_size <> Renderer.ubo_size l) /\
  (2 ^ 32 <= Renderer.output_size l -> output_size <> Renderer.output_size l) /\
  ((exists a', fst checked = Done a') <->
   App.malloc_ok w = true /\ 16 <= ubo_size /\
   App.img_size a <= output_size /\
   heap_skip + ubo_size + Z.of_nat count * output_size
     <= App.heap_size (App.config a)) /\
  (App.malloc_ok w = true -> ubo_size < 16 ->
   fst checked = Fatal "invalid ubo size" /\
   fst (App.main_controller a n w) = Fatal "invalid ubo size") /\
  (forall a', fst checked = Done a' ->
     App.mems_ubo a' = App.heap_base a + heap_skip /\
     App.mems_outputs a'
       = output_offsets (App.heap_base a + heap_skip + ubo_size) output_size
           count).
Proof.
  intros Hl Hopen sent. unfold sent.
  rewrite (renderer_handshake_run cfg heap dev pagesize l rw Hl Hopen).
  cbn [snd fst renderer_sent Renderer.ctrl tx].
  rewrite skipn_app, skipn_all, Nat.sub_diag. cbn [skipn app].
  intros Hrx.
  set (heap_skip := Renderer.base_skip l mod 2 ^ 32).
  set (ubo_size := Renderer.ubo_size l mod 2 ^ 32).
  set (output_size := Renderer.output_size l mod 2 ^ 32).
  set (count := Z.to_nat (App.output_count (App.config a))).
  set (checked := App.app_init_memories a heap_skip ubo_size output_size
                    (snd (App.app_handshake w))).
  assert (Hh : App.app_handshake w
               = (Done (u32 (Renderer.base_skip l), u32 (Renderer.ubo_size l),
                        u32 (Renderer.output_size l)),
                  snd (App.app_handshake w)) /\
               App.malloc_ok (snd (App.app_handshake w)) = App.malloc_ok w).
  { unfold handshake_bytes in Hrx. rewrite <- !app_assoc in Hrx.
    rewrite (app_handshake_run _ _ _ rest w Hrx). rewrite !u32_idem.
    split; reflexivity. }
  destruct Hh as [Hh Hm].
  assert (Hmc : App.main_controller a n w
                = (a' <- App.app_init_memories a heap_skip ubo_size
                           output_size ;;
                   App.app_mainloop a' n) (snd (App.app_handshake w))).
  { unfold App.main_controller. unfold bind at 1. rewrite Hh. reflexivity. }
  assert (Hck : checked = _)
    by exact (app_init_memories_run a heap_skip ubo_size output_size
                (snd (App.app_handshake w))).
  cbv zeta in Hck. fold count in Hck. rewrite Hm in Hck.
  split; [exact (layout_sizes_64bit cfg heap dev pagesize l Hl) |].
  split; [reflexivity |].
  split; [rewrite Hh; reflexivity |].
  split; [exact Hmc |].
  split; [apply u32_truncates |].
  split; [apply u32_truncates |].
  split; [apply u32_truncates |].
  split; [| split].
  - rewrite Hck. cbn [fst].
    destruct (App.malloc_ok w); cbn [negb].
    2:{ split; [intros [a' E]; discriminate | intros [E _]; discriminate]. }
    destruct (Z.ltb_spec ubo_size 16).
    { split; [intros [a' E]; discriminate | intros (_ & E & _); lia]. }
    destruct (Z.ltb_spec output_size (App.img_size a)).
    { split; [intros [a' E]; discriminate | intros (_ & _ & E & _); lia]. }
    destruct (Z.ltb_spec (App.heap_size (App.config a))
                (heap_skip + ubo_size + Z.of_nat count * output_size)).
    { split; [intros [a' E]; discriminate | intros (_ & _ & _ & E); lia]. }
    split; [auto | intros _; eexists; reflexivity].
  - intros Hmal Hsmall.
    assert (Hfc : fst checked = Fatal "invalid ubo size").
    { rewrite Hck, Hmal. cbn [negb fst].
      destruct (Z.ltb_spec ubo_size 16); [reflexivity | lia]. }
    split; [exact Hfc |].
    rewrite Hmc. unfold bind. fold checked.
    destruct checked as [[a' | msg | | sg] w2]; cbn [fst] in Hfc;
      try discriminate.
    injection Hfc as ->. reflexivity.
  - intros a' Ha'. rewrite Hck in Ha'. cbn [fst] in Ha'.
    destruct (negb (App.malloc_ok w)); [discriminate |].
    destruct (ubo_size <? 16); [discriminate |].
    destruct (output_size <? App.img_size a); [discriminate |].
    destruct (_ <? _); [discriminate |].
    injection Ha' as <-. split; reflexivity.
Qed.

(** C10 (amended) for a driver that requires 4 GiB and 16 bytes for the
    uniform buffer: the renderer places its outputs after a uniform slot of
    [2^32 + 4096] bytes; the controller is told 4096, which passes its
    checks, and puts its first output 4096 bytes after the uniform
    colour. *)
Lemma layout_truncated_on_wire_witness :
  fst (App.app_handshake (app_world_with (handshake_bytes greedy_layout)))
    = Done (0, 4096, 1441792) /\
  Renderer.ubo_size greedy_layout = 2 ^ 32 + 4096 /\
  exists a',
    fst (App.app_init_memories (demo_app0 true) 0 4096 1441792
           (snd (App.app_handshake
                   (app_world_with (handshake_bytes greedy_layout)))))
      = Done a' /\
    App.mems_ubo a' = App.heap_base (demo_app0 true) + 0 /\
    nth_error (App.mems_outputs a') 0
      = Some (App.heap_base (demo_app0 true) + 4096).
Proof.
  destruct (layout_truncated_on_wire (demo_config false) demo_heap
              greedy_device 4096 greedy_layout (renderer_world_with [])
              (demo_app0 true) 0
              (app_world_with (handshake_bytes greedy_layout)) [])
    as (_ & _ & Hh & _ & _ & _ & _ & Hacc & _ & Huse).
  - reflexivity.
  - reflexivity.
  - reflexivity.
  - split; [exact Hh |]. split; [reflexivity |].
    destruct Hacc as [_ Hacc].
    destruct Hacc as [a' Ha'].
    + vm_compute. repeat split; discriminate.
    + exists a'. split; [exact Ha' |].
      destruct (Huse a' Ha') as [Hu Ho].
      split; [exact Hu |]. rewrite Ho. reflexivity.
Defined.




(** ** The flush loop *)

Lemma in_sweep_from end_ fuel :
  forall ptr x,
    In x (App.sweep_from fuel ptr end_) <->
    exists k, 0 <= k < Z.of_nat fuel /\ x = ptr + 64 * k /\ x < end_.
Proof.
  induction fuel as [| fuel IH]; intros ptr x; cbn [App.sweep_from].
  - split; [contradiction | intros (k & Hk & _); lia].
  - destruct (Z.ltb_spec ptr end_) as [L | L].
    + cbn [In]. rewrite IH. split.
      * intros [<- | (k & Hk & -> & Hx)].
        -- exists 0. lia.
        -- exists (k + 1). lia.
      * intros (k & Hk & -> & Hx).
        destruct (Z.eq_dec k 0) as [-> | Hne]; [left; lia |].
        right. exists (k - 1). lia.
    + split; [contradiction | intros (k & Hk & -> & Hx); lia].
Qed.

(** The addresses the loop flushes: [ptr], [ptr + 64], ... below [end]. *)
Lemma in_sweep ptr end_ x :
  In x (App.sweep ptr end_) <->
  exists k, 0 <= k /\ x = ptr + 64 * k /\ x < end_.
Proof.
  unfold App.sweep. rewrite in_sweep_from. split.
  - intros (k & Hk & Hx). exists k. split; [lia | exact Hx].
  - intros (k & Hk & -> & Hx). exists k. split; [lia | auto].
Qed.

(** X9: the flush loop of [app_present_frame] touches only the image,
    every 64 bytes from its start; when the image starts on a cache-line
    boundary, the line of every byte of the image is flushed. *)
Theorem sweep_covers_aligned_image (ptr img : Z) :
  (forall x, In x (App.sweep ptr (ptr + img)) ->
     ptr <= x < ptr + img /\ (x - ptr) mod 64 = 0) /\
  (ptr mod 64 = 0 ->
   forall b, ptr <= b < ptr + img ->
     In (line_of b) (App.sweep ptr (ptr + img))).
Proof.
  split.
  - intros x Hx. apply in_sweep in Hx. destruct Hx as (k & Hk & -> & Hlt).
    split; [lia |].
    replace (ptr + 64 * k - ptr) with (k * 64) by lia.
    apply Z.mod_mul. lia.
  - intros Ha b Hb. apply in_sweep. unfold line_of.
    exists ((b - ptr) / 64).
    split; [apply Z.div_pos; lia |].
    split; [Z.to_euclidean_division_equations; lia |].
    pose proof (Z.mod_pos_bound b 64 ltac:(lia)). lia.
Qed.

Lemma sweep_covers_aligned_image_witness :
  In (line_of (12288 + 129)) (App.sweep 12288 (12288 + 130)).
Proof.
  apply (sweep_covers_aligned_image 12288 130).
  - reflexivity.
  - lia.
Defined.

(** X10: when the image does not start on a cache-line boundary and its
    size is a multiple of 64, the loop flushes the line of the first byte
    of every 64-byte step but never the line that holds the last bytes of
    the image. *)
Theorem sweep_misses_last_line (ptr img : Z) :
  ptr mod 64 <> 0 -> img mod 64 = 0 -> 0 < img ->
  ~ In (line_of (ptr + img - 1)) (map line_of (App.sweep ptr (ptr + img))).
Proof.
  intros Hm Hi Hpos Hin. apply in_map_iff in Hin.
  destruct Hin as (x & Hline & Hx). apply in_sweep in Hx.
  destruct Hx as (k & Hk & -> & Hlt).
  unfold line_of in Hline.
  Z.to_euclidean_division_equations. lia.
Qed.

Lemma sweep_misses_last_line_witness :
  ~ In (line_of (12304 + 128 - 1))
       (map line_of (App.sweep 12304 (12304 + 128))).
Proof.
  apply (sweep_misses_last_line 12304 128).
  - vm_compute. discriminate.
  - reflexivity.
  - lia.
Defined.

(** ** The colour ramp of the main loop *)






(** Turn 200 of the demo writes green. *)
Lemma colour_ramp_example :
  App.channel (loop_at 64 200) = 1 /\ App.output (loop_at 64 200) = 54.
Proof. vm_compute. split; reflexivity. Qed.

(** ** The command line *)

Lemma str_eqb_eq a b : App.str_eqb a b = true <-> a = b.
Proof.
  revert b. induction a as [| x a IH]; intros [| y b]; cbn;
    try (split; [discriminate | discriminate]); [tauto |].
  rewrite andb_true_iff, Ascii.eqb_eq, IH. split.
  - intros [-> ->]. reflexivity.
  - intros E. injection E as -> ->. auto.
Qed.

Lemma parse_mode_words args :
  forall c r,
    forallb (fun a => negb (is_renderer_token a)) args = true ->
    App.parse_args args c r =
    if forallb is_mode_word args then
      App.Parsed
        {| App.width := App.width c; App.height := App.height c;
           App.output_count := App.output_count c;
           App.heap_size := App.heap_size c;
           App.is_coherent :=
             last_choice (App.cstr "coherent") (App.cstr "incoherent")
               (App.is_coherent c) args;
           App.use_udmabuf :=
             last_choice (App.cstr "udmabuf") (App.cstr "memfd")
               (App.use_udmabuf c) args |}
        {| App.valid := App.valid r; App.ra_width := App.ra_width r;
           App.ra_height := App.ra_height r;
           App.ra_output_count := App.ra_output_count r;
           App.ctrl_in := App.ctrl_in r; App.ctrl_out := App.ctrl_out r;
           App.memfd := App.memfd r;
           App.ra_use_udmabuf :=
             last_choice (App.cstr "udmabuf") (App.cstr "memfd")
               (App.ra_use_udmabuf r) args |}
    else App.Usage.
Proof.
  induction args as [| arg args IH]; intros c r Hno.
  - cbn. destruct c, r. reflexivity.
  - cbn [forallb] in Hno. apply andb_prop in Hno. destruct Hno as [Ha Hrest].
    unfold is_renderer_token in Ha. apply negb_true_iff in Ha.
    cbn [App.parse_args forallb]. rewrite Ha.
    unfold is_mode_word, last_choice. cbn [fold_left].
    destruct (App.str_eqb arg (App.cstr "udmabuf")) eqn:E1.
    { apply str_eqb_eq in E1. subst arg. cbn [orb andb].
      rewrite (IH _ _ Hrest). reflexivity. }
    destruct (App.str_eqb arg (App.cstr "memfd")) eqn:E2.
    { apply str_eqb_eq in E2. subst arg. cbn [orb andb].
      rewrite (IH _ _ Hrest). reflexivity. }
    destruct (App.str_eqb arg (App.cstr "coherent")) eqn:E3.
    { apply str_eqb_eq in E3. subst arg. cbn [orb andb].
      rewrite (IH _ _ Hrest). reflexivity. }
    destruct (App.str_eqb arg (App.cstr "incoherent")) eqn:E4.
    { apply str_eqb_eq in E4. subst arg. cbn [orb andb].
      rewrite (IH _ _ Hrest). reflexivity. }
    reflexivity.
Qed.

(** X12: on a command line without a renderer token, [main] exits through
    [app_usage] as soon as one argument is not among [udmabuf], [memfd],
    [coherent], [incoherent]; otherwise it takes the controller's role with
    the demo's sizes, and for each of the two switches the last word on
    the line decides (memfd and coherent when none is given). *)
Theorem controller_command_line (argv0 : list ascii) (args : list (list ascii)) :
  forallb (fun a => negb (is_renderer_token a)) args = true ->
  App.main_role (argv0 :: args) =
  if forallb is_mode_word args then
    App.AsController
      {| App.width := 600; App.height := 600; App.output_count := 64;
         App.heap_size := 8 * 1024 * 1024 * 1024;
         App.is_coherent :=
           last_choice (App.cstr "coherent") (App.cstr "incoherent") true args;
         App.use_udmabuf :=
           last_choice (App.cstr "udmabuf") (App.cstr "memfd") false args |}
  else App.ExitUsage.
Proof.
  intros Hno. unfold App.main_role. cbn [tl].
  rewrite (parse_mode_words args _ _ Hno).
  destruct (forallb is_mode_word args); reflexivity.
Qed.

Lemma controller_command_line_witness :
  App.main_role [App.cstr "./vkmemfd"; App.cstr "udmabuf";
                 App.cstr "incoherent"; App.cstr "memfd"]
  = App.AsController
      {| App.width := 600; App.height := 600; App.output_count := 64;
         App.heap_size := 8 * 1024 * 1024 * 1024;
         App.is_coherent := false; App.use_udmabuf := false |}.
Proof.
  apply (controller_command_line (App.cstr "./vkmemfd")
           [App.cstr "udmabuf"; App.cstr "incoherent"; App.cstr "memfd"]).
  reflexivity.
Defined.

(** [%d] of [scanf] reads back what [%d] of [printf] wrote for every
    [int], negative ones too. *)
Lemma scan_d_fmt_d_int n rest :
  INT_MIN <= n <= INT_MAX ->
  stops rest ->
  App.scan_d (App.fmt_d n ++ rest) = App.Conv n rest.
Proof.
  intros Hn Hs.
  destruct (Z.le_gt_cases 0 n) as [Hpos | Hneg].
  - apply scan_d_fmt_d; [lia | exact Hs].
  - unfold App.fmt_d. destruct (Z.ltb_spec n 0); [| lia].
    unfold INT_MIN, INT_MAX in Hn.
    destruct (digits_aux_scan 9 (- n) []) as (d & ds & Hds & Hd & Hscan).
    { cbn. lia. }
    rewrite Hds, app_nil_r. unfold App.scan_d.
    cbn [app App.skip_space]. change (App.isspace "-") with false.
    cbv iota. change (Ascii.eqb "-" "-") with true. cbn [orb].
    rewrite Hd.
    change (d :: ds ++ rest) with ((d :: ds) ++ rest).
    rewrite Hscan, Z.mul_0_l, Z.add_0_l, (scan_digits_stops _ rest Hs).
    replace (- - n) with n by lia.
    unfold in_int, INT_MIN, INT_MAX.
    destruct (Z.leb_spec (- 2 ^ 31) n); [| lia].
    destruct (Z.leb_spec n (2 ^ 31 - 1)); [reflexivity | lia].
Qed.

(** X13: [main] reads the renderer token leniently and completely: for
    every three [int]s, negative ones too, the token written with
    ["renderer-%d-%d-%d"] is read back as these three numbers even when
    further characters follow the third number (anything that does not
    start with a digit), and [main] then takes the renderer's role with
    them. *)
Theorem renderer_token_lenient
    (argv0 : list ascii) (a b c : Z) (junk : list ascii) :
  INT_MIN <= a <= INT_MAX -> INT_MIN <= b <= INT_MAX ->
  INT_MIN <= c <= INT_MAX ->
  stops junk ->
  (forall a0 b0 c0,
     App.sscanf_d_d_d (skipn 9 (App.renderer_string a b c ++ junk)) a0 b0 c0
       = Done (3, (a, b, c))) /\
  App.main_role [argv0; App.renderer_string a b c ++ junk]
    = App.AsRenderer 600 600 64 a b c false.
Proof.
  intros Ha Hb Hc Hj.
  assert (Hscan : forall a0 b0 c0,
            App.sscanf_d_d_d (skipn 9 (App.renderer_string a b c ++ junk))
              a0 b0 c0 = Done (3, (a, b, c))).
  { intros a0 b0 c0.
    replace (skipn 9 (App.renderer_string a b c ++ junk))
      with (App.fmt_d a ++ "-"%char :: App.fmt_d b ++ "-"%char
              :: App.fmt_d c ++ junk).
    2:{ unfold App.renderer_string. rewrite <- !app_assoc. reflexivity. }
    unfold App.sscanf_d_d_d.
    rewrite (scan_d_fmt_d_int a) by (exact Ha || reflexivity).
    cbn [App.scan_lit Ascii.eqb Bool.eqb andb].
    rewrite (scan_d_fmt_d_int b) by (exact Hb || reflexivity).
    cbn [App.scan_lit Ascii.eqb Bool.eqb andb].
    rewrite (scan_d_fmt_d_int c) by (exact Hc || exact Hj).
    reflexivity. }
  split; [exact Hscan |].
  unfold App.main_role. cbn [tl App.parse_args].
  replace (firstn 9 (App.renderer_string a b c ++ junk))
    with (App.cstr "renderer-")
    by (unfold App.renderer_string; rewrite <- !app_assoc; reflexivity).
  change (App.str_eqb (App.cstr "renderer-") (App.cstr "renderer-")) with true.
  cbv iota. rewrite Hscan. reflexivity.
Qed.

Lemma renderer_token_lenient_witness :
  App.main_role [App.cstr "./vkmemfd";
                 App.renderer_string 3 (-1) 7 ++ App.cstr "-and more"]
  = App.AsRenderer 600 600 64 3 (-1) 7 false.
Proof.
  apply (renderer_token_lenient (App.cstr "./vkmemfd") 3 (-1) 7
           (App.cstr "-and more")).
  - vm_compute. split; discriminate.
  - vm_compute. split; discriminate.
  - vm_compute. split; discriminate.
  - reflexivity.
Defined.

(** ** The two loops against each other *)

Lemma s32_small v : 0 <= v < 2 ^ 31 -> s32 v = v.
Proof.
  intros Hv. unfold s32. rewrite Z.mod_small by lia.
  destruct (Z.ltb_spec v (2 ^ 31)); lia.
Qed.

(** One turn of the renderer on a request it can serve. *)
Lemma renderer_turn_run cfg v rest w :
  0 <= v < Renderer.output_count cfg ->
  Renderer.output_count cfg <= 2 ^ 31 ->
  rx (Renderer.ctrl w) = encode_u32 v ++ rest ->
  tx_open (Renderer.ctrl w) = true ->
  queue_works w ->
  Renderer.renderer_mainloop_body cfg w =
  (Done tt,
   {| Renderer.ctrl := {| rx := rest;
                          tx := tx (Renderer.ctrl w) ++ encode_u32 v;
                          tx_open := true |};
      Renderer.vk_answers := tl (Renderer.vk_answers w);
      Renderer.submitted := Renderer.submitted w ++ [v] |}).
Proof.
  intros Hv Hn Hrx Hopen Hq.
  unfold Renderer.renderer_mainloop_body, bind.
  rewrite (renderer_recv_encode v rest w Hrx).
  rewrite (u32_small v), s32_small by lia.
  unfold Renderer.renderer_render.
  destruct (Z.leb_spec 0 v); [| lia].
  destruct (Z.ltb_spec v (Renderer.output_count cfg)); [| lia].
  cbn [andb Renderer.vk_answers Renderer.ctrl Renderer.submitted].
  unfold queue_works in Hq.
  destruct (Renderer.vk_answers w) as [| [s q] answers].
  - cbn. rewrite renderer_send_run. cbn [Renderer.ctrl tx_open tx rx].
    rewrite Hopen, u32_small by lia. reflexivity.
  - inversion Hq as [| ? ? [Hs Hq'] _]. cbn [fst snd] in Hs, Hq'.
    subst s q. cbn. rewrite renderer_send_run.
    cbn [Renderer.ctrl tx_open tx rx].
    rewrite Hopen, u32_small by lia. reflexivity.
Qed.

(** The controller's side of an exchange, with the pipes after it. *)
Lemma exchange_run output r rest w :
  0 <= r < 2 ^ 32 ->
  tx_open (App.ctrl w) = true ->
  rx (App.ctrl w) = encode_u32 r ++ rest ->
  let x := exchange output w in
  fst x = (if r =? u32 output then Done tt
           else Fatal "unexpected renderer output") /\
  App.ctrl (snd x)
    = {| rx := rest; tx := tx (App.ctrl w) ++ encode_u32 (u32 output);
         tx_open := true |} /\
  App.trace (snd x)
    = App.trace w ++ [App.EvSend (u32 output); App.EvRecv r].
Proof.
  intros Hr Hopen Hrx. unfold exchange, bind.
  rewrite app_send_run, Hopen.
  rewrite (app_recv_encode r rest) by (cbn; exact Hrx).
  rewrite u32_small by exact Hr.
  destruct (r =? u32 output); cbn; rewrite <- app_assoc; auto.
Qed.

(** C5: in a frame exchange the renderer replies with exactly the index it
    received: whenever its turn ends normally the four bytes it has written
    are that index, and for an index of one of its outputs, with a working
    queue and the controller listening, its turn does end normally, the
    command buffer of that index submitted. The controller writes its
    request, reads the reply, and aborts, with
    ["unexpected renderer output"], exactly when the reply differs from the
    request (both as 32-bit unsigned values); when they are equal it
    returns from [app_render_frame] without error. *)
Theorem frame_reply_is_request
    (cfg : Renderer.renderer_config) (rw : Renderer.world) (v : Z)
    (rest_r : list byte)
    (a : App.app) (output : Z) (colour : App.rgba) (w : App.world) (r : Z)
    (rest_c : list byte) :
  0 <= v < 2 ^ 32 ->
  rx (Renderer.ctrl rw) = encode_u32 v ++ rest_r ->
  0 <= r < 2 ^ 32 ->
  tx_open (App.ctrl w) = true ->
  rx (App.ctrl w) = encode_u32 r ++ rest_c ->
  let renderer_turn := Renderer.renderer_mainloop_body cfg rw in
  let controller := App.app_render_frame a output colour w in
  (fst renderer_turn = Done tt ->
   tx (Renderer.ctrl (snd renderer_turn))
     = tx (Renderer.ctrl rw) ++ encode_u32 v) /\
  (v < Renderer.output_count cfg ->
   Renderer.output_count cfg <= 2 ^ 31 ->
   tx_open (Renderer.ctrl rw) = true ->
   queue_works rw ->
   fst renderer_turn = Done tt /\
   tx (Renderer.ctrl (snd renderer_turn))
     = tx (Renderer.ctrl rw) ++ encode_u32 v /\
   rx (Renderer.ctrl (snd renderer_turn)) = rest_r /\
   Renderer.submitted (snd renderer_turn) = Renderer.submitted rw ++ [v]) /\
  tx (App.ctrl (snd controller))
    = tx (App.ctrl w) ++ encode_u32 (u32 output) /\
  rx (App.ctrl (snd controller)) = rest_c /\
  requests (App.trace (snd controller))
    = requests (App.trace w) ++ [u32 output] /\
  (fst controller = Fatal "unexpected renderer output" <-> r <> u32 output) /\
  ((exists msg, fst controller = Fatal msg) <-> r <> u32 output) /\
  (fst controller = Done tt <-> r = u32 output).
Proof.
  intros Hv Hrx Hr Hopen Hrxc renderer_turn controller.
  split; [| split].
  - intros Hd. apply (renderer_turn_echoes cfg v rest_r rw Hv Hrx Hd).
  - intros Hlt Hn Hropen Hq. subst renderer_turn.
    rewrite (renderer_turn_run cfg v rest_r rw) by (assumption || lia).
    cbn [fst snd Renderer.ctrl tx rx Renderer.submitted]. auto.
  - subst controller. rewrite render_frame_unfold.
    set (es := App.EvMemcpyUbo _ _ :: _).
    assert (Hq : filter is_chan_event es = []).
    { unfold es. destruct (App.is_coherent (App.config a)); reflexivity. }
    destruct (exchange_run output r rest_c (log_all es w) Hr Hopen Hrxc)
      as (Hf & Hc & Ht).
    rewrite Hc, Ht, Hf. cbn [tx rx log_all App.ctrl App.trace].
    rewrite !requests_app, (quiet_requests es Hq), app_nil_r.
    split; [reflexivity |]. split; [reflexivity |].
    split; [reflexivity |].
    destruct (Z.eqb_spec r (u32 output)) as [E | E].
    + split; [split; [discriminate | contradiction] |].
      split; [split; [intros [msg Hm]; discriminate | contradiction] |].
      split; auto.
    + split; [split; auto |].
      split; [split; [auto | intros _; eexists; reflexivity] |].
      split; [discriminate | contradiction].
Qed.

(** C5 for the request 5: the renderer answers 5 and the controller, which
    asked for 5, goes on. *)
Lemma frame_reply_is_request_witness :
  let renderer_turn := Renderer.renderer_mainloop_body (demo_config false)
                         (renderer_world_with (encode_u32 5)) in
  let controller := App.app_render_frame (demo_app true) 5 (red 5)
                      (app_world_with (encode_u32 5)) in
  (fst renderer_turn = Done tt /\
   tx (Renderer.ctrl (snd renderer_turn)) = [] ++ encode_u32 5) /\
  tx (App.ctrl (snd controller)) = [] ++ encode_u32 (u32 5) /\
  fst controller = Done tt.
Proof.
  destruct (frame_reply_is_request (demo_config false)
              (renderer_world_with (encode_u32 5)) 5 []
              (demo_app true) 5 (red 5) (app_world_with (encode_u32 5)) 5 [])
    as (_ & Hr & Ht & _ & _ & _ & _ & Hd).
  - lia.
  - reflexivity.
  - lia.
  - reflexivity.
  - reflexivity.
  - destruct Hr as (H1 & H2 & _).
    + vm_compute. reflexivity.
    + vm_compute. discriminate.
    + reflexivity.
    + constructor.
    + split; [split; [exact H1 | exact H2] |].
      split; [exact Ht |]. apply Hd. reflexivity.
Defined.

(** [n] turns of the renderer on [n] requests it can serve. *)
Lemma renderer_mainloop_run cfg reqs rest :
  Renderer.output_count cfg <= 2 ^ 31 ->
  (forall v, In v reqs -> 0 <= v < Renderer.output_count cfg) ->
  forall w,
    tx_open (Renderer.ctrl w) = true ->
    queue_works w ->
    rx (Renderer.ctrl w) = wire reqs ++ rest ->
    let r := Renderer.renderer_mainloop cfg (List.length reqs) w in
    fst r = Done tt /\
    tx (Renderer.ctrl (snd r)) = tx (Renderer.ctrl w) ++ wire reqs /\
    rx (Renderer.ctrl (snd r)) = rest /\
    Renderer.submitted (snd r) = Renderer.submitted w ++ reqs.
Proof.
  intros Hn.
  induction reqs as [| v reqs IH]; intros Hall w Hopen Hq Hrx.
  - cbn. unfold wire. cbn. rewrite !app_nil_r. auto.
  - unfold wire in Hrx. cbn [map List.concat] in Hrx.
    rewrite <- app_assoc in Hrx. fold (wire reqs) in Hrx.
    cbn [List.length Renderer.renderer_mainloop]. unfold bind.
    rewrite (renderer_turn_run cfg v (wire reqs ++ rest) w
               (Hall v (or_introl eq_refl)) Hn Hrx Hopen Hq).
    match goal with
    | |- context [Renderer.renderer_mainloop cfg _ ?w1] =>
        destruct (IH (fun v' Hv' => Hall v' (or_intror Hv')) w1)
          as (H1 & H2 & H3 & H4)
    end.
    + reflexivity.
    + unfold queue_works in *. cbn [Renderer.vk_answers].
      destruct (Renderer.vk_answers w) as [| x answers];
        [constructor | inversion Hq; assumption].
    + reflexivity.
    + cbv zeta. split; [exact H1 |].
      rewrite H2, H3, H4.
      cbn [Renderer.ctrl tx Renderer.submitted].
      unfold wire. cbn [map List.concat].
      rewrite <- !app_assoc. auto.
Qed.

(** X14: fed any sequence of requests that are indices of its outputs, and
    with a working queue and a controller that listens, [renderer_mainloop]
    answers every request with the same value, in order, and submits the
    command buffers of exactly these indices; a request that is not such an
    index is not rejected: [cmd.bufs] is indexed out of bounds. *)
Theorem renderer_echoes_stream
    (cfg : Renderer.renderer_config) (reqs : list Z) (rest : list byte)
    (w : Renderer.world) :
  Renderer.output_count cfg <= 2 ^ 31 ->
  tx_open (Renderer.ctrl w) = true ->
  queue_works w ->
  ((forall v, In v reqs -> 0 <= v < Renderer.output_count cfg) ->
   rx (Renderer.ctrl w) = wire reqs ++ rest ->
   let r := Renderer.renderer_mainloop cfg (List.length reqs) w in
   fst r = Done tt /\
   tx (Renderer.ctrl (snd r)) = tx (Renderer.ctrl w) ++ wire reqs /\
   rx (Renderer.ctrl (snd r)) = rest /\
   Renderer.submitted (snd r) = Renderer.submitted w ++ reqs) /\
  (forall v,
     0 <= v < 2 ^ 32 ->
     ~ 0 <= s32 v < Renderer.output_count cfg ->
     rx (Renderer.ctrl w) = encode_u32 v ++ rest ->
     Renderer.renderer_mainloop_body cfg w = (Undefined, snd
       (Renderer.renderer_recv w))).
Proof.
  intros Hn Hopen Hq. split.
  - intros Hall Hrx.
    exact (renderer_mainloop_run cfg reqs rest Hn Hall w Hopen Hq Hrx).
  - intros v Hv Hbad Hrx.
    unfold Renderer.renderer_mainloop_body, bind.
    rewrite (renderer_recv_encode v rest w Hrx).
    rewrite (u32_small v) by exact Hv. cbn [snd].
    unfold Renderer.renderer_render.
    destruct (Z.leb_spec 0 (s32 v));
      destruct (Z.ltb_spec (s32 v) (Renderer.output_count cfg));
      cbn [andb]; try reflexivity.
    exfalso. apply Hbad. lia.
Qed.

Lemma renderer_echoes_stream_witness :
  (let r := Renderer.renderer_mainloop (demo_config false) 3
              (renderer_world_with (wire [0; 1; 63])) in
   fst r = Done tt /\
   tx (Renderer.ctrl (snd r)) = [] ++ wire [0; 1; 63] /\
   rx (Renderer.ctrl (snd r)) = [] /\
   Renderer.submitted (snd r) = [] ++ [0; 1; 63]) /\
  Renderer.renderer_mainloop_body (demo_config false)
    (renderer_world_with (encode_u32 64)) =
  (Undefined, snd (Renderer.renderer_recv (renderer_world_with (encode_u32 64)))).
Proof.
  split.
  - apply (renderer_echoes_stream (demo_config false) [0; 1; 63] []
             (renderer_world_with (wire [0; 1; 63]))).
    + vm_compute. discriminate.
    + reflexivity.
    + constructor.
    + intros v [<- | [<- | [<- | []]]]; vm_compute; split;
        discriminate || reflexivity.
    + reflexivity.
  - apply (renderer_echoes_stream (demo_config false) [] []
             (renderer_world_with (encode_u32 64))) with (v := 64).
    + vm_compute. discriminate.
    + reflexivity.
    + constructor.
    + vm_compute. split; [discriminate | reflexivity].
    + vm_compute. intros [_ H]. discriminate H.
    + reflexivity.
Defined.

(** ** The command buffers *)

Lemma build_all_cases records n i :
  (RendererSetup.build_all records n i = Done (indices_from n i) /\
   forall j, i <= j < i + Z.of_nat n ->
     fst (records j) = VK_SUCCESS /\ snd (records j) = VK_SUCCESS) \/
  RendererSetup.build_all records n i = Fatal "failed to begin command buffer" \/
  RendererSetup.build_all records n i = Fatal "failed to end command buffer".
Proof.
  revert i. induction n as [| n IH]; intros i.
  - left. split; [reflexivity | intros j Hj; cbn in Hj; lia].
  - cbn [RendererSetup.build_all indices_from].
    unfold RendererSetup.renderer_build_command_buffer, Renderer.renderer_vk.
    destruct (Z.eqb_spec (fst (records i)) VK_SUCCESS) as [Hb | Hb];
      cbn [rbind]; [| right; left; reflexivity].
    destruct (Z.eqb_spec (snd (records i)) VK_SUCCESS) as [He | He];
      cbn [rbind]; [| right; right; reflexivity].
    destruct (IH (i + 1)) as [[E Hall] | [E | E]]; rewrite E; cbn [rbind].
    + left. split; [reflexivity |].
      intros j Hj. destruct (Z.eq_dec j i) as [-> | Hne]; [auto |].
      apply Hall. lia.
    + right. left. reflexivity.
    + right. right. reflexivity.
Qed.

(** X15: the test of the command buffer array in [renderer_init_vk_cmd]
    passes the result of [vkCreateCommandPool], which is [VK_SUCCESS] by
    then, to [renderer_vk]: a failed [malloc] never ends the renderer with
    that message but lets [vkAllocateCommandBuffers] write through the null
    pointer. When the function returns, every Vulkan call succeeded and
    command buffer [i] copies to output [i]. *)
Theorem command_array_check_never_fires
    (cfg : Renderer.renderer_config) (pool_res : Z) (malloc_ok : bool)
    (alloc_res : Z) (records : Z -> Z * Z) :
  let r := RendererSetup.renderer_init_vk_cmd cfg pool_res malloc_ok alloc_res
             records in
  r <> Fatal "failed to create command buffer array" /\
  (malloc_ok = false ->
   r = Undefined \/ r = Fatal "failed to create command pool") /\
  (forall bufs, r = Done bufs ->
     malloc_ok = true /\ pool_res = VK_SUCCESS /\ alloc_res = VK_SUCCESS /\
     bufs = indices_from (Z.to_nat (Renderer.output_count cfg)) 0 /\
     forall i, 0 <= i < Renderer.output_count cfg ->
       fst (records i) = VK_SUCCESS /\ snd (records i) = VK_SUCCESS).
Proof.
  cbv zeta. unfold RendererSetup.renderer_init_vk_cmd, Renderer.renderer_vk.
  destruct (Z.eqb_spec pool_res VK_SUCCESS) as [Hp | Hp]; cbn [rbind].
  2:{ split; [discriminate |]. split; [auto | discriminate]. }
  destruct malloc_ok; cbn [negb rbind].
  2:{ split; [discriminate |]. split; [auto | discriminate]. }
  destruct (Z.eqb_spec alloc_res VK_SUCCESS) as [Ha | Ha]; cbn [rbind].
  2:{ split; [discriminate |]. split; [discriminate | discriminate]. }
  destruct (build_all_cases records (Z.to_nat (Renderer.output_count cfg)) 0)
    as [[E Hall] | [E | E]]; rewrite E.
  - split; [discriminate |]. split; [discriminate |].
    intros bufs Hb. injection Hb as <-.
    repeat split; auto; apply Hall; lia.
  - split; [discriminate |]. split; discriminate.
  - split; [discriminate |]. split; discriminate.
Qed.

Lemma command_array_check_never_fires_witness :
  RendererSetup.renderer_init_vk_cmd (demo_config false) 0 false 0
    (fun _ => (0, 0)) = Undefined.
Proof.
  destruct (command_array_check_never_fires (demo_config false) 0 false 0
              (fun _ => (0, 0))) as (_ & H & _).
  destruct (H eq_refl) as [E | E]; [exact E | discriminate E].
Defined.

(** ** Starting the renderer process *)

Lemma fd_lookup_filter_none p t x :
  AppSetup.fd_lookup t x = None ->
  AppSetup.fd_lookup (filter p t) x = None.
Proof.
  induction t as [| e t IH]; cbn [filter AppSetup.fd_lookup]; [auto |].
  destruct (Z.eqb_spec (AppSetup.fd_num e) x) as [E | E]; [discriminate |].
  intros H. destruct (p e); cbn [AppSetup.fd_lookup]; [| auto].
  destruct (Z.eqb_spec (AppSetup.fd_num e) x); [contradiction | auto].
Qed.

Lemma fd_lookup_close a t x :
  AppSetup.fd_lookup (AppSetup.fd_close a t) x =
  if x =? a then None else AppSetup.fd_lookup t x.
Proof.
  unfold AppSetup.fd_close.
  induction t as [| e t IH]; cbn [filter AppSetup.fd_lookup].
  - destruct (x =? a); reflexivity.
  - destruct (Z.eqb_spec (AppSetup.fd_num e) a) as [Ea | Ea]; cbn [negb].
    + rewrite IH. destruct (Z.eqb_spec x a) as [Ex | Ex]; [reflexivity |].
      destruct (Z.eqb_spec (AppSetup.fd_num e) x); [lia | reflexivity].
    + cbn [AppSetup.fd_lookup]. rewrite IH.
      destruct (Z.eqb_spec (AppSetup.fd_num e) x) as [Ex | Ex];
        [| reflexivity].
      destruct (Z.eqb_spec x a); [lia | reflexivity].
Qed.

Lemma app_init_heap_done fd tr sr map t0 h t :
  AppSetup.app_init_heap fd tr sr map t0 = Done (h, t) ->
  0 <= fd /\ 0 <= tr /\ 0 <= sr /\
  AppSetup.memfd h = fd /\ map = Some (AppSetup.base h) /\
  t = AppSetup.fd_open fd AppSetup.HeapFile true t0.
Proof.
  unfold AppSetup.app_init_heap.
  destruct (Z.ltb_spec fd 0); [discriminate |].
  destruct (Z.ltb_spec tr 0); [discriminate |].
  destruct (Z.ltb_spec sr 0); [discriminate |].
  destruct map as [addr |]; [| discriminate].
  intros E. injection E as <- <-. cbn. auto 10.
Qed.

Lemma fd_lookup_close_ne a t x :
  x <> a -> AppSetup.fd_lookup (AppSetup.fd_close a t) x = AppSetup.fd_lookup t x.
Proof.
  intros H. rewrite fd_lookup_close.
  destruct (Z.eqb_spec x a); [contradiction | reflexivity].
Qed.

Lemma fd_lookup_close_eq a t :
  AppSetup.fd_lookup (AppSetup.fd_close a t) a = None.
Proof. rewrite fd_lookup_close, Z.eqb_refl. reflexivity. Qed.

Lemma fd_lookup_open_eq a f c t :
  AppSetup.fd_lookup (AppSetup.fd_open a f c t) a = Some f.
Proof. cbn. rewrite Z.eqb_refl. reflexivity. Qed.

Lemma fd_lookup_open_ne a f c t x :
  x <> a ->
  AppSetup.fd_lookup (AppSetup.fd_open a f c t) x = AppSetup.fd_lookup t x.
Proof.
  intros H. cbn. destruct (Z.eqb_spec a x); [congruence | reflexivity].
Qed.

Lemma fd_close_open_eq a f c t :
  AppSetup.fd_close a (AppSetup.fd_open a f c t) = AppSetup.fd_close a t.
Proof. cbn. rewrite Z.eqb_refl. reflexivity. Qed.

Lemma fd_close_open_ne a b f c t :
  b <> a ->
  AppSetup.fd_close a (AppSetup.fd_open b f c t)
    = AppSetup.fd_open b f c (AppSetup.fd_close a t).
Proof.
  intros H. cbn. destruct (Z.eqb_spec b a); [contradiction | reflexivity].
Qed.

Lemma fd_exec_open b f c t :
  AppSetup.fd_exec (AppSetup.fd_open b f c t)
    = if c then AppSetup.fd_exec t
      else AppSetup.fd_open b f false (AppSetup.fd_exec t).
Proof. destruct c; reflexivity. Qed.

Ltac fd_ne := solve [assumption | apply not_eq_sym; assumption].

Ltac fd_lookups :=
  repeat (rewrite fd_lookup_open_eq
          || rewrite fd_lookup_close_eq
          || rewrite fd_lookup_open_ne by fd_ne
          || rewrite fd_lookup_close_ne by fd_ne).

(** X16: with the descriptors the kernel hands out (the memfd and the four
    pipe ends distinct and not open before), [app_init_heap] followed by
    [app_init_renderer] leaves the controller with the read end of
    [pipes[0]], the write end of [pipes[1]] and the memfd, the child's ends
    closed. The child, whose [dup] may reuse a descriptor the child has just
    closed, starts [main] anew as the renderer reading [pipes[1]], writing
    [pipes[0]] and holding the duplicate of the memfd; none of the other
    descriptors created at start-up is open in it, the close-on-exec memfd
    itself included. *)
Theorem renderer_process_descriptors
    (c : App.app_config) (argv0 : list ascii) (fd tr sr : Z) (map : option Z)
    (ans : AppSetup.spawn_answers) (t0 t : AppSetup.fdtable)
    (h : AppSetup.app_heap) (r0 w0 r1 w1 : Z) :
  AppSetup.app_init_heap fd tr sr map t0 = Done (h, t) ->
  AppSetup.pipe0 ans = Some (r0, w0) ->
  AppSetup.pipe1 ans = Some (r1, w1) ->
  NoDup [fd; r0; w0; r1; w1] ->
  Forall (fun x => AppSetup.fd_lookup t0 x = None) [fd; r0; w0; r1; w1] ->
  (0 < AppSetup.pid ans ->
   exists tp,
     AppSetup.app_init_renderer c argv0 h ans t
       = Done (AppSetup.InParent r0 w1 tp) /\
     AppSetup.fd_lookup tp r0 = Some (AppSetup.PipeRead 0) /\
     AppSetup.fd_lookup tp w1 = Some (AppSetup.PipeWrite 1) /\
     AppSetup.fd_lookup tp fd = Some AppSetup.HeapFile /\
     AppSetup.fd_lookup tp r1 = None /\
     AppSetup.fd_lookup tp w0 = None) /\
  (AppSetup.pid ans = 0 ->
   let m := AppSetup.dup_fd ans in
   0 <= r1 <= INT_MAX -> 0 <= w0 <= INT_MAX -> 0 <= m <= INT_MAX ->
   m <> fd -> m <> r1 -> m <> w0 ->
   (List.length (App.renderer_string r1 w0 m) < 32)%nat ->
   0 <= AppSetup.exec_res ans ->
   exists argv tc,
     AppSetup.app_init_renderer c argv0 h ans t
       = Done (AppSetup.InChild argv tc) /\
     App.main_role argv
       = App.AsRenderer 600 600 64 r1 w0 m (App.use_udmabuf c) /\
     AppSetup.fd_lookup tc r1 = Some (AppSetup.PipeRead 1) /\
     AppSetup.fd_lookup tc w0 = Some (AppSetup.PipeWrite 0) /\
     AppSetup.fd_lookup tc m = Some AppSetup.HeapFile /\
     forall x, x <> r1 -> x <> w0 -> x <> m ->
       AppSetup.fd_lookup t0 x = None -> AppSetup.fd_lookup tc x = None).
Proof.
  intros Hheap Hp0 Hp1 Hnd Hfresh.
  apply app_init_heap_done in Hheap.
  destruct Hheap as (Hfd & _ & _ & Hm & _ & ->).
  assert (Hne : fd <> r0 /\ fd <> w0 /\ fd <> r1 /\ fd <> w1 /\ r0 <> w0 /\
                r0 <> r1 /\ r0 <> w1 /\ w0 <> r1 /\ w0 <> w1 /\ r1 <> w1).
  { repeat match goal with
           | H : NoDup (_ :: _) |- _ => inversion H; clear H; subst
           end.
    cbn [In] in *. repeat split; intros E; subst; tauto. }
  destruct Hne as (N1 & N2 & N3 & N4 & N5 & N6 & N7 & N8 & N9 & N10).
  assert (Hf : forall x, In x [fd; r0; w0; r1; w1] ->
                 AppSetup.fd_lookup t0 x = None).
  { apply Forall_forall. exact Hfresh. }
  unfold AppSetup.app_init_renderer. rewrite Hp0, Hp1, Hm.
  split.
  - intros Hpid.
    destruct (Z.ltb_spec (AppSetup.pid ans) 0); [lia |].
    destruct (Z.ltb_spec 0 (AppSetup.pid ans)); [| lia].
    eexists. split; [reflexivity |].
    repeat (rewrite fd_close_open_eq || rewrite fd_close_open_ne by fd_ne).
    repeat split; fd_lookups; try reflexivity;
      apply fd_lookup_filter_none, fd_lookup_filter_none, Hf; cbn; auto.
  - intros Hpid. cbv zeta. set (m := AppSetup.dup_fd ans).
    intros Hr1 Hw0 Hmr D1 D2 D3 Hlen Hexec.
    rewrite Hpid. cbn [Z.ltb Z.compare].
    repeat (rewrite fd_close_open_eq || rewrite fd_close_open_ne by fd_ne).
    fd_lookups.
    destruct (Z.ltb_spec m 0); [lia |].
    unfold App.child_argv.
    destruct (Z.leb_spec 32
                (Z.of_nat (List.length (App.renderer_string r1 w0 m))));
      [lia |].
    cbn [rbind].
    destruct (Z.ltb_spec (AppSetup.exec_res ans) 0); [lia |].
    eexists. eexists. split; [reflexivity |].
    split.
    { unfold App.main_role. cbn [tl].
      rewrite parse_renderer_string by assumption.
      destruct (App.use_udmabuf c); reflexivity. }
    rewrite !fd_exec_open.
    repeat split; fd_lookups; try reflexivity.
    intros x X1 X2 X3 Hx. fd_lookups.
    apply fd_lookup_filter_none, fd_lookup_filter_none,
      fd_lookup_filter_none, Hx.
Qed.

Lemma renderer_process_descriptors_witness :
  (exists tp,
     AppSetup.app_init_renderer App.default_config (App.cstr "./vkmemfd")
       demo_app_heap (demo_spawn 1234)
       (AppSetup.fd_open 3 AppSetup.HeapFile true std_fds)
       = Done (AppSetup.InParent 4 7 tp) /\
     AppSetup.fd_lookup tp 4 = Some (AppSetup.PipeRead 0) /\
     AppSetup.fd_lookup tp 6 = None) /\
  (exists argv tc,
     AppSetup.app_init_renderer App.default_config (App.cstr "./vkmemfd")
       demo_app_heap (demo_spawn 0)
       (AppSetup.fd_open 3 AppSetup.HeapFile true std_fds)
       = Done (AppSetup.InChild argv tc) /\
     App.main_role argv = App.AsRenderer 600 600 64 6 5 4 false /\
     AppSetup.fd_lookup tc 4 = Some AppSetup.HeapFile /\
     AppSetup.fd_lookup tc 3 = None).
Proof.
  assert (Hnd : NoDup [3; 4; 5; 6; 7]).
  { repeat constructor; cbn; intros H;
      repeat (destruct H as [H | H]; [discriminate H |]); exact H. }
  assert (Hfresh : Forall (fun x => AppSetup.fd_lookup std_fds x = None)
                     [3; 4; 5; 6; 7]).
  { repeat constructor. }
  split.
  - destruct (renderer_process_descriptors App.default_config
                (App.cstr "./vkmemfd") 3 0 0 (Some 4096) (demo_spawn 1234)
                std_fds _ demo_app_heap 4 5 6 7
                eq_refl eq_refl eq_refl Hnd Hfresh) as [Hparent _].
    destruct (Hparent eq_refl) as (tp & H1 & H2 & _ & _ & H5 & _).
    exists tp. auto.
  - destruct (renderer_process_descriptors App.default_config
                (App.cstr "./vkmemfd") 3 0 0 (Some 4096) (demo_spawn 0)
                std_fds _ demo_app_heap 4 5 6 7
                eq_refl eq_refl eq_refl Hnd Hfresh) as [_ Hchild].
    destruct Hchild as (argv & tc & H1 & H2 & _ & _ & H5 & H6).
    + reflexivity.
    + vm_compute. split; discriminate.
    + vm_compute. split; discriminate.
    + vm_compute. split; discriminate.
    + discriminate.
    + discriminate.
    + discriminate.
    + vm_compute. lia.
    + vm_compute. discriminate.
    + exists argv, tc. repeat split; auto.
      apply H6; try discriminate. reflexivity.
Defined.

(** ** The controller's checks of the negotiated layout *)





(** ** The two main loops, connected *)

(** One turn of the controller when the reply that waits is its request and
    no X event is pending. *)
Lemma app_turn_run a s rest w :
  App.xcb_pending w = [] ->
  tx_open (App.ctrl w) = true ->
  rx (App.ctrl w) = encode_u32 (u32 (App.output s)) ++ rest ->
  0 <= App.output s ->
  (Z.to_nat (App.output s) < List.length (App.mems_outputs a))%nat ->
  exists w1,
    App.app_mainloop_body a s w
      = (Done (App.loop_next (App.output_count (App.config a)) s), w1) /\
    App.xcb_pending w1 = [] /\
    App.ctrl w1 = {| rx := rest;
                     tx := tx (App.ctrl w) ++ encode_u32 (u32 (App.output s));
                     tx_open := true |}.
Proof.
  intros Hp Hopen Hrx Ho Hlen.
  destruct (nth_error (App.mems_outputs a) (Z.to_nat (App.output s)))
    as [ptr |] eqn:Hnth.
  2:{ apply nth_error_None in Hnth. lia. }
  unfold App.app_mainloop_body, bind at 1.
  unfold App.xcb_poll_for_event. rewrite Hp.
  unfold bind at 1. rewrite render_frame_unfold.
  unfold exchange, bind at 1. rewrite app_send_run.
  unfold log_all at 1, App.log at 1. cbn [App.ctrl]. rewrite Hopen.
  unfold bind at 1.
  erewrite app_recv_encode.
  2:{ unfold App.log, App.set_ctrl. cbn [App.ctrl rx]. exact Hrx. }
  rewrite u32_idem, Z.eqb_refl. cbn [negb]. unfold ret at 1.
  unfold bind at 1.
  rewrite (present_frame_run a (App.output s) ptr _ Ho Hnth).
  unfold ret. eexists. split; [reflexivity |].
  unfold log_all, App.log, App.set_ctrl.
  cbn [App.xcb_pending App.ctrl tx tx_open rx]. auto.
Qed.

Lemma wire_cons v vs : wire (v :: vs) = encode_u32 v ++ wire vs.
Proof. reflexivity. Qed.

Lemma wire_app vs1 vs2 : wire (vs1 ++ vs2) = wire vs1 ++ wire vs2.
Proof. unfold wire. rewrite map_app, concat_app. reflexivity. Qed.

(** The controller's loop from turn [i] on, fed its own requests. *)
Lemma app_mainloop_from_run a n :
  let count := App.output_count (App.config a) in
  2 <= count <= 2 ^ 32 ->
  List.length (App.mems_outputs a) = Z.to_nat count ->
  forall i rest w,
    App.xcb_pending w = [] ->
    tx_open (App.ctrl w) = true ->
    rx (App.ctrl w)
      = wire (map (fun j => pingpong count (Z.of_nat j)) (seq i n)) ++ rest ->
    let r := App.app_mainloop_from a (loop_at count i) n w in
    fst r = Done (loop_at count (i + n)) /\
    tx (App.ctrl (snd r))
      = tx (App.ctrl w)
        ++ wire (map (fun j => pingpong count (Z.of_nat j)) (seq i n)) /\
    rx (App.ctrl (snd r)) = rest /\
    App.xcb_pending (snd r) = [].
Proof.
  intros count Hc Hlen.
  induction n as [| n IH]; intros i rest w Hp Hopen Hrx.
  - cbn. rewrite Nat.add_0_r. unfold wire. cbn. rewrite app_nil_r. auto.
  - cbn [seq map] in *. rewrite wire_cons in *.
    rewrite <- app_assoc in Hrx.
    destruct (loop_at_pingpong count i ltac:(lia)) as [Eo Ro].
    rewrite <- Eo in *.
    rewrite <- (u32_small (App.output (loop_at count i))) in Hrx at 1 by lia.
    destruct (app_turn_run a (loop_at count i) _ w Hp Hopen Hrx)
      as (w1 & Hrun & Hp1 & Hc1); [lia | lia |].
    cbn [App.app_mainloop_from]. unfold bind. fold count in Hrun.
    rewrite Hrun.
    change (App.loop_next count (loop_at count i))
      with (loop_at count (S i)).
    specialize (IH (S i) rest w1 Hp1).
    rewrite Hc1 in IH. cbn [tx_open rx tx] in IH.
    destruct (IH eq_refl eq_refl) as (H1 & H2 & H3 & H4).
    cbv zeta. rewrite H1, H2, H3, H4.
    rewrite (u32_small (App.output (loop_at count i))) by lia.
    rewrite <- !app_assoc.
    replace (i + S n)%nat with (S i + n)%nat by lia. auto.
Qed.

(** C8: with 64 outputs, the loop variable [output] at the start of turn
    [i] is the [i]-th term of [0, 1, ..., 63, 63, 62, ..., 0, 1, 2, ...]
    (period 127) and lies in [[0, 64)]. Whatever the renderer and the X
    server do, the requests written by the first [n] turns of
    [app_mainloop] are the first terms of that sequence and, starting with
    no request in flight, the controller never writes a request while an
    earlier one is unanswered. When every request is answered by its echo,
    no X event arrives and there is an output pointer for each of the 64
    outputs, the [n] turns do end normally: the requests written are the
    first [n] terms of the sequence, all of them, each reply has been read,
    and no request is left in flight. *)
Theorem mainloop_ping_pong (a : App.app) (n : nat) (w : App.world) :
  App.output_count (App.config a) = 64 ->
  flight (App.trace w) = Some false ->
  let r := App.app_mainloop a n w in
  let pattern := fun i => pingpong 64 (Z.of_nat i) in
  ((forall k, 0 <= k <= 63 ->
      pingpong 64 k = k /\ pingpong 64 (64 + k) = 63 - k) /\
   (forall i, pingpong 64 (i + 127) = pingpong 64 i)) /\
  (forall i, App.output (loop_at 64 i) = pattern i /\ 0 <= pattern i < 64) /\
  flight (App.trace (snd r)) <> None /\
  (exists m, (m <= n)%nat /\
     requests (App.trace (snd r))
       = requests (App.trace w) ++ map pattern (seq 0 m)) /\
  (forall s, fst r = Done s ->
     s = loop_at 64 n /\
     requests (App.trace (snd r))
       = requests (App.trace w) ++ map pattern (seq 0 n) /\
     flight (App.trace (snd r)) = Some false) /\
  (forall rest,
     App.xcb_pending w = [] ->
     tx_open (App.ctrl w) = true ->
     List.length (App.mems_outputs a) = 64%nat ->
     rx (App.ctrl w) = wire (map pattern (seq 0 n)) ++ rest ->
     fst r = Done (loop_at 64 n) /\
     requests (App.trace (snd r))
       = requests (App.trace w) ++ map pattern (seq 0 n) /\
     tx (App.ctrl (snd r))
       = tx (App.ctrl w) ++ wire (map pattern (seq 0 n)) /\
     rx (App.ctrl (snd r)) = rest /\
     flight (App.trace (snd r)) = Some false).
Proof.
  intros Hc Hf r pattern.
  assert (Hsafe :
    flight (App.trace (snd r)) <> None /\
    (exists m, (m <= n)%nat /\
       requests (App.trace (snd r))
         = requests (App.trace w) ++ map pattern (seq 0 m)) /\
    (forall s, fst r = Done s ->
       s = loop_at 64 n /\
       requests (App.trace (snd r))
         = requests (App.trace w) ++ map pattern (seq 0 n) /\
       flight (App.trace (snd r)) = Some false)).
  { pose proof (mainloop_from_trace a 0 n
                  (App.log App.EvMapWindow w)) as H.
    cbv zeta in H. rewrite Hc in H.
    assert (Hf0 : flight (App.trace (App.log App.EvMapWindow w))
                  = Some false)
      by (cbn [App.log App.trace]; rewrite flight_app, Hf; reflexivity).
    assert (Hr0 : requests (App.trace (App.log App.EvMapWindow w))
                  = requests (App.trace w))
      by (cbn [App.log App.trace]; rewrite requests_app; cbn;
          apply app_nil_r).
    specialize (H ltac:(lia) Hf0). rewrite Hr0 in H.
    exact H. }
  destruct Hsafe as (S1 & S2 & S3).
  split; [split |].
  - intros k Hk. unfold pingpong. cbv zeta.
    change (2 * 64 - 1) with 127.
    rewrite (Z.mod_small k) by lia.
    destruct (Z.ltb_spec k 64); [| lia]. split; [reflexivity |].
    destruct (Z.eqb_spec k 63) as [-> | Hne]; [reflexivity |].
    rewrite (Z.mod_small (64 + k)) by lia.
    destruct (Z.ltb_spec (64 + k) 64); lia.
  - intros i. apply (pingpong_period 64 i). lia.
  - split.
    { intros i. destruct (loop_at_pingpong 64 i ltac:(lia)) as [E R].
      unfold pattern. rewrite <- E. auto. }
    split; [exact S1 |]. split; [exact S2 |]. split; [exact S3 |].
    intros rest Hp Hopen Hlen Hrx.
    pose proof (app_mainloop_from_run a n) as Hrun.
    cbv zeta in Hrun. rewrite Hc in Hrun.
    specialize (Hrun ltac:(lia) Hlen 0%nat rest
                  (App.log App.EvMapWindow w) Hp Hopen Hrx).
    change (loop_at 64 0) with App.loop_init in Hrun.
    destruct Hrun as (R1 & R2 & R3 & _).
    assert (Hd : fst r = Done (loop_at 64 n)) by exact R1.
    destruct (S3 _ Hd) as (_ & Q2 & Q3).
    split; [exact Hd |]. split; [exact Q2 |].
    split; [exact R2 |]. split; [exact R3 | exact Q3].
Qed.

(** C8 for 130 turns of the demo, more than a period, with a renderer that
    echoes: none of the turns fails and the requests are the pattern. *)
Lemma mainloop_ping_pong_witness :
  let pattern := fun i => pingpong 64 (Z.of_nat i) in
  let r := App.app_mainloop (demo_app true) 130
             (app_world_with (wire (map pattern (seq 0 130)))) in
  fst r = Done (loop_at 64 130) /\
  requests (App.trace (snd r)) = [] ++ map pattern (seq 0 130) /\
  flight (App.trace (snd r)) = Some false.
Proof.
  intros pattern r.
  destruct (mainloop_ping_pong (demo_app true) 130
              (app_world_with (wire (map pattern (seq 0 130))))
              eq_refl eq_refl)
    as (_ & _ & _ & _ & _ & Hrun).
  destruct (Hrun [] eq_refl eq_refl eq_refl) as (H1 & H2 & _ & _ & H5).
  - rewrite app_nil_r. reflexivity.
  - auto.
Defined.

(** X18: the two main loops fit together. Over [n] frames, with a working
    queue, no X event and one output pointer per output, the renderer fed
    the controller's requests serves every one of them, and the
    controller fed the renderer's replies finds each one equal to its
    request: both sides complete the [n] frames, the renderer having
    rendered the outputs in the ping-pong order. *)
Theorem closed_loop_runs
    (cfg : Renderer.renderer_config) (a : App.app) (n : nat)
    (rw : Renderer.world) (w : App.world) (rest : list byte) :
  let count := App.output_count (App.config a) in
  let reqs := frame_requests count n in
  Renderer.output_count cfg = count ->
  2 <= count <= 2 ^ 31 ->
  List.length (App.mems_outputs a) = Z.to_nat count ->
  App.xcb_pending w = [] ->
  tx_open (App.ctrl w) = true ->
  tx_open (Renderer.ctrl rw) = true ->
  queue_works rw ->
  rx (Renderer.ctrl rw) = wire reqs ->
  let rr := Renderer.renderer_mainloop cfg n rw in
  rx (App.ctrl w)
    = skipn (List.length (tx (Renderer.ctrl rw)))
        (tx (Renderer.ctrl (snd rr))) ++ rest ->
  let r := App.app_mainloop a n w in
  fst rr = Done tt /\
  Renderer.submitted (snd rr) = Renderer.submitted rw ++ reqs /\
  fst r = Done (loop_at count n) /\
  tx (App.ctrl (snd r)) = tx (App.ctrl w) ++ wire reqs /\
  rx (App.ctrl (snd r)) = rest.
Proof.
  intros count reqs Hcount Hc Hlen Hp Hopen Hropen Hq Hrrx rr.
  assert (Hn : List.length reqs = n).
  { unfold reqs, frame_requests. rewrite length_map, length_seq.
    reflexivity. }
  assert (Hall : forall v, In v reqs -> 0 <= v < Renderer.output_count cfg).
  { intros v Hv. unfold reqs, frame_requests in Hv.
    apply in_map_iff in Hv. destruct Hv as (i & <- & _).
    destruct (loop_at_pingpong count i ltac:(lia)) as [Eo Ro].
    rewrite <- Eo, Hcount. exact Ro. }
  rewrite <- (app_nil_r (wire reqs)) in Hrrx.
  pose proof (renderer_mainloop_run cfg reqs [] ltac:(lia) Hall rw Hropen Hq
                Hrrx) as Hr.
  cbv zeta in Hr. rewrite Hn in Hr. fold rr in Hr.
  destruct Hr as (R1 & R2 & _ & R4).
  rewrite R2, skipn_app, skipn_all, Nat.sub_diag. cbn [skipn app].
  intros Hrx.
  split; [exact R1 |]. split; [exact R4 |].
  unfold App.app_mainloop, bind, App.emit, modify.
  pose proof (app_mainloop_from_run a n ltac:(fold count; lia) Hlen 0%nat
                rest (App.log App.EvMapWindow w) Hp Hopen Hrx) as Ha.
  cbv zeta in Ha. fold count in Ha.
  destruct Ha as (A1 & A2 & A3 & _).
  change (loop_at count 0) with App.loop_init in A1, A2, A3.
  rewrite A1, A2, A3. auto.
Qed.

Lemma closed_loop_runs_witness :
  let reqs := frame_requests 64 130 in
  let rr := Renderer.renderer_mainloop (demo_config false) 130
              (renderer_world_with (wire reqs)) in
  let r := App.app_mainloop (demo_app true) 130 (app_world_with (wire reqs)) in
  fst rr = Done tt /\
  Renderer.submitted (snd rr) = [] ++ reqs /\
  fst r = Done (loop_at 64 130) /\
  tx (App.ctrl (snd r)) = [] ++ wire reqs /\
  rx (App.ctrl (snd r)) = [].
Proof.
  apply (closed_loop_runs (demo_config false) (demo_app true) 130
           (renderer_world_with (wire (frame_requests 64 130)))
           (app_world_with (wire (frame_requests 64 130))) []).
  - reflexivity.
  - vm_compute. split; discriminate.
  - vm_compute. reflexivity.
  - reflexivity.
  - reflexivity.
  - reflexivity.
  - constructor.
  - reflexivity.
  - vm_compute. reflexivity.
Defined.

(** ** The heap's union *)

Lemma renderer_vk_defined res msg : Renderer.renderer_vk res msg <> Undefined.
Proof. unfold Renderer.renderer_vk. destruct (res =? _); discriminate. Qed.

Lemma alloc_heap_buffer_defined use_udmabuf h ans offset size props tb w :
  union_fits use_udmabuf h ->
  fst (RendererSetup.renderer_alloc_heap_buffer use_udmabuf h ans offset size
         props tb w) <> Undefined.
Proof.
  unfold union_fits, RendererSetup.renderer_alloc_heap_buffer.
  unfold bind, RendererSetup.lift, RendererSetup.log_request,
    RendererSetup.log_allocation, modify, fatal, ret, Renderer.renderer_vk.
  intros Hfit.
  destruct (RendererSetup.buffer_result ans =? VK_SUCCESS);
    [| cbn; discriminate].
  destruct (RendererSetup.heap_union h) as [base | fd]; subst use_udmabuf.
  - destruct (RendererSetup.props_result ans =? VK_SUCCESS);
      [| cbn; discriminate].
    destruct (Z.land _ _ =? 0); [cbn; discriminate |].
    destruct (RendererSetup.allocate_result ans =? VK_SUCCESS);
      [| cbn; discriminate].
    destruct (RendererSetup.bind_result ans =? VK_SUCCESS); cbn; discriminate.
  - destruct (RendererSetup.udmabuf_fd ans <? 0); [cbn; discriminate |].
    destruct (RendererSetup.props_result ans =? VK_SUCCESS);
      [| cbn; discriminate].
    destruct (Z.land _ _ =? 0); [cbn; discriminate |].
    destruct (RendererSetup.allocate_result ans =? VK_SUCCESS);
      [| cbn; discriminate].
    destruct (RendererSetup.bind_result ans =? VK_SUCCESS); cbn; discriminate.
Qed.

Lemma alloc_outputs_defined use_udmabuf h answers l tb n :
  union_fits use_udmabuf h ->
  forall offset w,
    fst (RendererSetup.alloc_outputs use_udmabuf h answers l tb n offset w)
      <> Undefined.
Proof.
  intros Hfit. induction n as [| n IH]; intros offset w.
  - cbn. discriminate.
  - cbn [RendererSetup.alloc_outputs]. unfold bind.
    pose proof (alloc_heap_buffer_defined use_udmabuf h (answers offset)
                  offset (Renderer.output_size l) (Renderer.output_props l)
                  tb w Hfit) as Hd.
    destruct (RendererSetup.renderer_alloc_heap_buffer _ _ _ _ _ _ _ _)
      as [[[] | msg | | sg] w1]; cbn [fst] in *.
    + apply IH.
    + discriminate.
    + contradiction.
    + discriminate.
Qed.

(** X19: the heap [renderer_init_heap] returns carries the size [lseek]
    reported and, in its union, the member of the import path in use: the
    descriptor of [/dev/udmabuf] on the udmabuf path, the mapping
    otherwise. With such a heap [renderer_init_heap_buffers] never reads the
    member that was not written, whatever the kernel and the driver
    answer. *)
Theorem heap_union_matches_path
    (cfg : Renderer.renderer_config) (memfd off dev_fd : Z) (map : option Z)
    (h : RendererSetup.heap) :
  RendererSetup.renderer_init_heap (Renderer.use_udmabuf cfg) memfd off dev_fd
    map = Done h ->
  (RendererSetup.heap_memfd h = memfd /\
   RendererSetup.heap_bytes h = off /\ 0 <= off /\
   RendererSetup.heap_union h
     = (if Renderer.use_udmabuf cfg then RendererSetup.HeapUdmabuf dev_fd
        else match map with
             | Some base => RendererSetup.HeapBase base
             | None => RendererSetup.heap_union h
             end) /\
   (Renderer.use_udmabuf cfg = true -> 0 <= dev_fd) /\
   (Renderer.use_udmabuf cfg = false -> map <> None)) /\
  (forall malloc_ok answers l ubo_bits output_bits w,
     fst (RendererSetup.renderer_init_heap_buffers cfg h malloc_ok answers l
            ubo_bits output_bits w) <> Undefined).
Proof.
  intros H. unfold RendererSetup.renderer_init_heap in H.
  destruct (Z.ltb_spec off 0); [discriminate |].
  assert (Hfit : union_fits (Renderer.use_udmabuf cfg) h /\
                 RendererSetup.heap_memfd h = memfd /\
                 RendererSetup.heap_bytes h = off /\
                 RendererSetup.heap_union h
                 = (if Renderer.use_udmabuf cfg
                    then RendererSetup.HeapUdmabuf dev_fd
                    else match map with
                         | Some base => RendererSetup.HeapBase base
                         | None => RendererSetup.heap_union h
                         end) /\
                 (Renderer.use_udmabuf cfg = true -> 0 <= dev_fd) /\
                 (Renderer.use_udmabuf cfg = false -> map <> None)).
  { unfold union_fits. destruct (Renderer.use_udmabuf cfg).
    - destruct (Z.ltb_spec dev_fd 0); [discriminate |].
      injection H as <-. cbn. repeat split; auto. discriminate.
    - destruct map as [base |]; [| discriminate].
      injection H as <-. cbn. repeat split; auto; discriminate. }
  destruct Hfit as (Hfit & H1 & H2 & H3 & H4 & H5).
  split; [auto 10 |].
  intros malloc_ok answers l ub ob w.
  unfold RendererSetup.renderer_init_heap_buffers.
  destruct malloc_ok; cbn [negb]; [| cbn; discriminate].
  unfold bind.
  pose proof (alloc_heap_buffer_defined (Renderer.use_udmabuf cfg) h
                (answers (Renderer.base_skip l)) (Renderer.base_skip l)
                (Renderer.ubo_size l) (Renderer.ubo_props l) ub w Hfit)
    as Hd.
  destruct (RendererSetup.renderer_alloc_heap_buffer _ _ _ _ _ _ _ _)
    as [[[] | msg | | sg] w1]; cbn [fst] in *.
  - apply alloc_outputs_defined. exact Hfit.
  - discriminate.
  - contradiction.
  - discriminate.
Qed.

Lemma heap_union_matches_path_witness :
  RendererSetup.heap_union mapped_heap
    = RendererSetup.HeapBase 139637976727552 /\
  fst (RendererSetup.renderer_init_heap_buffers (demo_config false)
         mapped_heap true (fun _ => import_ok 1) demo_layout 1 1 no_imports)
    <> Undefined.
Proof.
  destruct (heap_union_matches_path (demo_config false) 5
              (8 * 1024 * 1024 * 1024) (-1) (Some 139637976727552)
              mapped_heap eq_refl) as ((_ & _ & _ & Hu & _) & Hdef).
  split; [exact Hu | apply Hdef].
Defined.

(** ** The pipes *)

Lemma s32_u32_int v : INT_MIN <= v <= INT_MAX -> s32 (u32 v) = v.
Proof.
  unfold INT_MIN, INT_MAX, s32, u32. intros Hv. cbv zeta.
  rewrite Z.mod_mod by lia.
  destruct (Z.le_gt_cases 0 v) as [Hpos | Hneg].
  - rewrite Z.mod_small by lia.
    destruct (Z.ltb_spec v (2 ^ 31)); lia.
  - replace (v mod 2 ^ 32) with (v + 2 ^ 32).
    2:{ apply Z.mod_unique with (q := -1); lia. }
    destruct (Z.ltb_spec (v + 2 ^ 32) (2 ^ 31)); lia.
Qed.

Lemma chan_read4_short c :
  (List.length (rx c) < 4)%nat -> fst (chan_read4 c) = None.
Proof.
  unfold chan_read4.
  destruct (rx c) as [| b0 [| b1 [| b2 [| b3 rest]]]]; cbn; try reflexivity.
  lia.
Qed.

(** X20: what crosses a pipe. A value written by [app_send] is what
    [renderer_recv] returns, and a value written by [renderer_send] is what
    [app_recv] returns, in both cases the value modulo [2^32] with the
    four bytes consumed; an [int] converted on the way and back, as for the
    output index, arrives unchanged. A read that finds fewer than four
    bytes aborts the process with ["failed to receive a value"]; a write to
    a pipe whose reader has closed ends it by [SIGPIPE], nothing written
    and no message printed. *)
Theorem pipe_round_trip
    (v : Z) (w : App.world) (rw : Renderer.world) (rest : list byte) :
  (tx_open (App.ctrl w) = true ->
   rx (Renderer.ctrl rw)
     = skipn (List.length (tx (App.ctrl w)))
         (tx (App.ctrl (snd (App.app_send v w)))) ++ rest ->
   fst (App.app_send v w) = Done tt /\
   fst (Renderer.renderer_recv rw) = Done (v mod 2 ^ 32) /\
   rx (Renderer.ctrl (snd (Renderer.renderer_recv rw))) = rest /\
   (INT_MIN <= v <= INT_MAX -> s32 (v mod 2 ^ 32) = v)) /\
  (tx_open (Renderer.ctrl rw) = true ->
   rx (App.ctrl w)
     = skipn (List.length (tx (Renderer.ctrl rw)))
         (tx (Renderer.ctrl (snd (Renderer.renderer_send v rw)))) ++ rest ->
   fst (Renderer.renderer_send v rw) = Done tt /\
   fst (App.app_recv w) = Done (v mod 2 ^ 32) /\
   rx (App.ctrl (snd (App.app_recv w))) = rest) /\
  ((List.length (rx (App.ctrl w)) < 4)%nat ->
   fst (App.app_recv w) = Fatal "failed to receive a value") /\
  ((List.length (rx (Renderer.ctrl rw)) < 4)%nat ->
   fst (Renderer.renderer_recv rw) = Fatal "failed to receive a value") /\
  (tx_open (App.ctrl w) = false ->
   fst (App.app_send v w) = Killed SIGPIPE /\
   tx (App.ctrl (snd (App.app_send v w))) = tx (App.ctrl w)) /\
  (tx_open (Renderer.ctrl rw) = false ->
   fst (Renderer.renderer_send v rw) = Killed SIGPIPE /\
   tx (Renderer.ctrl (snd (Renderer.renderer_send v rw)))
     = tx (Renderer.ctrl rw)).
Proof.
  split; [| split; [| split; [| split; [| split]]]].
  - intros Hopen Hrx. rewrite app_send_run, Hopen in *.
    cbn [fst snd App.log App.set_ctrl App.ctrl tx] in *.
    rewrite skipn_app, skipn_all, Nat.sub_diag in Hrx.
    cbn [skipn app] in Hrx.
    rewrite (renderer_recv_encode _ _ _ Hrx), u32_idem. cbn [fst snd
      Renderer.ctrl rx].
    repeat split. apply s32_u32_int.
  - intros Hopen Hrx. rewrite renderer_send_run, Hopen in *.
    cbn [fst snd Renderer.ctrl tx] in *.
    rewrite skipn_app, skipn_all, Nat.sub_diag in Hrx.
    cbn [skipn app] in Hrx.
    rewrite (app_recv_encode _ _ _ Hrx), u32_idem.
    cbn [fst snd App.log App.set_ctrl App.ctrl rx]. auto.
  - intros Hshort. unfold App.app_recv.
    pose proof (chan_read4_short (App.ctrl w) Hshort) as Hs.
    destruct (chan_read4 (App.ctrl w)) as [[bs |] c]; [discriminate |].
    reflexivity.
  - intros Hshort. unfold Renderer.renderer_recv.
    pose proof (chan_read4_short (Renderer.ctrl rw) Hshort) as Hs.
    destruct (chan_read4 (Renderer.ctrl rw)) as [[bs |] c]; [discriminate |].
    reflexivity.
  - intros Hclosed. rewrite app_send_run, Hclosed.
    split; reflexivity.
  - intros Hclosed. rewrite renderer_send_run, Hclosed.
    split; reflexivity.
Qed.

Lemma pipe_round_trip_witness :
  let closed := App.set_ctrl {| rx := []; tx := []; tx_open := false |}
                  (app_world_with []) in
  fst (Renderer.renderer_recv (renderer_world_with (encode_u32 (u32 (-1)))))
    = Done ((-1) mod 2 ^ 32) /\
  s32 ((-1) mod 2 ^ 32) = -1 /\
  fst (App.app_send 7 closed) = Killed SIGPIPE.
Proof.
  intros closed.
  destruct (pipe_round_trip (-1) (app_world_with [])
              (renderer_world_with (encode_u32 (u32 (-1)))) [])
    as [H _].
  destruct (H eq_refl eq_refl) as (_ & H1 & _ & H2).
  split; [exact H1 |]. split; [apply H2; vm_compute; split; discriminate |].
  destruct (pipe_round_trip 7 closed (renderer_world_with []) [])
    as (_ & _ & _ & _ & Hc & _).
  apply Hc. reflexivity.
Defined.
